(** * Up Ahead: date extraction, relevance filtering, aggregation and
      planner storage

    A shallow embedding of [src/utils/dateExtractor.js] (which also holds
    the planner storage module) and of the aggregation half of
    [src/services/upAheadService.js], followed by the properties of the
    specification that are settled on it.

    Conventions of the embedding.
    - A JavaScript string is a [string]: the bytes of its UTF-8 text.
      ASCII characters behave as in JavaScript; a byte above 127, part of
      a character outside ASCII, is caseless, is no word character, no
      digit and no white space.  The case mappings and the white space
      of Unicode outside ASCII are thus left out ([toLowerCase] turns the
      Kelvin sign into "k", [toUpperCase] turns the ligature "fi" into
      "FI", [\s] matches U+00A0): the embedding follows the code to the
      letter on the texts that [isAscii] accepts, and the statements whose
      truth depends on it assume it.
    - A number that the code only uses as an integer (epoch milliseconds,
      hours, scores, counts) is a [Z].
    - A [Date] is [Invalid] or an instant in epoch milliseconds.  Local
      time is UTC plus a fixed offset [tz] (milliseconds east of UTC),
      an explicit argument of every function that reads or builds local
      calendar fields; [toISOString] is UTC, as in JavaScript.  This is
      local time in a zone whose clock does not change over the instants
      that a call touches.  Where the clock changes in between, the code
      still moves by local calendar days, and the instant it reaches is
      the change away from a multiple of 24 hours; what is stated about
      local calendar days and weekdays does not depend on it.
    - The clock ([Date.now()], [new Date()]) is an explicit argument [now].
    - Mutable objects live in an explicit store: the input items in a heap
      indexed by references, the module-level [_wbCache] and the
      [localStorage] entry of the planner as components of the state. *)

From Stdlib Require Import ZArith QArith List String Ascii Bool Lia.
From stdpp Require Import base gmap strings list pretty.

Open Scope string_scope.
Open Scope Z_scope.

(** ** JavaScript strings *)

Module JsString.

Definition code (c : ascii) : N := N_of_ascii c.

Definition isUpper (c : ascii) : bool := ((65 <=? code c) && (code c <=? 90))%N.
Definition isLowerLetter (c : ascii) : bool := ((97 <=? code c) && (code c <=? 122))%N.
Definition isDigit (c : ascii) : bool := ((48 <=? code c) && (code c <=? 57))%N.

(** [\w] : [A-Za-z0-9_] *)
Definition isWordChar (c : ascii) : bool :=
  isUpper c || isLowerLetter c || isDigit c || (code c =? 95)%N.

(** [\s] on the ASCII range: TAB, LF, VT, FF, CR and SPACE. *)
Definition isSpace (c : ascii) : bool :=
  ((9 <=? code c) && (code c <=? 13) || (code c =? 32))%N.

Definition lowerChar (c : ascii) : ascii :=
  if isUpper c then ascii_of_N (code c + 32) else c.

Definition upperChar (c : ascii) : ascii :=
  if isLowerLetter c then ascii_of_N (code c - 32) else c.

(** [String.prototype.toLowerCase] *)
Fixpoint toLowerCase (s : string) : string :=
  match s with
  | EmptyString => EmptyString
  | String c s' => String (lowerChar c) (toLowerCase s')
  end.

(** [String.prototype.toUpperCase] *)
Fixpoint toUpperCase (s : string) : string :=
  match s with
  | EmptyString => EmptyString
  | String c s' => String (upperChar c) (toUpperCase s')
  end.

(** [String.prototype.startsWith] *)
Fixpoint startsWith (s p : string) {struct p} : bool :=
  match p with
  | EmptyString => true
  | String a p' =>
      match s with
      | EmptyString => false
      | String b s' => Ascii.eqb a b && startsWith s' p'
      end
  end.

(** [String.prototype.includes] *)
Fixpoint includes (s p : string) : bool :=
  startsWith s p ||
  match s with
  | EmptyString => false
  | String _ s' => includes s' p
  end.

(** [String.prototype.slice(0, n)] for [0 <= n] *)
Fixpoint slice0 (n : nat) (s : string) : string :=
  match n, s with
  | S n', String c s' => String c (slice0 n' s')
  | _, _ => EmptyString
  end.

(** [s.split(c)[0]] for a one-character separator [c] *)
Fixpoint splitHead (c : ascii) (s : string) : string :=
  match s with
  | EmptyString => EmptyString
  | String a s' => if Ascii.eqb a c then EmptyString else String a (splitHead c s')
  end.

(** [s.split(/\s+/)]: the pieces between maximal runs of white space.  A
    string that starts (ends) with white space yields a leading (trailing)
    empty piece, and the empty string yields one empty piece. *)
Fixpoint splitSpacesAux (cur : string) (inSep : bool) (s : string) : list string :=
  match s with
  | EmptyString => [String.rev cur]
  | String c s' =>
      if isSpace c then
        if inSep then splitSpacesAux cur true s'
        else String.rev cur :: splitSpacesAux EmptyString true s'
      else splitSpacesAux (String c cur) false s'
  end.

Definition splitSpaces (s : string) : list string :=
  splitSpacesAux EmptyString false s.

(** The value of a run of decimal digits: unary [+] and [parseInt] on the
    text of a [\d...] capture. *)
Definition digitVal (c : ascii) : Z := Z.of_N (code c) - 48.

Fixpoint parseDigitsAux (acc : Z) (s : string) : Z :=
  match s with
  | EmptyString => acc
  | String c s' => parseDigitsAux (10 * acc + digitVal c) s'
  end.

Definition parseDigits (s : string) : Z := parseDigitsAux 0 s.

(** Decimal text of an integer left-padded with zeros to [w] digits. *)
Fixpoint zeros (n : nat) : string :=
  match n with
  | O => EmptyString
  | S n' => String "0" (zeros n')
  end.

Definition pad (w : nat) (n : Z) : string :=
  let d := pretty (Z.abs n) in
  zeros (w - String.length d) +:+ d.

(** [a < b] on strings: lexicographic on the character codes. *)
Definition lt (a b : string) : bool := String.ltb a b.

(** The texts of ASCII characters: on them [toLowerCase], [toUpperCase],
    [\s], [\w], [\b] and the [i] flag of the embedding are those of
    JavaScript. *)
Definition isAsciiChar (c : ascii) : bool := (code c <? 128)%N.

Fixpoint isAscii (s : string) : bool :=
  match s with
  | EmptyString => true
  | String c s' => isAsciiChar c && isAscii s'
  end.

End JsString.

(** ** Regular expressions

    The fragment of JavaScript regular expressions that the sources use,
    with the backtracking semantics of the language: alternatives are
    tried left to right, quantifiers are greedy, and the first way to
    complete the whole match wins. *)

Module Regex.

Import JsString.

Inductive regex : Type :=
| Empty                               (* the empty pattern *)
| Chr (c : ascii)                     (* a literal character *)
| Class (p : ascii -> bool)           (* \d, \s, a bracket class *)
| WordBoundary                        (* \b *)
| Seq (r1 r2 : regex)
| Alt (r1 r2 : regex)                 (* r1|r2 *)
| Star (r : regex)                    (* r*, greedy *)
| Group (n : nat) (r : regex).        (* the n-th capturing group *)

(** Derived forms. *)
Definition Opt (r : regex) : regex := Alt r Empty.         (* r? *)
Definition Plus (r : regex) : regex := Seq r (Star r).     (* r+ *)

Fixpoint Lit (s : string) : regex :=                       (* a literal text *)
  match s with
  | EmptyString => Empty
  | String c s' => Seq (Chr c) (Lit s')
  end.

Fixpoint Alts (rs : list regex) : regex :=                 (* r1|r2|... *)
  match rs with
  | [] => Empty
  | [r] => r
  | r :: rs' => Alt r (Alts rs')
  end.

Fixpoint Seqs (rs : list regex) : regex :=                 (* r1 r2 ... *)
  match rs with
  | [] => Empty
  | r :: rs' => Seq r (Seqs rs')
  end.

Definition Digit : regex := Class isDigit.                 (* \d *)
Definition Space : regex := Class isSpace.                 (* \s *)
Definition Digit12 : regex := Seq Digit (Opt Digit).       (* \d{1,2} *)
Definition Digit4 : regex := Seqs [Digit; Digit; Digit; Digit].  (* \d{4} *)

(** The text of the capturing groups that took part in the match. *)
Definition captures : Type := list (nat * string).

Fixpoint capture (c : captures) (n : nat) : option string :=
  match c with
  | [] => None
  | (m, s) :: c' => if Nat.eqb m n then Some s else capture c' n
  end.

(** The text of group [n], or the empty string when the group took no
    part in the match. *)
Definition group (c : captures) (n : nat) : string :=
  match capture c n with
  | Some s => s
  | None => ""
  end.

(** A literal matches a character up to case under the [i] flag. *)
Definition chrMatches (icase : bool) (x a : ascii) : bool :=
  if icase then Ascii.eqb (upperChar x) (upperChar a) else Ascii.eqb x a.

Definition wordBefore (prev : option ascii) : bool :=
  match prev with
  | Some c => isWordChar c
  | None => false
  end.

Definition wordAfter (s : string) : bool :=
  match s with
  | String c _ => isWordChar c
  | EmptyString => false
  end.

(** The iterations of a greedy [r*] whose body is matched by [step]: try
    one more iteration and, failing that, go on with [k].  An iteration
    that consumes nothing is rejected, as the language prescribes, so the
    iteration count is bounded by the length of the input: [fuel] counts
    the iterations that are left, and a fuel above the length of the input
    is never used up ([iterate_fuel] below). *)
Definition iterate {A : Type}
    (step : option ascii -> string -> captures ->
            (option ascii -> string -> captures -> option A) -> option A)
    (k : option ascii -> string -> captures -> option A)
  : nat -> option ascii -> string -> captures -> option A :=
  fix iterate (fuel : nat) (prev : option ascii) (s : string) (c : captures)
    : option A :=
    match fuel with
    | O => None
    | S fuel' =>
        match step prev s c
                (fun prev' s' c' =>
                   if (String.length s' <? String.length s)%nat
                   then iterate fuel' prev' s' c' else None) with
        | Some x => Some x
        | None => k prev s c
        end
    end.

(** The matcher, in continuation-passing style: [prev] is the character
    before the current position, [s] the rest of the input, [c] the
    captures so far, [k] what remains to be matched. *)
Fixpoint rmatch {A : Type} (icase : bool) (r : regex)
    (prev : option ascii) (s : string) (c : captures)
    (k : option ascii -> string -> captures -> option A) : option A :=
  match r with
  | Empty => k prev s c
  | Chr x =>
      match s with
      | String a s' => if chrMatches icase x a then k (Some a) s' c else None
      | EmptyString => None
      end
  | Class p =>
      match s with
      | String a s' => if p a then k (Some a) s' c else None
      | EmptyString => None
      end
  | WordBoundary =>
      if xorb (wordBefore prev) (wordAfter s) then k prev s c else None
  | Seq r1 r2 =>
      rmatch icase r1 prev s c (fun prev' s' c' => rmatch icase r2 prev' s' c' k)
  | Alt r1 r2 =>
      match rmatch icase r1 prev s c k with
      | Some x => Some x
      | None => rmatch icase r2 prev s c k
      end
  | Star r1 => iterate (rmatch icase r1) k (S (String.length s)) prev s c
  | Group n r1 =>
      rmatch icase r1 prev s c
        (fun prev' s' c' =>
           k prev' s' ((n, slice0 (String.length s - String.length s') s) :: c'))
  end.

(** The first match, scanning start positions from left to right
    ([RegExp.prototype.exec] without the [g] flag). *)
Fixpoint execFrom (icase : bool) (r : regex) (prev : option ascii) (s : string)
  : option captures :=
  match rmatch icase r prev s [] (fun _ _ c => Some c) with
  | Some c => Some c
  | None =>
      match s with
      | EmptyString => None
      | String a s' => execFrom icase r (Some a) s'
      end
  end.

(** [text.match(re)] *)
Definition exec (icase : bool) (r : regex) (text : string) : option captures :=
  execFrom icase r None text.

(** [re.test(text)] *)
Definition test (icase : bool) (r : regex) (text : string) : bool :=
  match exec icase r text with
  | Some _ => true
  | None => false
  end.

(** *** A declarative reading of literal and word matching *)

(** Matching a literal is deterministic: it consumes the literal, up to
    case under the [i] flag, or fails. *)
Fixpoint matchLit (icase : bool) (w : string) (prev : option ascii) (s : string)
  : option (option ascii * string) :=
  match w with
  | EmptyString => Some (prev, s)
  | String x w' =>
      match s with
      | String a s' => if chrMatches icase x a then matchLit icase w' (Some a) s' else None
      | EmptyString => None
      end
  end.

(** Some position of the text, scanning from the left, satisfies [f]. *)
Fixpoint anyPosition (f : option ascii -> string -> bool) (prev : option ascii)
    (s : string) : bool :=
  f prev s ||
  match s with
  | EmptyString => false
  | String a s' => anyPosition f (Some a) s'
  end.

(** The last character of [s], or [prev] when [s] is empty. *)
Fixpoint lastOr (prev : option ascii) (s : string) : option ascii :=
  match s with
  | EmptyString => prev
  | String c s' => lastOr (Some c) s'
  end.

(** A position of a text: the character before it and the rest. *)
Definition positionOf (text : string) (prev : option ascii) (rest : string) : Prop :=
  exists pre, text = pre +:+ rest /\ prev = lastOr None pre.

(** [s'] is what is left of [s] after reading on, and [prev'] the last
    character read. *)
Definition readOn (prev : option ascii) (s : string) (prev' : option ascii)
    (s' : string) : Prop :=
  exists mid, s = mid +:+ s' /\ prev' = lastOr prev mid.

(** There is a word boundary between the texts [before] and [after]. *)
Definition boundary (before after : string) : Prop :=
  wordBefore (lastOr None before) <> wordAfter after.

(** [word] occurs in [text], up to case, with a word boundary on each
    side. *)
Definition occursAsWord (text word : string) : Prop :=
  exists pre mid post,
    text = pre +:+ mid +:+ post
    /\ toUpperCase mid = toUpperCase word
    /\ boundary pre (mid +:+ post)
    /\ boundary (pre +:+ mid) post.

(** *** The matches of a pattern, declaratively

    [Matches icase r prev s c prev' s' c']: the pattern [r] matches at the
    position ([prev], [s]) with captures [c], up to the position ([prev'],
    [s']), leaving the captures [c'].  An iteration of a star consumes at
    least one character. *)
Inductive Matches (icase : bool)
  : regex -> option ascii -> string -> captures ->
    option ascii -> string -> captures -> Prop :=
| MatchesEmpty prev s c : Matches icase Empty prev s c prev s c
| MatchesChr x a prev s c :
    chrMatches icase x a = true ->
    Matches icase (Chr x) prev (String a s) c (Some a) s c
| MatchesClass (p : ascii -> bool) a prev s c :
    p a = true ->
    Matches icase (Class p) prev (String a s) c (Some a) s c
| MatchesWordBoundary prev s c :
    xorb (wordBefore prev) (wordAfter s) = true ->
    Matches icase WordBoundary prev s c prev s c
| MatchesSeq r1 r2 prev s c prev1 s1 c1 prev2 s2 c2 :
    Matches icase r1 prev s c prev1 s1 c1 ->
    Matches icase r2 prev1 s1 c1 prev2 s2 c2 ->
    Matches icase (Seq r1 r2) prev s c prev2 s2 c2
| MatchesAltL r1 r2 prev s c prev' s' c' :
    Matches icase r1 prev s c prev' s' c' ->
    Matches icase (Alt r1 r2) prev s c prev' s' c'
| MatchesAltR r1 r2 prev s c prev' s' c' :
    Matches icase r2 prev s c prev' s' c' ->
    Matches icase (Alt r1 r2) prev s c prev' s' c'
| MatchesStarDone r prev s c : Matches icase (Star r) prev s c prev s c
| MatchesStarMore r prev s c prev1 s1 c1 prev2 s2 c2 :
    Matches icase r prev s c prev1 s1 c1 ->
    (String.length s1 < String.length s)%nat ->
    Matches icase (Star r) prev1 s1 c1 prev2 s2 c2 ->
    Matches icase (Star r) prev s c prev2 s2 c2
| MatchesGroup n r prev s c prev' s' c' :
    Matches icase r prev s c prev' s' c' ->
    Matches icase (Group n r) prev s c prev' s'
      ((n, slice0 (String.length s - String.length s') s) :: c').

(** A pattern without capturing groups. *)
Fixpoint groupFree (r : regex) : bool :=
  match r with
  | Empty | Chr _ | Class _ | WordBoundary => true
  | Seq r1 r2 | Alt r1 r2 => groupFree r1 && groupFree r2
  | Star r1 => groupFree r1
  | Group _ _ => false
  end.

(** Every character of a text satisfies [p]. *)
Fixpoint allChars (p : ascii -> bool) (s : string) : bool :=
  match s with
  | EmptyString => true
  | String a s' => p a && allChars p s'
  end.

(** A pattern that reads a text and its lower-cased form alike under the
    [i] flag: no word boundary, and character classes that do not tell a
    letter from its lower-case form. *)
Fixpoint caseStable (r : regex) : Prop :=
  match r with
  | Empty | Chr _ => True
  | Class p => forall a, p (lowerChar a) = p a
  | WordBoundary => False
  | Seq r1 r2 | Alt r1 r2 => caseStable r1 /\ caseStable r2
  | Star r1 | Group _ r1 => caseStable r1
  end.

End Regex.

(** ** The [Date] object

    Time values are epoch milliseconds; [tz] is the offset of local time
    from UTC in milliseconds (positive east of Greenwich), the same at
    every instant: [setDate], [setHours] and [setFullYear] build the local
    time value from the local fields and take the offset off again. *)

Module JsDate.

Import JsString.

Inductive Date : Type :=
| Invalid             (* the time value is NaN *)
| At (t : Z).         (* a time value in range *)

Definition msPerDay : Z := 86400000.

(** [TimeClip] *)
Definition timeClip (t : Z) : Date :=
  if Z.abs t <=? 8640000000000000 then At t else Invalid.

(** Day number (days since 1970-01-01) of a proleptic Gregorian date, with
    [m] in 1..12, and its inverse. *)
Definition daysFromCivil (y m d : Z) : Z :=
  let y' := if m <=? 2 then y - 1 else y in
  let era := y' / 400 in
  let yoe := y' - era * 400 in
  let mp := (m + 9) mod 12 in
  let doy := (153 * mp + 2) / 5 + d - 1 in
  let doe := yoe * 365 + yoe / 4 - yoe / 100 + doy in
  era * 146097 + doe - 719468.

Definition civilFromDays (z : Z) : Z * Z * Z :=
  let z' := z + 719468 in
  let era := z' / 146097 in
  let doe := z' - era * 146097 in
  let yoe := (doe - doe / 1460 + doe / 36524 - doe / 146096) / 365 in
  let doy := doe - (365 * yoe + yoe / 4 - yoe / 100) in
  let mp := (5 * doy + 2) / 153 in
  let d := doy - (153 * mp + 2) / 5 + 1 in
  let m := if mp <? 10 then mp + 3 else mp - 9 in
  let y := yoe + era * 400 in
  (if m <=? 2 then y + 1 else y, m, d).

(** [MakeDay(year, month, date)]: [month] is zero-based and may lie outside
    0..11, [date] may lie outside the month; both overflow into the
    neighbouring months and years. *)
Definition makeDay (year month date : Z) : Z :=
  daysFromCivil (year + month / 12) (month mod 12 + 1) 1 + date - 1.

Definition localDay (tz t : Z) : Z := (t + tz) / msPerDay.
Definition timeWithinDay (tz t : Z) : Z := (t + tz) mod msPerDay.

Definition getFullYear (tz t : Z) : Z := fst (fst (civilFromDays (localDay tz t))).
Definition getMonth (tz t : Z) : Z := snd (fst (civilFromDays (localDay tz t))) - 1.
Definition getDate (tz t : Z) : Z := snd (civilFromDays (localDay tz t)).
(** 0 is Sunday; 1970-01-01 was a Thursday. *)
Definition getDay (tz t : Z) : Z := (localDay tz t + 4) mod 7.

(** [new Date(year, month, day)]: local midnight; a year in 0..99 means
    1900 + year. *)
Definition newDate (tz year month day : Z) : Date :=
  let yr := if (0 <=? year) && (year <=? 99) then 1900 + year else year in
  timeClip (makeDay yr month day * msPerDay - tz).

(** [d.setDate(dt)] *)
Definition setDate (tz : Z) (d : Date) (dt : Z) : Date :=
  match d with
  | Invalid => Invalid
  | At t =>
      timeClip (makeDay (getFullYear tz t) (getMonth tz t) dt * msPerDay
                + timeWithinDay tz t - tz)
  end.

(** [d.setDate(d.getDate() + k)] *)
Definition addDays (tz : Z) (d : Date) (k : Z) : Date :=
  match d with
  | Invalid => Invalid
  | At t => setDate tz d (getDate tz t + k)
  end.

(** [d.setFullYear(y)] *)
Definition setFullYear (tz : Z) (d : Date) (y : Z) : Date :=
  match d with
  | Invalid => Invalid
  | At t =>
      timeClip (makeDay y (getMonth tz t) (getDate tz t) * msPerDay
                + timeWithinDay tz t - tz)
  end.

(** [d.setHours(0, 0, 0, 0)] *)
Definition setHoursZero (tz : Z) (d : Date) : Date :=
  match d with
  | Invalid => Invalid
  | At t => timeClip (localDay tz t * msPerDay - tz)
  end.

(** The same on a time value whose local midnight is in range. *)
Definition startOfDay (tz t : Z) : Z := localDay tz t * msPerDay - tz.

(** [a < b], [a >= b] on Date objects: comparisons of the time values,
    false when one of them is NaN. *)
Definition dateLt (a b : Date) : bool :=
  match a, b with
  | At x, At y => x <? y
  | _, _ => false
  end.

Definition dateGe (a b : Date) : bool :=
  match a, b with
  | At x, At y => y <=? x
  | _, _ => false
  end.

Definition isValid (d : Date) : bool :=
  match d with
  | At _ => true
  | Invalid => false
  end.

Definition shortMonths : list string :=
  ["Jan"; "Feb"; "Mar"; "Apr"; "May"; "Jun"; "Jul"; "Aug"; "Sep"; "Oct"; "Nov"; "Dec"].
Definition shortDays : list string :=
  ["Sun"; "Mon"; "Tue"; "Wed"; "Thu"; "Fri"; "Sat"].
Definition longDays : list string :=
  ["Sunday"; "Monday"; "Tuesday"; "Wednesday"; "Thursday"; "Friday"; "Saturday"].

Definition nameAt (names : list string) (i : Z) : string :=
  nth (Z.to_nat i) names "".

(** The year of an ISO 8601 text: four digits, or a sign and six digits
    outside 0..9999. *)
Definition isoYear (y : Z) : string :=
  if (0 <=? y) && (y <=? 9999) then pad 4 y
  else (if y <? 0 then "-" else "+") +:+ pad 6 y.

(** [d.toISOString()] for a valid time value: the UTC fields. *)
Definition toISOString (t : Z) : string :=
  let '(y, m, d) := civilFromDays (t / msPerDay) in
  let ms := t mod msPerDay in
  isoYear y +:+ "-" +:+ pad 2 m +:+ "-" +:+ pad 2 d +:+ "T"
  +:+ pad 2 (ms / 3600000) +:+ ":" +:+ pad 2 (ms / 60000 mod 60) +:+ ":"
  +:+ pad 2 (ms / 1000 mod 60) +:+ "." +:+ pad 3 (ms mod 1000) +:+ "Z".

(** [d.toISOString().split('T')[0]] *)
Definition isoDateKey (t : Z) : string := splitHead "T" (toISOString t).

(** [d.toISOString().slice(0, 10)] *)
Definition isoSlice10 (t : Z) : string := slice0 10 (toISOString t).

(** [d.toDateString()]: the local date, as in "Fri Feb 13 2026". *)
Definition toDateString (tz : Z) (d : Date) : string :=
  match d with
  | Invalid => "Invalid Date"
  | At t =>
      let y := getFullYear tz t in
      nameAt shortDays (getDay tz t) +:+ " " +:+ nameAt shortMonths (getMonth tz t)
      +:+ " " +:+ pad 2 (getDate tz t) +:+ " "
      +:+ (if y <? 0 then "-" else "") +:+ pad 4 y
  end.

(** [d.toLocaleDateString('en-US', { weekday: 'long' })] *)
Definition weekdayLong (tz t : Z) : string := nameAt longDays (getDay tz t).

(** [d.toLocaleDateString('en-US', { weekday: 'long', month: 'short',
    day: 'numeric' })], as in "Friday, Feb 13". *)
Definition weekdayMonthDay (tz t : Z) : string :=
  weekdayLong tz t +:+ ", " +:+ nameAt shortMonths (getMonth tz t)
  +:+ " " +:+ pretty (getDate tz t).

(** Leap years and the lengths of the months ([m] in 1..12) of the
    proleptic Gregorian calendar. *)
Definition isLeap (y : Z) : bool :=
  (y mod 4 =? 0) && (negb (y mod 100 =? 0) || (y mod 400 =? 0)).

Definition daysInMonth (y m : Z) : Z :=
  if m =? 2 then (if isLeap y then 29 else 28)
  else if (m =? 4) || (m =? 6) || (m =? 9) || (m =? 11) then 30 else 31.

(** The decimal digit [n] as a character, and a date as the number
    yyyymmdd. *)
Definition digitChar (n : Z) : ascii := ascii_of_N (Z.to_N (48 + n)).

Definition dateNumber (c : Z * Z * Z) : Z :=
  fst (fst c) * 10000 + snd (fst c) * 100 + snd c.

(** The date text of an ISO text, for a year in 0..9999: "YYYY-MM-DD". *)
Definition dateText (c : Z * Z * Z) : string :=
  pad 4 (fst (fst c)) +:+ "-" +:+ pad 2 (snd (fst c)) +:+ "-" +:+ pad 2 (snd c).

End JsDate.

(** ** src/utils/dateExtractor.js: the five-layer date extraction engine *)

Module DateExtractor.

Import JsString Regex JsDate.

Definition MONTHS : list (string * Z) :=
  [("jan", 0); ("january", 0);
   ("feb", 1); ("february", 1);
   ("mar", 2); ("march", 2);
   ("apr", 3); ("april", 3);
   ("may", 4);
   ("jun", 5); ("june", 5);
   ("jul", 6); ("july", 6);
   ("aug", 7); ("august", 7);
   ("sep", 8); ("september", 8);
   ("oct", 9); ("october", 9);
   ("nov", 10); ("november", 10);
   ("dec", 11); ("december", 11)].

Definition DAYS : list string :=
  ["sunday"; "monday"; "tuesday"; "wednesday"; "thursday"; "friday"; "saturday"].

(** [MONTHS[key]] *)
Fixpoint lookupMonth (table : list (string * Z)) (key : string) : option Z :=
  match table with
  | [] => None
  | (k, v) :: table' => if String.eqb k key then Some v else lookupMonth table' key
  end.

Definition monthNum (str : string) : option Z :=
  lookupMonth MONTHS (slice0 3 (toLowerCase str)).

(** A [null] month in an argument position of [new Date] counts as 0. *)
Definition monthArg (mo : option Z) : Z :=
  match mo with
  | Some m => m
  | None => 0
  end.

Definition inferYear (tz : Z) (month : option Z) (day : Z) (ref : Z) : Date :=
  let d := newDate tz (getFullYear tz ref) (monthArg month) day in
  match d with
  | At td =>
      (* more than 30 days in the past: push to next year *)
      if (td <? ref) && (30 * 86400000 <? ref - td)
      then setFullYear tz d (getFullYear tz td + 1)
      else d
  | Invalid => d
  end.

Inductive Kind : Type := iso | numeric | named | range | relative | deadline.

(** [{ start, end, type }] *)
Record DateResult : Type := mkResult {
  start : Date;
  end_ : option Date;
  type : Kind
}.

(** [+m[n]] *)
Definition num (c : captures) (n : nat) : Z := parseDigits (group c n).

(** [m[n] ? +m[n] : null] *)
Definition optNum (c : captures) (n : nat) : option Z :=
  match capture c n with
  | Some "" => None
  | Some s => Some (parseDigits s)
  | None => None
  end.

(** [yr ? new Date(yr, mo, day) : inferYear(mo, day, ref)]: a year 0 is
    falsy. *)
Definition dateWithYear (tz : Z) (yr : option Z) (mo : option Z) (day ref : Z) : Date :=
  match yr with
  | Some y => if y =? 0 then inferYear tz mo day ref else newDate tz y (monthArg mo) day
  | None => inferYear tz mo day ref
  end.

(** [Object.keys(MONTHS).filter(m => m.length > 2).join('|')] *)
Definition monthNames : regex :=
  Alts (map Lit (filter (fun m => (2 <? String.length m)%nat) (map fst MONTHS))).

(** [(?:st|nd|rd|th)?] *)
Definition ordinal : regex := Opt (Alts [Lit "st"; Lit "nd"; Lit "rd"; Lit "th"]).

(** [(?:to|–|-|through)] and [(?:to|–|-)] *)
Definition toThrough : regex := Alts [Lit "to"; Lit "–"; Lit "-"; Lit "through"].
Definition toDash : regex := Alts [Lit "to"; Lit "–"; Lit "-"].

(** Layer 1: ISO and numeric dates *)
Definition isoRe : regex :=
  Seqs [WordBoundary; Group 1 Digit4; Chr "-"; Group 2 Digit12; Chr "-";
        Group 3 Digit12; WordBoundary].

Definition slashOrDash (c : ascii) : bool := Ascii.eqb c "/" || Ascii.eqb c "-".

Definition dmyRe : regex :=
  Seqs [WordBoundary; Group 1 Digit12; Class slashOrDash; Group 2 Digit12;
        Class slashOrDash; Group 3 Digit4; WordBoundary].

Definition extractISO (tz : Z) (text : string) (ref : Z) : option DateResult :=
  match exec false isoRe text with
  | Some m => Some (mkResult (newDate tz (num m 1) (num m 2 - 1) (num m 3)) None iso)
  | None =>
      match exec false dmyRe text with
      | Some m => Some (mkResult (newDate tz (num m 3) (num m 2 - 1) (num m 1)) None numeric)
      | None => None
      end
  end.

(** Layer 2: named dates *)
Definition commaOrSpace (c : ascii) : bool := Ascii.eqb c "," || isSpace c.

(** [\b(months)\s+(\d{1,2})(?:st|nd|rd|th)?(?:[,\s]+(\d{4}))?\b] *)
Definition monthDayRe : regex :=
  Seqs [WordBoundary; Group 1 monthNames; Plus Space; Group 2 Digit12; ordinal;
        Opt (Seq (Plus (Class commaOrSpace)) (Group 3 Digit4)); WordBoundary].

(** [\b(\d{1,2})(?:st|nd|rd|th)?\s+(months)(?:\s+(\d{4}))?\b] *)
Definition dayMonthRe : regex :=
  Seqs [WordBoundary; Group 1 Digit12; ordinal; Plus Space; Group 2 monthNames;
        Opt (Seq (Plus Space) (Group 3 Digit4)); WordBoundary].

Definition extractNamed (tz : Z) (text : string) (ref : Z) : option DateResult :=
  match exec true monthDayRe text with
  | Some m1 =>
      let mo := monthNum (group m1 1) in
      let day := num m1 2 in
      let yr := optNum m1 3 in
      Some (mkResult (dateWithYear tz yr mo day ref) None named)
  | None =>
      match exec true dayMonthRe text with
      | Some m2 =>
          let mo := monthNum (group m2 2) in
          let day := num m2 1 in
          let yr := optNum m2 3 in
          Some (mkResult (dateWithYear tz yr mo day ref) None named)
      | None => None
      end
  end.

(** Layer 3: date ranges *)
Definition rangeRe1 : regex :=
  Seqs [WordBoundary; Group 1 monthNames; Plus Space; Group 2 Digit12; Star Space;
        toThrough; Star Space; Group 3 monthNames; Plus Space; Group 4 Digit12;
        WordBoundary].

Definition rangeRe2 : regex :=
  Seqs [WordBoundary; Group 1 monthNames; Plus Space; Group 2 Digit12; Star Space;
        toThrough; Star Space; Group 3 Digit12; WordBoundary].

Definition rangeRe3 : regex :=
  Seqs [WordBoundary; Group 1 Digit12; Star Space; toDash; Star Space;
        Group 2 Digit12; Plus Space; Group 3 monthNames; WordBoundary].

Definition extractRange (tz : Z) (text : string) (ref : Z) : option DateResult :=
  match exec true rangeRe1 text with
  | Some m1 =>
      Some (mkResult (inferYear tz (monthNum (group m1 1)) (num m1 2) ref)
              (Some (inferYear tz (monthNum (group m1 3)) (num m1 4) ref)) range)
  | None =>
      match exec true rangeRe2 text with
      | Some m2 =>
          let mo := monthNum (group m2 1) in
          Some (mkResult (inferYear tz mo (num m2 2) ref)
                  (Some (inferYear tz mo (num m2 3) ref)) range)
      | None =>
          match exec true rangeRe3 text with
          | Some m3 =>
              let mo := monthNum (group m3 3) in
              Some (mkResult (inferYear tz mo (num m3 1) ref)
                      (Some (inferYear tz mo (num m3 2) ref)) range)
          | None => None
          end
      end
  end.

(** Layer 4: relative dates *)
Definition tomorrowRe : regex := Seqs [WordBoundary; Lit "tomorrow"; WordBoundary].
Definition todayRe : regex := Seqs [WordBoundary; Lit "today"; WordBoundary].

(** [\bnext\s+(\d+)\s+(day|week)s?\b] *)
Definition nextNRe : regex :=
  Seqs [WordBoundary; Lit "next"; Plus Space; Group 1 (Plus Digit); Plus Space;
        Group 2 (Alts [Lit "day"; Lit "week"]); Opt (Chr "s"); WordBoundary].

Definition nextWeekRe : regex := Seqs [WordBoundary; Lit "next week"; WordBoundary].

(** [\b(?:this|next|coming)\s+<day>\b] *)
Definition dayRe (dayName : string) : regex :=
  Seqs [WordBoundary; Alts [Lit "this"; Lit "next"; Lit "coming"]; Plus Space;
        Lit dayName; WordBoundary].

Definition thisWeekendRe : regex := Seqs [WordBoundary; Lit "this weekend"; WordBoundary].

(** The loop [for (let i = 0; i < DAYS.length; i++)]: the first day name,
    from index [i] on, whose pattern matches. *)
Fixpoint firstDay (text : string) (i : Z) (days : list string) : option Z :=
  match days with
  | [] => None
  | dayName :: days' =>
      if test true (dayRe dayName) text then Some i else firstDay text (i + 1) days'
  end.

Definition extractRelative (tz : Z) (text : string) (ref : Z) : option DateResult :=
  let lower := toLowerCase text in
  if test false tomorrowRe lower then
    Some (mkResult (addDays tz (At ref) 1) None relative)
  else if test false todayRe lower then
    Some (mkResult (At ref) None relative)
  else
    match exec false nextNRe lower with
    | Some nextN =>
        let n := num nextN 1 in
        let unit := if String.eqb (group nextN 2) "week" then 7 else 1 in
        Some (mkResult (At ref) (Some (addDays tz (At ref) (n * unit))) relative)
    | None =>
        if test false nextWeekRe lower then
          (* next Monday *)
          let start := addDays tz (At ref) (7 - getDay tz ref + 1) in
          Some (mkResult start (Some (addDays tz start 6)) relative)
        else
          match firstDay text 0 DAYS with
          | Some i =>
              let diff := (i - getDay tz ref + 7) mod 7 in
              (* if today is that day, assume next occurrence *)
              let diff := if diff =? 0 then 7 else diff in
              Some (mkResult (addDays tz (At ref) diff) None relative)
          | None =>
              if test false thisWeekendRe lower then
                let sat := addDays tz (At ref) ((6 - getDay tz ref + 7) mod 7) in
                Some (mkResult sat (Some (addDays tz sat 1)) relative)
              else None
          end
    end.

(** Layer 5: deadline detection *)
Definition deadlineRe : regex :=
  Seqs [WordBoundary;
        Alts [Seq (Lit "end") (Opt (Chr "s")); Lit "last date"; Lit "deadline";
              Seq (Lit "valid ") (Alts [Lit "till"; Lit "until"]);
              Seq (Lit "expire") (Opt (Chr "s")); Lit "before"];
        Plus Space; Opt (Seq (Lit "on") (Plus Space));
        Group 1 monthNames; Plus Space; Group 2 Digit12; ordinal;
        Opt (Seq (Plus (Class commaOrSpace)) (Group 3 Digit4)); WordBoundary].

Definition extractDeadline (tz : Z) (text : string) (ref : Z) : option DateResult :=
  match exec true deadlineRe text with
  | Some m =>
      let mo := monthNum (group m 1) in
      let day := num m 2 in
      let yr := optNum m 3 in
      Some (mkResult (At ref) (Some (dateWithYear tz yr mo day ref)) deadline)
  | None => None
  end.

(** [a || b] on results *)
Definition orElse {A : Type} (a : option A) (b : option A) : option A :=
  match a with
  | Some x => Some x
  | None => b
  end.

(** Main entry point.  [pubDate] is the optional publication date; without
    one the reference date is the current time. *)
Definition extractDate (tz now : Z) (text : string) (pubDate : option Date)
  : option DateResult :=
  if String.eqb text "" then None
  else
    let ref := match pubDate with
               | Some d => d
               | None => At now
               end in
    match ref with
    | Invalid => None
    | At ref =>
        orElse (extractISO tz text ref)
          (orElse (extractNamed tz text ref)
             (orElse (extractRange tz text ref)
                (orElse (extractRelative tz text ref)
                   (extractDeadline tz text ref))))
    end.

(** The loop of [expandDateKeys]; it runs at most [maxDays] times. *)
Fixpoint expandLoop (tz : Z) (maxDays : nat) (d stop : Date) : list string :=
  match maxDays with
  | O => []
  | S maxDays' =>
      match d, stop with
      | At td, At ts =>
          if td <=? ts
          then isoSlice10 td :: expandLoop tz maxDays' (addDays tz d 1) stop
          else []
      | _, _ => []
      end
  end.

(** [expandDateKeys(dateResult, maxDays = 14)]; with an invalid start or
    end the loop condition [d <= end] is false and there are no keys. *)
Definition expandDateKeys (tz : Z) (dateResult : option DateResult) (maxDays : nat)
  : list string :=
  match dateResult with
  | None => []
  | Some r =>
      let start := setHoursZero tz (start r) in
      let stop := match end_ r with
                  | Some e => setHoursZero tz e
                  | None => setHoursZero tz start
                  end in
      expandLoop tz maxDays start stop
  end.

(** The named date that ends the deadline pattern: the pattern of the
    named layer without its leading word boundary. *)
Definition namedTail : regex :=
  Seqs [Group 1 monthNames; Plus Space; Group 2 Digit12; ordinal;
        Opt (Seq (Plus (Class commaOrSpace)) (Group 3 Digit4)); WordBoundary].

(** The year of the start of a result. *)
Definition startYear (tz : Z) (r : option DateResult) : option Z :=
  match r with
  | Some (mkResult (At t) _ _) => Some (getFullYear tz t)
  | _ => None
  end.

End DateExtractor.

(** ** src/utils/plannerStorage.js: the day-keyed planner store

    The [localStorage] entry is modelled by its parsed content; an absent
    or unparsable entry reads as the empty object.  [writable] tells
    whether [setItem] succeeds (a full storage makes it throw, which
    [save] swallows). *)

Module PlannerStorage.

Import JsString JsDate.

Record PlannerItem : Type := mkPlannerItem {
  id : string;
  title : string;
  category : string;
  link : string;
  addedAt : option Z
}.

Record LocalStorage : Type := mkStorage {
  entry : option (gmap string (list PlannerItem));
  writable : bool
}.

Definition PRUNE_DAYS_PAST : Z := 7.

Definition load (ls : LocalStorage) : gmap string (list PlannerItem) :=
  match entry ls with
  | Some data => data
  | None => ∅
  end.

Definition save (data : gmap string (list PlannerItem)) (ls : LocalStorage)
  : LocalStorage :=
  if writable ls then mkStorage (Some data) true else ls.

(** [cutoff.toISOString().slice(0, 10)] after
    [cutoff.setDate(cutoff.getDate() - PRUNE_DAYS_PAST)]; [toISOString]
    throws when the date left the range of time values. *)
Definition cutoffKey (tz now : Z) : option string :=
  match addDays tz (At now) (- PRUNE_DAYS_PAST) with
  | At t => Some (isoSlice10 t)
  | Invalid => None
  end.

(** Remove entries older than [PRUNE_DAYS_PAST]. *)
Definition prune (tz now : Z) (data : gmap string (list PlannerItem))
  : option (gmap string (list PlannerItem)) :=
  match cutoffKey tz now with
  | Some cutoff => Some (filter (fun kv => lt (fst kv) cutoff = false) data)
  | None => None
  end.

(** The set of words of a title. *)
Definition wordSet (a : string) : gset string :=
  list_to_set (splitSpaces (toLowerCase a)).

(** Simple title similarity (Jaccard on word sets), as the exact quotient;
    a word set is never empty. *)
Definition similarity (a b : string) : Q :=
  let wa := wordSet a in
  let wb := wordSet b in
  let intersection := size (wa ∩ wb) in
  Qmake (Z.of_nat intersection) (Pos.of_nat (size wa + size wb - intersection)).

(** [similarity(a, b) > 0.7] *)
Definition similar (a b : string) : bool :=
  negb (Qle_bool (similarity a b) (7 # 10)).

Definition nonEmpty (s : string) : bool := negb (String.eqb s "").

Definition duplicates (item newItem : PlannerItem) : bool :=
  String.eqb (id item) (id newItem) ||
  (nonEmpty (title item) && nonEmpty (title newItem)
   && similar (title item) (title newItem)).

(** Check if an item is a duplicate of any existing item on that day. *)
Definition isDuplicate (existing : list PlannerItem) (newItem : PlannerItem) : bool :=
  existsb (fun item => duplicates item newItem) existing.

(** [data[key] || []] *)
Definition dayItems (data : gmap string (list PlannerItem)) (key : string)
  : list PlannerItem :=
  match data !! key with
  | Some l => l
  | None => []
  end.

(** Get items for a specific date key. *)
Definition getDay (ls : LocalStorage) (dateKey : string) : list PlannerItem :=
  dayItems (load ls) dateKey.

(** Get all stored data (pruned); [None] when [prune] throws. *)
Definition getAll (tz now : Z) (ls : LocalStorage)
  : option (gmap string (list PlannerItem) * LocalStorage) :=
  match prune tz now (load ls) with
  | Some data => Some (data, save data ls)
  | None => None
  end.

(** The inner loop of [merge]: push every item that has no duplicate among
    the items of the day, those pushed before it included. *)
Fixpoint mergeItems (now : Z) (day : list PlannerItem) (items : list PlannerItem)
  : list PlannerItem :=
  match items with
  | [] => day
  | item :: items' =>
      if isDuplicate day item then mergeItems now day items'
      else mergeItems now
             (day ++ [mkPlannerItem (id item) (title item) (category item)
                        (link item) (Some now)]) items'
  end.

(** The outer loop of [merge]. *)
Fixpoint mergeKeys (now : Z) (data : gmap string (list PlannerItem))
    (dateKeys : list string) (items : list PlannerItem)
  : gmap string (list PlannerItem) :=
  match dateKeys with
  | [] => data
  | key :: dateKeys' =>
      mergeKeys now (<[key := mergeItems now (dayItems data key) items]> data)
        dateKeys' items
  end.

(** Merge items into one or more date keys. *)
Definition merge (tz now : Z) (dateKeys : list string) (items : list PlannerItem)
    (ls : LocalStorage) : option LocalStorage :=
  match prune tz now (load ls) with
  | Some data => Some (save (mergeKeys now data dateKeys items) ls)
  | None => None
  end.

(** Add a single item to a date key. *)
Definition addItem (tz now : Z) (dateKey : string) (item : PlannerItem)
    (ls : LocalStorage) : option LocalStorage :=
  merge tz now [dateKey] [item] ls.

(** Remove an item by ID from a date key. *)
Definition removeItem (dateKey itemId : string) (ls : LocalStorage) : LocalStorage :=
  let data := load ls in
  match data !! dateKey with
  | None => ls
  | Some l =>
      let l' := filter (fun i => id i ≠ itemId) l in
      save (match l' with
            | [] => delete dateKey data
            | _ => <[dateKey := l']> data
            end) ls
  end.

(** Clear all planner data. *)
Definition clear (ls : LocalStorage) : LocalStorage :=
  mkStorage None (writable ls).

(** No item of the list is a duplicate of an item before it. *)
Definition distinctDay (day : list PlannerItem) : Prop :=
  ForallOrdPairs (fun x y => duplicates x y = false) day.

(** The record that [merge] pushes for an item. *)
Definition stamped (now : Z) (item : PlannerItem) : PlannerItem :=
  mkPlannerItem (id item) (title item) (category item) (link item) (Some now).

(** The loop of [getUpcomingDays], [k] rounds from index [i] on;
    [toISOString] throws on a date that left the range of time values. *)
Fixpoint upcomingLoop (tz : Z) (data : gmap string (list PlannerItem)) (today : Date)
    (i : Z) (k : nat) (result : list (string * list PlannerItem))
  : option (list (string * list PlannerItem)) :=
  match k with
  | O => Some result
  | S k' =>
      match addDays tz today i with
      | Invalid => None
      | At d =>
          let key := isoSlice10 d in
          upcomingLoop tz data today (i + 1) k'
            (match data !! key with
             | Some (x :: l) => (result ++ [(key, x :: l)])%list
             | _ => result
             end)
      end
  end.

(** Get upcoming N days (from today) that have items. *)
Definition getUpcomingDays (tz now : Z) (n : nat) (ls : LocalStorage)
  : option (list (string * list PlannerItem) * LocalStorage) :=
  match getAll tz now ls with
  | Some (data, ls') =>
      match upcomingLoop tz data (setHoursZero tz (At now)) 0 n [] with
      | Some result => Some (result, ls')
      | None => None
      end
  | None => None
  end.

End PlannerStorage.

(** ** src/services/upAheadService.js: keyword filters and aggregation *)

Module UpAheadService.

Import JsString Regex JsDate.

Inductive Category : Type :=
| movies | events | festivals | alerts | sports | shopping | civic
| weather_alerts | general.

Definition categoryName (c : Category) : string :=
  match c with
  | movies => "movies"
  | events => "events"
  | festivals => "festivals"
  | alerts => "alerts"
  | sports => "sports"
  | shopping => "shopping"
  | civic => "civic"
  | weather_alerts => "weather_alerts"
  | general => "general"
  end.

(** [{ title, date, originalText, platform }] *)
Record SubItem : Type := mkSubItem {
  subTitle : string;
  subDate : option Date;
  originalText : string;
  platform : string
}.

(** An Up Ahead item, as [normalizeUpAheadItem] builds it; [_forwardScore]
    is the property that [processUpAheadData] attaches. *)
Record Item : Type := mkItem {
  id : string;
  title : string;
  link : string;
  description : string;
  pubDate : option Date;
  extractedDate : option Date;
  category : Category;
  rawSource : string;
  isRoundup : bool;
  subItems : list SubItem;
  _forwardScore : option Z
}.

(** The mutable state a run can touch: the item objects, by reference, and
    the module-level cache of compiled word patterns. *)
Record World : Type := mkWorld {
  heap : gmap nat Item;
  _wbCache : gmap string regex
}.

(** Computations over the world that may throw. *)
Definition M (A : Type) : Type := World -> option (A * World).

Definition ret {A : Type} (x : A) : M A := fun w => Some (x, w).

Definition bind {A B : Type} (m : M A) (f : A -> M B) : M B := fun w =>
  match m w with
  | Some (x, w') => f x w'
  | None => None
  end.

Notation "x <- m ;; k" := (bind m (fun x => k))
  (at level 100, m at next level, right associativity).

Definition throw {A : Type} : M A := fun _ => None.

(** Reading a property of the object behind a reference; a reference to
    nothing stands for an array element that is no object, on which a
    property access throws. *)
Definition deref (l : nat) : M Item := fun w =>
  match heap w !! l with
  | Some it => Some (it, w)
  | None => None
  end.

(** [item._forwardScore = v] *)
Definition setForwardScore (l : nat) (v : Z) : M unit := fun w =>
  match heap w !! l with
  | Some it =>
      Some (tt, mkWorld (<[l := mkItem (id it) (title it) (link it) (description it)
                                  (pubDate it) (extractedDate it) (category it)
                                  (rawSource it) (isRoundup it) (subItems it)
                                  (Some v)]> (heap w))
                        (_wbCache w))
  | None => None
  end.

Definition cacheGet (word : string) : M (option regex) := fun w =>
  Some (_wbCache w !! word, w).

Definition cacheSet (word : string) (re : regex) : M unit := fun w =>
  Some (tt, mkWorld (heap w) (<[word := re]> (_wbCache w))).

(** [new RegExp(`\\b${escaped}\\b`, 'i')]: the escaping turns every
    character of the word into a literal. *)
Definition wordPattern (word : string) : regex :=
  Seqs [WordBoundary; Lit word; WordBoundary].

(** Word-boundary matching to prevent substring collisions. *)
Definition matchesWord (text word : string) : M bool :=
  cached <- cacheGet word ;;
  match cached with
  | Some re => ret (test true re text)
  | None =>
      let re := wordPattern word in
      _ <- cacheSet word re ;;
      ret (test true re text)
  end.

(** For multi-word phrases, use [includes]; for single words, use
    [matchesWord]. *)
Definition matchesKeyword (text keyword : string) : M bool :=
  if includes keyword " " then ret (includes text keyword)
  else matchesWord text keyword.

(** [list.some(f)] for a callback with effects: it stops at the first
    element on which the callback holds. *)
Fixpoint someM {A : Type} (f : A -> M bool) (l : list A) : M bool :=
  match l with
  | [] => ret false
  | x :: l' =>
      b <- f x ;;
      if b then ret true else someM f l'
  end.

(** The same tests read without the cache. *)
Definition matchesWordPure (text word : string) : bool :=
  test true (wordPattern word) text.

Definition matchesKeywordPure (text keyword : string) : bool :=
  if includes keyword " " then includes text keyword
  else matchesWordPure text keyword.

(** Layer 1: global negative keywords, group by group. *)
Definition NEGATIVE_KEYWORDS : list (string * list string) :=
  [("commentary",
      ["review"; "reviewed"; "reviews"; "opinion"; "editorial"; "column";
     "op-ed"; "analysis"; "deep dive"; "explainer"; "explained"; "interview";
     "memoir"; "podcast"; "recap"; "retrospective"; "lookback"; "throwback"]);
   ("gossip",
      ["gossip"; "rumour"; "rumor"; "spotted"; "dating"; "divorce";
     "controversy"; "trolled"; "slammed"; "reacts"; "reaction"; "claps back";
     "feud"; "leaked"; "wardrobe malfunction"; "breakup"]);
   ("crime",
      ["arrested"; "murder"; "stabbed"; "robbery"; "scam"; "fraud"; "accused";
     "chargesheet"; "sentenced"; "bail"; "fir filed"; "kidnap"; "suicide";
     "death toll"; "fatal"]);
   ("finance_noise",
      ["quarterly results"; "earnings call"; "dividend"; "stock split";
     "ipo allotment"; "listing gains"; "shareholding pattern";
     "promoter stake"; "mutual fund nav"; "portfolio rebalancing"]);
   ("political_noise",
      ["alleges"; "slams"; "hits out"; "war of words"; "defamation";
     "no confidence"; "horse trading"; "exit poll"; "poll prediction";
     "meme"]);
   ("past_tense",
      ["was held"; "concluded"; "wrapped up"; "came to an end";
     "successfully completed"; "inaugurated by"; "flagged off"; "took place";
     "was celebrated"]);
   ("obituary",
      ["passes away"; "passed away"; "demise"; "rip"; "condolences";
     "last rites"; "funeral"; "pays tribute"; "mourns"; "obituary"]);
   ("listicle",
      ["top 10"; "top 5"; "best of"; "worst of"; "reasons why"; "things you";
     "ranked"; "all you need to know"; "everything we know"]);
   ("collection_reports",
      ["box office collection"; "day 1 collection"; "total collection";
     "worldwide gross"; "opening weekend"; "first week collection";
     "crosses crore"; "nett collection"]);
   ("clickbait",
      ["shocking"; "you won't believe"; "jaw dropping"; "gone viral";
     "breaks the internet"; "exclusive"])].

Definition FORWARD_LOOKING_SIGNALS : list string :=
  ["upcoming"; "scheduled"; "starting"; "launches"; "opens"; "begins";
   "commences"; "from today"; "this weekend"; "next week"; "releasing";
   "premieres"; "debuts"; "kicks off"; "set to"; "slated for"; "expected on";
   "effective from"; "valid till"; "last date"; "deadline";
   "registrations open"; "bookings open"; "doors open"; "book now";
   "tickets available"; "grab your"; "register"; "rsvp"; "sign up"; "enroll";
   "apply before"; "limited seats"; "early bird"; "pre-order";
   "advance booking"; "buy tickets"; "entry free"; "venue"; "stadium";
   "auditorium"; "convention centre"; "exhibition hall"; "multiplex";
   "arena"; "grounds"; "schedule"; "timetable"; "lineup"; "itinerary";
   "match day"; "race day"; "show timings"; "showtimes"; "time slot";
   "batch"].

Definition positive_movies : list string :=
  ["release date"; "releasing"; "in theatres"; "in theaters"; "first day";
   "advance booking"; "fdfs"; "premiere"; "preview"; "sneak peek";
   "special screening"; "ott release"; "streaming from"; "now streaming";
   "available on"; "direct to ott"; "digital premiere"; "tickets";
   "showtimes"; "book now"; "bookmyshow"; "ticketnew"; "paytm movies";
   "trailer launch"; "teaser release"; "motion poster"].

Definition positive_events : list string :=
  ["concert"; "live music"; "standup"; "comedy show"; "theatre"; "theater";
   "drama"; "stage play"; "dance recital"; "sabha"; "kutcheri"; "kutchery";
   "exhibition"; "expo"; "book fair"; "trade fair"; "flea market";
   "art gallery"; "trade show"; "workshop"; "masterclass"; "bootcamp";
   "seminar"; "webinar"; "hackathon"; "meetup"; "food festival"; "pop-up";
   "tasting"; "brunch"; "food walk"; "heritage walk"; "night market";
   "entry fee"; "passes available"; "gate open"; "limited slots";
   "registration"].

Definition positive_sports : list string :=
  [" vs "; " v/s "; "match"; "fixture"; "squad announced"; "playing xi";
   "toss"; "innings"; "schedule"; "points table"; "qualifier"; "semi final";
   "final"; "playoffs"; "stadium"; "live on"; "broadcast"; "streaming";
   "start time"; "kick off"; "first ball"].

Definition positive_festivals : list string :=
  ["holiday"; "bank holiday"; "gazetted"; "declared holiday";
   "government holiday"; "pongal"; "diwali"; "deepavali"; "navratri";
   "dussehra"; "eid"; "ramadan"; "christmas"; "onam"; "vishu"; "ugadi";
   "holi"; "ganesh"; "jayanti"; "puja"; "pooja"; "thai pusam"; "observed on";
   "falls on"; "celebrated on"; "auspicious"; "muhurtham"; "tithi"].

Definition positive_shopping : list string :=
  ["sale"; "mega sale"; "flash sale"; "clearance"; "end of season";
   "flat discount"; "upto off"; "cashback"; "coupon"; "promo code";
   "shopping festival"; "exhibition sale"; "trade fair"; "grand opening";
   "limited period"; "ends today"; "last day"; "offer valid";
   "while stocks last"; "hurry"].

Definition positive_alerts : list string :=
  ["power cut"; "power shutdown"; "load shedding"; "tangedco"; "tneb";
   "scheduled maintenance"; "water cut"; "water supply"; "disruption";
   "traffic advisory"; "road closure"; "diversion"; "metro shutdown";
   "bus route change"; "train cancelled"; "flight delayed";
   "boil water advisory"; "mosquito fogging"; "tree trimming";
   "construction zone"].

Definition positive_weather_alerts : list string :=
  ["warning"; "alert"; "advisory"; "watch"; "red alert"; "orange alert";
   "yellow alert"; "heavy rain"; "very heavy rain"; "cyclone";
   "thunderstorm"; "heat wave"; "cold wave"; "fog"; "flooding"; "high tide";
   "storm surge"; "imd"; "met department"; "weather bulletin"].

Definition positive_civic : list string :=
  ["vip movement"; "vip visit"; "road block"; "security arrangement";
   "route change"; "bandh"; "hartal"; "strike"; "protest march";
   "rasta roko"; "rail roko"; "corporation notice"; "tender";
   "public hearing"; "ward meeting"; "grievance day"].

(** Flatten for fast lookup. *)
Definition ALL_NEGATIVE_KEYWORDS : list string :=
  concat (map snd NEGATIVE_KEYWORDS).

(** [CATEGORY_POSITIVE_KEYWORDS[cat] || []] *)
Definition CATEGORY_POSITIVE_KEYWORDS (cat : Category) : list string :=
  match cat with
  | movies => positive_movies
  | events => positive_events
  | sports => positive_sports
  | festivals => positive_festivals
  | shopping => positive_shopping
  | alerts => positive_alerts
  | weather_alerts => positive_weather_alerts
  | civic => positive_civic
  | general => []
  end.

(** User settings.  An absent keyword list reads as the empty list. *)
Record Keywords : Type := mkKeywords {
  negative : list string;
  positive : Category -> list string
}.

Record UpAheadSettings : Type := mkUpAhead {
  keywords : option Keywords;
  locations : option (list string)
}.

Record Settings : Type := mkSettings {
  hideOlderThanHours : option Z;
  upAhead : option UpAheadSettings
}.

(** The simplified record of a section list. *)
Record DisplayItem : Type := mkDisplayItem {
  d_title : string;
  d_link : string;
  releaseDate : option string;
  d_date : option string;
  text : string;
  severity : string;
  language : string;
  d_isRoundup : bool;
  subItemsCount : Z
}.

Record TimelineItem : Type := mkTimelineItem {
  t_id : string;
  t_type : string;
  t_title : string;
  subtitle : string;
  t_description : string;
  tags : list string;
  t_link : string;
  t_isRoundup : bool;
  t_subItems : list SubItem;
  t_forwardScore : option Z
}.

Record TimelineDay : Type := mkTimelineDay {
  date : string;
  dayLabel : string;
  items : list TimelineItem
}.

(** The [sections] object: one list per category key. *)
Record Sections : Type := mkSections {
  s_movies : list DisplayItem;
  s_festivals : list DisplayItem;
  s_alerts : list DisplayItem;
  s_events : list DisplayItem;
  s_sports : list DisplayItem;
  s_shopping : list DisplayItem;
  s_civic : list DisplayItem;
  s_weather_alerts : list DisplayItem
}.

Definition emptySections : Sections := mkSections [] [] [] [] [] [] [] [].

(** [sections[cat]]; there is no list for [general]. *)
Definition section (s : Sections) (cat : Category) : option (list DisplayItem) :=
  match cat with
  | movies => Some (s_movies s)
  | festivals => Some (s_festivals s)
  | alerts => Some (s_alerts s)
  | events => Some (s_events s)
  | sports => Some (s_sports s)
  | shopping => Some (s_shopping s)
  | civic => Some (s_civic s)
  | weather_alerts => Some (s_weather_alerts s)
  | general => None
  end.

(** [sections[cat] = f(sections[cat])] *)
Definition updateSection (f : list DisplayItem -> list DisplayItem)
    (s : Sections) (cat : Category) : Sections :=
  match cat with
  | movies => mkSections (f (s_movies s)) (s_festivals s) (s_alerts s) (s_events s)
                (s_sports s) (s_shopping s) (s_civic s) (s_weather_alerts s)
  | festivals => mkSections (s_movies s) (f (s_festivals s)) (s_alerts s) (s_events s)
                (s_sports s) (s_shopping s) (s_civic s) (s_weather_alerts s)
  | alerts => mkSections (s_movies s) (s_festivals s) (f (s_alerts s)) (s_events s)
                (s_sports s) (s_shopping s) (s_civic s) (s_weather_alerts s)
  | events => mkSections (s_movies s) (s_festivals s) (s_alerts s) (f (s_events s))
                (s_sports s) (s_shopping s) (s_civic s) (s_weather_alerts s)
  | sports => mkSections (s_movies s) (s_festivals s) (s_alerts s) (s_events s)
                (f (s_sports s)) (s_shopping s) (s_civic s) (s_weather_alerts s)
  | shopping => mkSections (s_movies s) (s_festivals s) (s_alerts s) (s_events s)
                (s_sports s) (f (s_shopping s)) (s_civic s) (s_weather_alerts s)
  | civic => mkSections (s_movies s) (s_festivals s) (s_alerts s) (s_events s)
                (s_sports s) (s_shopping s) (f (s_civic s)) (s_weather_alerts s)
  | weather_alerts => mkSections (s_movies s) (s_festivals s) (s_alerts s) (s_events s)
                (s_sports s) (s_shopping s) (s_civic s) (f (s_weather_alerts s))
  | general => s
  end.

Record PlanItem : Type := mkPlanItem {
  p_title : string;
  p_type : string;
  icon : string;
  p_link : string
}.

Record Output : Type := mkOutput {
  timeline : list TimelineDay;
  sections : Sections;
  weekly_plan : list (string * list PlanItem);
  lastUpdated : string
}.

(** What the callback of [rawItems.forEach] updates: the timeline map (in
    insertion order), the section lists and the set of seen ids. *)
Record Acc : Type := mkAcc {
  timelineMap : list (string * TimelineDay);
  accSections : Sections;
  seenIds : gset string
}.

(** What [processUpAheadData] computes once, before the loop. *)
Record Ctx : Type := mkCtx {
  today : Date;
  maxAgeMs : Z;
  mergedNegatives : list string;
  mergedPositives : Category -> list string;
  userLocations : list string
}.

(** Category-specific strict freshness limits (in hours). *)
Definition CATEGORY_MAX_AGE_HOURS (cat : Category) : option Z :=
  match cat with
  | weather_alerts => Some 6
  | alerts => Some 12
  | festivals => Some 336
  | _ => None
  end.

(** The effective max age of an item: the stricter of the global setting
    and the category limit. *)
Definition effectiveMaxAgeMs (maxAgeMs : Z) (cat : Category) : Z :=
  match CATEGORY_MAX_AGE_HOURS cat with
  | Some hours => Z.min maxAgeMs (hours * 60 * 60 * 1000)
  | None => maxAgeMs
  end.

(** Strict freshness check: an item without a valid [pubDate] is dropped,
    and so is one older than its effective max age. *)
Definition isFresh (now maxAgeMs : Z) (it : Item) : bool :=
  match pubDate it with
  | None => false
  | Some Invalid => false
  | Some (At pub) =>
      let ageMs := now - pub in
      negb (effectiveMaxAgeMs maxAgeMs (category it) <? ageMs)
  end.

(** [/(?:•|-|published)\s*(\d+)\s*(mo|month|months|w|week|weeks|y|year|years)\s*(?:ago)?/i] *)
Definition staleRegex : regex :=
  Seqs [Alts [Lit "•"; Lit "-"; Lit "published"]; Star Space;
        Group 1 (Plus Digit); Star Space;
        Group 2 (Alts [Lit "mo"; Lit "month"; Lit "months"; Lit "w"; Lit "week";
                       Lit "weeks"; Lit "y"; Lit "year"; Lit "years"]);
        Star Space; Opt (Lit "ago")].

(** Freshness heuristics: stale content scraped as new. *)
Definition isStale (fullText : string) : bool :=
  match exec true staleRegex fullText with
  | Some staleMatch =>
      let qty := parseDigits (group staleMatch 1) in
      let unit := toLowerCase (group staleMatch 2) in
      startsWith unit "mo" || startsWith unit "y"
      || (startsWith unit "w" && (1 <=? qty))
  | None => false
  end.

(** [/ott|releases|week|weekend/i] and [/\d+ new/i] *)
Definition roundupWordsRe : regex :=
  Alts [Lit "ott"; Lit "releases"; Lit "week"; Lit "weekend"].
Definition countNewRe : regex := Seq (Plus Digit) (Lit " new").

(** The roundup exception of the negative filter, on the full text. *)
Definition roundupText (fullText : string) : bool :=
  test true roundupWordsRe fullText && test true countNewRe fullText.

(** The roundup flag that [normalizeUpAheadItem] stores in [isRoundup]:
    [/ott|releases|week/i.test(title) && /\d+ new/i.test(title)]. *)
Definition titleRoundupWordsRe : regex := Alts [Lit "ott"; Lit "releases"; Lit "week"].
Definition detectRoundup (title : string) : bool :=
  test true titleRoundupWordsRe title && test true countNewRe title.

(** Layer 2: forward-looking signal score. *)
Definition forwardScoreOf (fullText : string) : Z :=
  fold_left (fun score signal => if includes fullText signal then score + 1 else score)
    FORWARD_LOOKING_SIGNALS 0.

(** [['movies', 'events', 'sports', 'shopping'].includes(cat)] *)
Definition isPlannerCategory (cat : Category) : bool :=
  match cat with
  | movies | events | sports | shopping => true
  | _ => false
  end.

(** [['movies', 'festivals', 'events', 'sports', 'shopping', 'civic'].includes(cat)] *)
Definition isPlannerSection (cat : Category) : bool :=
  match cat with
  | movies | festivals | events | sports | shopping | civic => true
  | _ => false
  end.

Definition getDayLabel (tz now : Z) (d : Date) : string :=
  let today := setHoursZero tz (At now) in
  let tomorrow := addDays tz today 1 in
  match setHoursZero tz d with
  | Invalid => "Invalid Date"
  | At t =>
      if match today with At t0 => t =? t0 | Invalid => false end then "Today"
      else if match tomorrow with At t1 => t =? t1 | Invalid => false end then "Tomorrow"
      else weekdayMonthDay tz t
  end.

(** Map plural categories to the singular types expected by the UI. *)
Definition getItemType (cat : Category) : string :=
  match cat with
  | movies => "movie"
  | events => "event"
  | festivals => "festival"
  | alerts => "alert"
  | sports => "sport"
  | shopping => "shopping"
  | civic => "civic"
  | weather_alerts => "weather_alert"
  | general => "event"
  end.

Definition icons : list (string * string) :=
  [("movie", "🎬"); ("event", "🎭"); ("festival", "🎊"); ("alert", "⚠️");
   ("sport", "⚽"); ("shopping", "🛒"); ("civic", "🏛️"); ("entertainment", "🎶");
   ("weather_alert", "🌪️"); ("general", "📅")].

Fixpoint lookupIcon (table : list (string * string)) (type : string) : option string :=
  match table with
  | [] => None
  | (k, v) :: table' => if String.eqb k type then Some v else lookupIcon table' type
  end.

Definition getCategoryIcon (type : string) : string :=
  match lookupIcon icons type with
  | Some i => i
  | None => "📅"
  end.

(** [timelineMap.has(dateKey)] *)
Fixpoint mapHas (m : list (string * TimelineDay)) (dateKey : string) : bool :=
  match m with
  | [] => false
  | (k, _) :: m' => String.eqb k dateKey || mapHas m' dateKey
  end.

(** [timelineMap.get(dateKey).items.push(ti)] *)
Fixpoint mapPush (m : list (string * TimelineDay)) (dateKey : string) (ti : TimelineItem)
  : list (string * TimelineDay) :=
  match m with
  | [] => []
  | (k, day) :: m' =>
      if String.eqb k dateKey
      then (k, mkTimelineDay (date day) (dayLabel day) (items day ++ [ti])) :: m'
      else (k, day) :: mapPush m' dateKey ti
  end.

(** The simplified item for display. *)
Definition displayItem (tz : Z) (it : Item) : DisplayItem :=
  mkDisplayItem (title it) (link it)
    (option_map (toDateString tz) (extractedDate it))
    (option_map (toDateString tz) (extractedDate it))
    (title it) "medium" "Unknown" (isRoundup it)
    (Z.of_nat (length (subItems it))).

(** [`${item.subItems?.length || 'Multiple'} ITEMS`] or the upper-cased
    category. *)
Definition subtitleOf (it : Item) : string :=
  if isRoundup it then
    (match subItems it with
     | [] => "Multiple"
     | _ => pretty (Z.of_nat (length (subItems it)))
     end) +:+ " ITEMS"
  else toUpperCase (categoryName (category it)).

Definition timelineItem (it : Item) : TimelineItem :=
  mkTimelineItem (id it) (getItemType (category it)) (title it) (subtitleOf it)
    (description it) [categoryName (category it)] (link it) (isRoundup it)
    (subItems it)
    (Some (match _forwardScore it with
           | Some v => v
           | None => 0
           end)).

(** Populate Sections: [None] stands for the [return] that drops the item
    before it reaches the timeline. *)
Definition populateSections (tz : Z) (ctx : Ctx) (it : Item) (s : Sections)
  : option Sections :=
  match section s (category it) with
  | None => Some s
  | Some _ =>
      let planner := isPlannerSection (category it) in
      if planner && negb (bool_decide (is_Some (extractedDate it))) && negb (isRoundup it) then None
      else
        let push := Some (updateSection (fun l => (l ++ [displayItem tz it])%list) s (category it)) in
        match category it, extractedDate it with
        | festivals, Some ed =>
            (* allow if within -3 days to +infinity *)
            match ed, today ctx with
            | At e, At t => if e - t <? -3 * (1000 * 3600 * 24) then None else push
            | _, _ => push
            end
        | _, Some ed =>
            if planner && dateLt ed (today ctx) then None else push
        | _, None => push
        end
  end.

(** The target date of the timeline. *)
Definition targetDateOf (now : Z) (ctx : Ctx) (it : Item) : option Date :=
  let targetDate := extractedDate it in
  let targetDate :=
    match targetDate, category it with
    | None, (alerts | weather_alerts) =>
        (* only if very fresh (< 24h) *)
        match pubDate it with
        | Some (At pub) => if now - pub <? 24 * 60 * 60 * 1000 then Some (today ctx) else None
        | _ => None
        end
    | _, _ => targetDate
    end in
  match targetDate with
  | None => if isRoundup it then Some (today ctx) else None
  | Some _ => targetDate
  end.

(** Populate Timeline: only if the target date is >= today. *)
Definition populateTimeline (tz now : Z) (ctx : Ctx) (it : Item)
    (m : list (string * TimelineDay)) : list (string * TimelineDay) :=
  match targetDateOf now ctx it with
  | Some (At target) =>
      if dateGe (At target) (today ctx) then
        let dateKey := isoDateKey target in
        let m := if mapHas m dateKey then m
                 else (m ++ [(dateKey, mkTimelineDay dateKey
                                         (getDayLabel tz now (At target)) [])])%list in
        mapPush m dateKey (timelineItem it)
      else m
  | _ => m
  end.

(** The callback of [rawItems.forEach]. *)
Definition processItem (tz now : Z) (ctx : Ctx) (acc : Acc) (l : nat) : M Acc :=
  item <- deref l ;;
  if decide (id item ∈ seenIds acc) then ret acc
  else
    let acc := mkAcc (timelineMap acc) (accSections acc) ({[id item]} ∪ seenIds acc) in
    if negb (isFresh now (maxAgeMs ctx) item) then ret acc
    else
      let fullText := toLowerCase (title item +:+ " " +:+ description item) in
      if isStale fullText then ret acc
      else
        (* layer 1: global negative filter, roundups excepted *)
        negativeHit <-
          (if roundupText fullText then ret false
           else someM (fun w => matchesKeyword fullText (toLowerCase w))
                  (mergedNegatives ctx)) ;;
        if negativeHit : bool then ret acc
        else
          (* layer 2: forward-looking signal score *)
          let forwardScore := forwardScoreOf fullText in
          (* layer 3: category-specific positive filter *)
          let allPositive := mergedPositives ctx (category item) in
          irrelevant <-
            (match allPositive with
             | [] => ret false
             | _ =>
                 hasPositiveMatch <-
                   someM (fun w => matchesKeyword fullText (toLowerCase w)) allPositive ;;
                 ret (isPlannerCategory (category item) && negb hasPositiveMatch
                       && (forwardScore =? 0))
             end) ;;
          if irrelevant : bool then ret acc
          else
            (* layer 4: strict location for alerts and civic *)
            if match category item with
               | alerts | civic =>
                   negb (existsb (fun loc => includes fullText loc) (userLocations ctx))
               | _ => false
               end
            then ret acc
            else
              (* attach score for sorting *)
              _ <- setForwardScore l forwardScore ;;
              item <- deref l ;;
              match populateSections tz ctx item (accSections acc) with
              | None => ret acc
              | Some sections' =>
                  ret (mkAcc (populateTimeline tz now ctx item (timelineMap acc))
                          sections' (seenIds acc))
              end.

(** [rawItems.forEach(callback)] *)
Fixpoint forEachM (f : Acc -> nat -> M Acc) (acc : Acc) (l : list nat) : M Acc :=
  match l with
  | [] => ret acc
  | x :: l' =>
      acc' <- f acc x ;;
      forEachM f acc' l'
  end.

(** A stable sort: [Array.prototype.sort] with a comparator; [le a b] holds
    when the comparator does not put [b] before [a]. *)
Fixpoint insertSorted {A : Type} (le : A -> A -> bool) (x : A) (l : list A) : list A :=
  match l with
  | [] => [x]
  | y :: l' => if le y x then y :: insertSorted le x l' else x :: y :: l'
  end.

Definition sortBy {A : Type} (le : A -> A -> bool) (l : list A) : list A :=
  fold_left (fun sorted x => insertSorted le x sorted) l [].

Definition scoreOf (ti : TimelineItem) : Z :=
  match t_forwardScore ti with
  | Some v => v
  | None => 0
  end.

(** [delete item._forwardScore] *)
Definition deleteScore (ti : TimelineItem) : TimelineItem :=
  mkTimelineItem (t_id ti) (t_type ti) (t_title ti) (subtitle ti) (t_description ti)
    (tags ti) (t_link ti) (t_isRoundup ti) (t_subItems ti) None.

(** Within a day: sort by forward-looking score, most actionable first,
    then clean the internal scoring field. *)
Definition finishDay (day : TimelineDay) : TimelineDay :=
  mkTimelineDay (date day) (dayLabel day)
    (map deleteScore (sortBy (fun a b => scoreOf b <=? scoreOf a) (items day))).

(** [plan[dayName] = v] *)
Fixpoint setProp {V : Type} (plan : list (string * V)) (k : string) (v : V)
  : list (string * V) :=
  match plan with
  | [] => [(k, v)]
  | (k', v') :: plan' =>
      if String.eqb k' k then (k', v) :: plan' else (k', v') :: setProp plan' k v
  end.

Definition planItem (ti : TimelineItem) : PlanItem :=
  mkPlanItem (t_title ti) (t_type ti) (getCategoryIcon (t_type ti)) (t_link ti).

(** The loop of [generateWeeklyPlan], for [i] from [7 - n] to 6. *)
Fixpoint weeklyLoop (tz now : Z) (timeline : list TimelineDay) (n : nat)
    (plan : list (string * list PlanItem)) : option (list (string * list PlanItem)) :=
  match n with
  | O => Some plan
  | S n' =>
      let i := 7 - Z.of_nat n in
      match setDate tz (At now) (getDate tz now + i) with
      | Invalid => None          (* toISOString throws *)
      | At d =>
          let dateStr := isoDateKey d in
          let dayName := weekdayLong tz d in
          let entries :=
            match find (fun t => String.eqb (date t) dateStr) timeline with
            | Some timelineDay => map planItem (items timelineDay)
            | None => []
            end in
          weeklyLoop tz now timeline n' (setProp plan dayName entries)
      end
  end.

Definition generateWeeklyPlan (tz now : Z) (timeline : list TimelineDay)
  : option (list (string * list PlanItem)) :=
  weeklyLoop tz now timeline 7 [].

Definition liftOption {A : Type} (o : option A) : M A := fun w =>
  match o with
  | Some x => Some (x, w)
  | None => None
  end.

(** Optional chaining: [o?.f] *)
Definition chain {A B : Type} (o : option A) (f : A -> option B) : option B :=
  match o with
  | Some x => f x
  | None => None
  end.

(** What the function computes before the loop. *)
Definition makeCtx (tz now : Z) (settings : option Settings) : Ctx :=
  let maxAgeHours :=
    match chain settings hideOlderThanHours with
    | Some h => if h =? 0 then 60 else h
    | None => 60
    end in
  let userKeywords := chain (chain settings upAhead) keywords in
  let userNegative := match userKeywords with
                      | Some k => negative k
                      | None => []
                      end in
  let userPositive cat := match userKeywords with
                          | Some k => positive k cat
                          | None => []
                          end in
  mkCtx (setHoursZero tz (At now))
    (maxAgeHours * 60 * 60 * 1000)
    (ALL_NEGATIVE_KEYWORDS ++ userNegative)%list
    (fun cat => match cat with
                | general => []
                | _ => (CATEGORY_POSITIVE_KEYWORDS cat ++ userPositive cat)%list
                end)
    (map toLowerCase
       (match chain (chain settings upAhead) locations with
        | Some locs => locs
        | None => ["Chennai"; "Muscat"; "Trichy"]
        end)).

(** Processing logic to create the final structure. *)
Definition processUpAheadData (tz now : Z) (rawItems : list nat)
    (settings : option Settings) : M Output :=
  let ctx := makeCtx tz now settings in
  acc <- forEachM (processItem tz now ctx) (mkAcc [] emptySections ∅) rawItems ;;
  (* sort the timeline by date, and each day by score; on date keys
     [localeCompare] orders like the character codes *)
  let sortedTimeline :=
    map finishDay
      (sortBy (fun a b => String.leb (date a) (date b)) (map snd (timelineMap acc))) in
  (* limit sections length *)
  let sections :=
    fold_left (updateSection (firstn 5)) 
      [movies; festivals; alerts; events; sports; shopping; civic; weather_alerts]
      (accSections acc) in
  weekly_plan <- liftOption (generateWeeklyPlan tz now sortedTimeline) ;;
  ret (mkOutput sortedTimeline sections weekly_plan (toISOString now)).

(** The invariant of the pattern cache: a cached pattern is the pattern of
    its key.  The cache is empty when the module is loaded and only
    [matchesWord] writes to it. *)
Definition cacheOk (w : World) : Prop :=
  forall word re, _wbCache w !! word = Some re -> re = wordPattern word.

(** An item without the property that a run attaches to it. *)
Definition clearScore (it : Item) : Item :=
  mkItem (id it) (title it) (link it) (description it) (pubDate it)
    (extractedDate it) (category it) (rawSource it) (isRoundup it) (subItems it)
    None.

(** Two heaps hold the same items up to [_forwardScore]. *)
Definition sameItems (h1 h2 : gmap nat Item) : Prop :=
  forall l, option_map clearScore (h1 !! l) = option_map clearScore (h2 !! l).

(** The full text that the filters of [processUpAheadData] read. *)
Definition fullTextOf (it : Item) : string :=
  toLowerCase (title it +:+ " " +:+ description it).

(** An item was dropped: only its id was recorded. *)
Definition dropped (acc : Acc) (it : Item) : Acc :=
  mkAcc (timelineMap acc) (accSections acc) ({[id it]} ∪ seenIds acc).

(** An item with the score that [processUpAheadData] attaches. *)
Definition withScore (it : Item) (v : Z) : Item :=
  mkItem (id it) (title it) (link it) (description it) (pubDate it)
    (extractedDate it) (category it) (rawSource it) (isRoundup it) (subItems it)
    (Some v).

(** The decisions of the four filter layers, read without the cache. *)
Definition negativeDrop (ctx : Ctx) (fullText : string) : bool :=
  negb (roundupText fullText)
  && existsb (fun k => matchesKeywordPure fullText (toLowerCase k)) (mergedNegatives ctx).

Definition irrelevantDrop (ctx : Ctx) (cat : Category) (fullText : string) : bool :=
  match mergedPositives ctx cat with
  | [] => false
  | allPositive =>
      isPlannerCategory cat
      && negb (existsb (fun k => matchesKeywordPure fullText (toLowerCase k)) allPositive)
      && (forwardScoreOf fullText =? 0)
  end.

Definition locationDrop (ctx : Ctx) (cat : Category) (fullText : string) : bool :=
  match cat with
  | alerts | civic => negb (existsb (fun loc => includes fullText loc) (userLocations ctx))
  | _ => false
  end.

(** What one round of the loop does to the accumulator, as a function of
    the item alone; [processItem_outcome] below shows that [processItem]
    computes it. *)
Definition itemOutcome (tz now : Z) (ctx : Ctx) (acc : Acc) (it : Item) : Acc :=
  if decide (id it ∈ seenIds acc) then acc
  else if negb (isFresh now (maxAgeMs ctx) it)
          || isStale (fullTextOf it)
          || negativeDrop ctx (fullTextOf it)
          || irrelevantDrop ctx (category it) (fullTextOf it)
          || locationDrop ctx (category it) (fullTextOf it)
  then dropped acc it
  else
    let scored := withScore it (forwardScoreOf (fullTextOf it)) in
    match populateSections tz ctx scored (accSections acc) with
    | None => dropped acc it
    | Some sections' =>
        mkAcc (populateTimeline tz now ctx scored (timelineMap acc)) sections'
          ({[id it]} ∪ seenIds acc)
    end.

(** The rounds of the loop over a list of references, read off a fixed
    heap; [None] when a reference points to nothing. *)
Fixpoint outcomes (tz now : Z) (ctx : Ctx) (h : gmap nat Item) (acc : Acc)
    (refs : list nat) : option Acc :=
  match refs with
  | [] => Some acc
  | l :: refs' =>
      match h !! l with
      | Some it => outcomes tz now ctx h (itemOutcome tz now ctx acc it) refs'
      | None => None
      end
  end.

(** The batch-level finalization of [processUpAheadData]. *)
Definition finalize (tz now : Z) (acc : Acc) : option Output :=
  let sortedTimeline :=
    map finishDay
      (sortBy (fun a b => String.leb (date a) (date b)) (map snd (timelineMap acc))) in
  match generateWeeklyPlan tz now sortedTimeline with
  | Some weekly_plan =>
      Some (mkOutput sortedTimeline
              (fold_left (updateSection (firstn 5))
                 [movies; festivals; alerts; events; sports; shopping; civic;
                  weather_alerts]
                 (accSections acc))
              weekly_plan (toISOString now))
  | None => None
  end.

(** The output of a run as a function of the heap it starts from;
    [processUpAheadData_aggregate] below shows that [processUpAheadData]
    computes it. *)
Definition aggregate (tz now : Z) (h : gmap nat Item) (rawItems : list nat)
    (settings : option Settings) : option Output :=
  match outcomes tz now (makeCtx tz now settings) h (mkAcc [] emptySections ∅) rawItems with
  | Some acc => finalize tz now acc
  | None => None
  end.

(** The context of a run with the negative keywords taken out. *)
Definition withoutNegatives (ctx : Ctx) : Ctx :=
  mkCtx (today ctx) (maxAgeMs ctx) [] (mergedPositives ctx) (userLocations ctx).

(** The invariant of the timeline map: an entry is keyed by its date, and
    the date is the ISO date key of an instant that is not before
    [today]. *)
Definition keyedFromToday (ctx : Ctx) (kd : string * TimelineDay) : Prop :=
  fst kd = date (snd kd)
  /\ exists t t0, today ctx = At t0 /\ t0 <= t /\ date (snd kd) = isoDateKey t.

(** Regex-based category detection: a cascade of substring tests, the more
    specific ones first. *)
Definition detectCategory (text : string) : Category :=
  let t := toLowerCase text in
  if includes t "power cut" || includes t "power shutdown" || includes t "tangedco" || includes t "tneb"
  then alerts
  else if includes t "traffic advisory" || includes t "road closure" || includes t "water supply"
  then alerts
  else if includes t "cyclone" || includes t "heavy rain" || includes t "weather warning" || includes t "heat wave" || includes t "imd"
  then weather_alerts
  else if includes t "movie" || includes t "release" || includes t "trailer" || includes t "film" || includes t "cinema" || includes t "ott" || includes t "booking"
  then movies
  else if includes t "cricket" || includes t "ipl" || includes t "match" || includes t "football" || includes t "kabaddi" || includes t "tournament"
  then sports
  else if includes t "festival" || includes t "holiday" || includes t "jayanti" || includes t "puja" || includes t "pongal" || includes t "diwali" || includes t "ramadan" || includes t "eid"
  then festivals
  else if includes t "sale" || includes t "offer" || includes t "discount" || includes t "shopping" || includes t "deal" || includes t "expo"
  then shopping
  else if includes t "minister" || includes t "vip visit" || includes t "rally" || includes t "protest" || includes t "bandh" || includes t "corporation"
  then civic
  else if includes t "concert" || includes t "exhibition" || includes t "show" || includes t "workshop" || includes t "theatre" || includes t "opera" || includes t "sabha" || includes t "comedy"
  then events
  else if includes t "alert" || includes t "warning" || includes t "shut"
  then alerts
  else general.

(** An item passes the filters of the loop of [processUpAheadData]. *)
Definition passes (now : Z) (ctx : Ctx) (it : Item) : Prop :=
  isFresh now (maxAgeMs ctx) it = true
  /\ isStale (fullTextOf it) = false
  /\ negativeDrop ctx (fullTextOf it) = false
  /\ irrelevantDrop ctx (category it) (fullTextOf it) = false
  /\ locationDrop ctx (category it) (fullTextOf it) = false.

(** The items of all the days of a timeline map. *)
Definition timelineItems (m : list (string * TimelineDay)) : list TimelineItem :=
  flat_map (fun kd => items (snd kd)) m.

(** The text of a timeline item that the forward-looking score is
    computed from. *)
Definition textOf (ti : TimelineItem) : string :=
  toLowerCase (t_title ti +:+ " " +:+ t_description ti).

(** The record of an item that [fetchUpAheadData] hands to the planner
    store: [{ id, title, category, link }]. *)
Definition plannerRecord (it : Item) : PlannerStorage.PlannerItem :=
  PlannerStorage.mkPlannerItem (id it) (title it) (categoryName (category it))
    (link it) None.

(** One round of the loop of [fetchUpAheadData] that persists the items
    with extracted dates into the planner storage: the date is extracted
    again, from the title and the description; [None] when the store
    throws. *)
Definition persistItem (tz now : Z) (it : Item) (ls : PlannerStorage.LocalStorage)
  : option PlannerStorage.LocalStorage :=
  match extractedDate it with
  | None => Some ls
  | Some _ =>
      match DateExtractor.extractDate tz now (title it +:+ " " +:+ description it)
              (pubDate it) with
      | None => Some ls
      | Some dateResult =>
          match DateExtractor.expandDateKeys tz (Some dateResult) 14 with
          | [] => Some ls
          | keys => PlannerStorage.merge tz now keys [plannerRecord it] ls
          end
      end
  end.

(** The loop, which runs inside [try]: an exception ends it and is
    swallowed. *)
Fixpoint persistItems (tz now : Z) (allItems : list Item)
    (ls : PlannerStorage.LocalStorage) : PlannerStorage.LocalStorage :=
  match allItems with
  | [] => ls
  | it :: rest =>
      match persistItem tz now it ls with
      | Some ls' => persistItems tz now rest ls'
      | None => ls
      end
  end.

(** What [matchesKeyword] is to decide: a phrase, a keyword with a space,
    occurs in the text as it is written; a single word occurs in it up to
    case with a word boundary on each side. *)
Definition keywordOccurs (text keyword : string) : Prop :=
  if includes keyword " "
  then exists pre post, text = pre +:+ keyword +:+ post
  else occursAsWord text keyword.

(** The ids of the items of a timeline map and the titles of a section,
    to read the state of a run. *)
Definition timelineIds (acc : Acc) : list string :=
  map t_id (timelineItems (timelineMap acc)).

Definition sectionTitles (acc : Acc) (cat : Category) : list string :=
  match section (accSections acc) cat with
  | Some l => map d_title l
  | None => []
  end.

End UpAheadService.

(** ** Sample data

    A run in a browser set to UTC+05:30 at 10:00 local time on
    2026-02-10, over four items. *)

Module Samples.

Import JsDate UpAheadService.

Definition tzIST : Z := 19800000.

(** 2026-02-10T10:00:00+05:30 *)
Definition nowIST : Z := 1770697800000.

Definition weatherAlert : Item :=
  mkItem "g1" "IMD red alert: heavy rain warning for Chennai" "https://example.org/1"
    "" (Some (At (nowIST - 3600000))) None weather_alerts "feed" false [] None.

Definition concert : Item :=
  mkItem "g2" "Concert at stadium on 2026-02-14" "https://example.org/2"
    "tickets available" (Some (At (nowIST - 3600000)))
    (Some (newDate tzIST 2026 1 14)) events "feed" false [] None.

Definition harshReview : Item :=
  mkItem "g3" "this movie review is harsh" "https://example.org/3" ""
    (Some (At (nowIST - 3600000))) (Some (At (nowIST + 86400000))) movies "feed"
    false [] None.

Definition previewScreening : Item :=
  mkItem "g4" "preview screening announced" "https://example.org/4" ""
    (Some (At (nowIST - 3600000))) (Some (At (nowIST + 86400000))) movies "feed"
    false [] None.

(** An item that matches the negative keyword "shocking", whose title has
    no count pattern and whose description has one. *)
Definition shockingScenes : Item :=
  mkItem "g5" "Heavy rain warning: shocking scenes in Chennai" "https://example.org/5"
    "3 new alerts this week" (Some (At (nowIST - 3600000))) None weather_alerts
    "feed" false [] None.

(** A weather alert published seven hours ago. *)
Definition oldWeatherAlert : Item :=
  mkItem "g6" "Cyclone warning for the coast" "https://example.org/6" ""
    (Some (At (nowIST - 7 * 3600000))) None weather_alerts "feed" false [] None.

(** The heap of the four items and an empty pattern cache. *)
Definition world0 : World :=
  mkWorld (list_to_map [(1%nat, weatherAlert); (2%nat, concert);
                        (3%nat, harshReview); (4%nat, previewScreening)]) ∅.

Definition world5 : World := mkWorld {[5%nat := shockingScenes]} ∅.

(** The harsh review again, with a description that the positive filter of
    its category accepts: the negative filter alone stands between this
    item and the timeline. *)
Definition reviewPremiere : Item :=
  mkItem "g7" "this movie review is harsh" "https://example.org/7"
    "premiere in theatres tomorrow" (Some (At (nowIST - 3600000)))
    (Some (At (nowIST + 86400000))) movies "feed" false [] None.

Definition world7 : World := mkWorld {[7%nat := reviewPremiere]} ∅.

(** An alert published ten hours ago, and the settings with
    [hideOlderThanHours] at 60. *)
Definition powerCut : Item :=
  mkItem "g8" "Power cut in Chennai: TANGEDCO maintenance work" "https://example.org/8"
    "" (Some (At (nowIST - 10 * 3600000))) None alerts "feed" false [] None.

Definition settings60 : Settings := mkSettings (Some 60) None.

Definition worldAlerts : World :=
  mkWorld (list_to_map [(6%nat, oldWeatherAlert); (8%nat, powerCut)]) ∅.

(** Three events of the same day, given in ascending order of the number
    of forward-looking signals in their texts: none, one and three. *)
Definition quietConcert : Item :=
  mkItem "s1" "Concert by the beach" "https://example.org/s1" ""
    (Some (At (nowIST - 3600000))) (Some (At (nowIST + 86400000))) events "feed"
    false [] None.

Definition stadiumConcert : Item :=
  mkItem "s2" "Concert at the stadium" "https://example.org/s2" ""
    (Some (At (nowIST - 3600000))) (Some (At (nowIST + 86400000))) events "feed"
    false [] None.

Definition bookedConcert : Item :=
  mkItem "s3" "Concert at the stadium: tickets available" "https://example.org/s3"
    "doors open at six" (Some (At (nowIST - 3600000)))
    (Some (At (nowIST + 86400000))) events "feed" false [] None.

Definition worldConcerts : World :=
  mkWorld (list_to_map [(1%nat, quietConcert); (2%nat, stadiumConcert);
                        (3%nat, bookedConcert)]) ∅.

Definition concerts : list nat := [1; 2; 3]%nat.

(** The batch; its last element aliases the first. *)
Definition batch : list nat := [1; 2; 3; 4; 1]%nat.

(** Two planner items whose titles differ in case and punctuation, and a
    store that holds an entry for a day long past. *)
Definition cityConcert1 : PlannerStorage.PlannerItem :=
  PlannerStorage.mkPlannerItem "a" "City Concert This Weekend" "events"
    "https://example.org/a" None.

Definition cityConcert2 : PlannerStorage.PlannerItem :=
  PlannerStorage.mkPlannerItem "b" "City Concert this Weekend!!" "events"
    "https://example.org/b" None.

Definition emptyStorage : PlannerStorage.LocalStorage :=
  PlannerStorage.mkStorage None true.

(** A store with three days among the next fourteen, a day long past and
    a day beyond the fourteen. *)
Definition busyStorage : PlannerStorage.LocalStorage :=
  PlannerStorage.mkStorage
    (Some (list_to_map
             [("2026-02-20", [cityConcert2]);
              ("2026-02-10", [cityConcert1]);
              ("2026-03-30", [cityConcert1]);
              ("2026-02-12", [cityConcert2; cityConcert1]);
              ("2020-01-01", [cityConcert1])])) true.

Definition staleStorage : PlannerStorage.LocalStorage :=
  PlannerStorage.mkStorage (Some {["2020-01-01" := [cityConcert1]]}) true.

End Samples.

(** * Properties *)

(** ** The matcher on literals and word patterns *)

Section RegexFacts.

Import JsString Regex.

Lemma append_cons (c : ascii) (a b : string) : String c a +:+ b = String c (a +:+ b).
Proof. reflexivity. Qed.

Lemma append_empty_r (s : string) : s +:+ "" = s.
Proof. induction s as [|c s IH]; [reflexivity|]. now rewrite append_cons, IH. Qed.

Lemma append_assoc (a b c : string) : (a +:+ b) +:+ c = a +:+ (b +:+ c).
Proof. induction a as [|x a IH]; [reflexivity|]. now rewrite !append_cons, IH. Qed.

(** The result of a match depends on the continuation through its values
    only. *)
Lemma rmatch_ext {A : Type} (icase : bool) (r : regex)
    (k1 k2 : option ascii -> string -> captures -> option A) :
  (forall prev s c, k1 prev s c = k2 prev s c) ->
  forall prev s c, rmatch icase r prev s c k1 = rmatch icase r prev s c k2.
Proof.
  revert k1 k2. induction r as [| x | p | | r1 IH1 r2 IH2 | r1 IH1 r2 IH2 | r IH | n r IH];
    intros k1 k2 Hk prev s c; cbn [rmatch].
  - apply Hk.
  - destruct s as [|a s]; [reflexivity|]. destruct (chrMatches icase x a); [apply Hk|reflexivity].
  - destruct s as [|a s]; [reflexivity|]. destruct (p a); [apply Hk|reflexivity].
  - destruct (xorb _ _); [apply Hk|reflexivity].
  - apply IH1. intros prev' s' c'. now apply IH2.
  - rewrite (IH1 k1 k2 Hk). destruct (rmatch icase r1 prev s c k2); [reflexivity|].
    now apply IH2.
  - generalize (S (String.length s)) as fuel. intros fuel. revert prev s c.
    induction fuel as [|fuel IHf]; intros prev s c; cbn [iterate]; [reflexivity|].
    rewrite (IH (fun prev' s' c' =>
                   if (String.length s' <? String.length s)%nat
                   then iterate (rmatch icase r) k1 fuel prev' s' c' else None)
                (fun prev' s' c' =>
                   if (String.length s' <? String.length s)%nat
                   then iterate (rmatch icase r) k2 fuel prev' s' c' else None)).
    + now rewrite Hk.
    + intros prev' s' c'. destruct (_ <? _)%nat; [apply IHf|reflexivity].
  - apply IH. intros prev' s' c'. apply Hk.
Qed.

(** Any fuel above the length of the input gives the same iterations: the
    fuel that [rmatch] passes, one above the length, is never used up. *)
Lemma iterate_fuel {A : Type} (icase : bool) (r : regex)
    (k : option ascii -> string -> captures -> option A) (fuel1 fuel2 : nat)
    (prev : option ascii) (s : string) (c : captures) :
  (String.length s < fuel1)%nat -> (String.length s < fuel2)%nat ->
  iterate (rmatch icase r) k fuel1 prev s c = iterate (rmatch icase r) k fuel2 prev s c.
Proof.
  revert fuel2 prev s c. induction fuel1 as [|fuel1 IH]; intros fuel2 prev s c H1 H2;
    [lia|].
  destruct fuel2 as [|fuel2]; [lia|]. cbn [iterate].
  rewrite (rmatch_ext icase r
             (fun prev' s' c' =>
                if (String.length s' <? String.length s)%nat
                then iterate (rmatch icase r) k fuel1 prev' s' c' else None)
             (fun prev' s' c' =>
                if (String.length s' <? String.length s)%nat
                then iterate (rmatch icase r) k fuel2 prev' s' c' else None));
    [reflexivity|].
  intros prev' s' c'. destruct (Nat.ltb_spec (String.length s') (String.length s));
    [|reflexivity].
  apply IH; lia.
Qed.

(** The equation of the greedy star, free of fuel: one more iteration that
    consumes something, followed by the star again, or else the
    continuation. *)
Lemma rmatch_Star {A : Type} (icase : bool) (r : regex) (prev : option ascii)
    (s : string) (c : captures) (k : option ascii -> string -> captures -> option A) :
  rmatch icase (Star r) prev s c k
  = match rmatch icase r prev s c
            (fun prev' s' c' =>
               if (String.length s' <? String.length s)%nat
               then rmatch icase (Star r) prev' s' c' k else None) with
    | Some x => Some x
    | None => k prev s c
    end.
Proof.
  cbn [rmatch iterate].
  rewrite (rmatch_ext icase r
             (fun prev' s' c' =>
                if (String.length s' <? String.length s)%nat
                then iterate (rmatch icase r) k (String.length s) prev' s' c' else None)
             (fun prev' s' c' =>
                if (String.length s' <? String.length s)%nat
                then iterate (rmatch icase r) k (S (String.length s')) prev' s' c'
                else None));
    [reflexivity|].
  intros prev' s' c'. destruct (Nat.ltb_spec (String.length s') (String.length s));
    [|reflexivity].
  apply iterate_fuel; lia.
Qed.

Lemma rmatch_Lit {A : Type} (icase : bool) (w : string) (prev : option ascii)
    (s : string) (c : captures) (k : option ascii -> string -> captures -> option A) :
  rmatch icase (Lit w) prev s c k
  = match matchLit icase w prev s with
    | Some (prev', s') => k prev' s' c
    | None => None
    end.
Proof.
  revert prev s. induction w as [|x w IH]; intros prev s; [reflexivity|].
  cbn [Lit rmatch matchLit]. destruct s as [|a s]; [reflexivity|].
  destruct (chrMatches icase x a); [apply IH|reflexivity].
Qed.

Lemma matchLit_spec (w : string) (prev prev' : option ascii) (s s' : string) :
  matchLit true w prev s = Some (prev', s')
  <-> exists mid, s = mid +:+ s' /\ toUpperCase mid = toUpperCase w
                  /\ prev' = lastOr prev mid.
Proof.
  revert prev s. induction w as [|x w IH]; intros prev s; cbn [matchLit].
  - split.
    + intros [= <- <-]. exists EmptyString. auto.
    + intros (mid & -> & Hmid & ->). destruct mid; [reflexivity|discriminate].
  - destruct s as [|a s].
    + split; [discriminate|]. intros (mid & Hs & Hmid & _).
      destruct mid; [discriminate Hmid|discriminate Hs].
    + unfold chrMatches. destruct (Ascii.eqb_spec (upperChar x) (upperChar a)) as [Heq|Hne].
      * rewrite IH. split.
        -- intros (mid & -> & Hmid & ->). exists (String a mid).
           cbn [toUpperCase lastOr]. rewrite Hmid, Heq. auto.
        -- intros (mid & Hs & Hmid & ->). destruct mid as [|b mid]; [discriminate Hmid|].
           cbn [toUpperCase] in Hmid. injection Hmid as Hb Hmid.
           injection Hs as -> ->. exists mid. auto.
      * split; [discriminate|]. intros (mid & Hs & Hmid & _).
        destruct mid as [|b mid]; [discriminate Hmid|].
        cbn [toUpperCase] in Hmid. injection Hmid as Hb Hmid.
        injection Hs as -> ->. congruence.
Qed.

Lemma execFrom_anyPosition (icase : bool) (r : regex) (prev : option ascii) (s : string) :
  match execFrom icase r prev s with
  | Some _ => true
  | None => false
  end
  = anyPosition (fun p t => match rmatch icase r p t [] (fun _ _ c => Some c) with
                            | Some _ => true
                            | None => false
                            end) prev s.
Proof.
  revert prev. induction s as [|a s IH]; intros prev; cbn [execFrom anyPosition].
  - destruct (rmatch icase r prev "" [] _); reflexivity.
  - destruct (rmatch icase r prev (String a s) [] _); [reflexivity|]. apply IH.
Qed.

Lemma lastOr_app (prev : option ascii) (a b : string) :
  lastOr prev (a +:+ b) = lastOr (lastOr prev a) b.
Proof. revert prev. induction a as [|c a IH]; intros prev; [reflexivity|apply IH]. Qed.

Lemma anyPosition_spec (f : option ascii -> string -> bool) (pre0 s : string) :
  anyPosition f (lastOr None pre0) s = true
  <-> exists pre post, s = pre +:+ post /\ f (lastOr None (pre0 +:+ pre)) post = true.
Proof.
  revert pre0. induction s as [|a s IH]; intros pre0; cbn [anyPosition].
  - rewrite orb_false_r. split.
    + intros H. exists EmptyString, EmptyString. rewrite (append_empty_r pre0).
      split; [reflexivity|assumption].
    + intros (pre & post & Hs & H). destruct pre; [|discriminate Hs].
      change ("" = post) in Hs. subst post. now rewrite append_empty_r in H.
  - rewrite orb_true_iff. split.
    + intros [H|H].
      * exists EmptyString, (String a s). rewrite (append_empty_r pre0).
        split; [reflexivity|assumption].
      * change (Some a) with (lastOr (lastOr None pre0) (String a EmptyString)) in H.
        rewrite <- lastOr_app in H. apply IH in H as (pre & post & -> & H).
        exists (String a pre), post. split; [reflexivity|].
        rewrite append_assoc in H. exact H.
    + intros (pre & post & Hs & H). destruct pre as [|b pre].
      * left. change (String a s = post) in Hs. subst post.
        now rewrite append_empty_r in H.
      * right. rewrite append_cons in Hs. injection Hs as -> ->.
        change (Some b) with (lastOr (lastOr None pre0) (String b EmptyString)).
        rewrite <- lastOr_app. apply IH. exists pre, post. split; [reflexivity|].
        rewrite append_assoc. exact H.
Qed.

Lemma xorb_true_neq (a b : bool) : xorb a b = true <-> a <> b.
Proof. destruct a, b; cbn; split; congruence. Qed.

(** [\bword\b] under the [i] flag finds exactly the occurrences of the
    word, up to case, that have a word boundary on each side. *)
Lemma test_wordPattern (text word : string) :
  test true (Seqs [WordBoundary; Lit word; WordBoundary]) text = true
  <-> occursAsWord text word.
Proof.
  unfold test, exec. rewrite execFrom_anyPosition.
  change None with (lastOr None EmptyString) at 1.
  rewrite anyPosition_spec. unfold occursAsWord, boundary.
  split.
  - intros (pre & post & -> & H). change ("" +:+ pre) with pre in H.
    cbn [Seqs rmatch] in H.
    destruct (xorb (wordBefore (lastOr None pre)) (wordAfter post)) eqn:Hb1;
      [|discriminate].
    rewrite rmatch_Lit in H.
    destruct (matchLit true word (lastOr None pre) post) as [[prev' rest]|] eqn:Hlit;
      [|discriminate].
    cbn [rmatch] in H.
    destruct (xorb (wordBefore prev') (wordAfter rest)) eqn:Hb2; [|discriminate].
    apply matchLit_spec in Hlit as (mid & -> & Hmid & ->).
    exists pre, mid, rest. rewrite lastOr_app.
    apply xorb_true_neq in Hb1, Hb2. auto.
  - intros (pre & mid & post & -> & Hmid & Hb1 & Hb2).
    exists pre, (mid +:+ post). split; [reflexivity|].
    change ("" +:+ pre) with pre. cbn [Seqs rmatch].
    apply xorb_true_neq in Hb1, Hb2. rewrite Hb1, rmatch_Lit.
    assert (Hlit : matchLit true word (lastOr None pre) (mid +:+ post)
                   = Some (lastOr (lastOr None pre) mid, post))
      by (apply matchLit_spec; now exists mid).
    rewrite Hlit. cbn [rmatch]. rewrite lastOr_app in Hb2. now rewrite Hb2.
Qed.

End RegexFacts.

(** ** What a successful match tells about its continuation *)

Section MatchFacts.

Import JsString Regex.

Lemma readOn_refl (prev : option ascii) (s : string) : readOn prev s prev s.
Proof. now exists EmptyString. Qed.

Lemma readOn_trans (p1 p2 p3 : option ascii) (s1 s2 s3 : string) :
  readOn p1 s1 p2 s2 -> readOn p2 s2 p3 s3 -> readOn p1 s1 p3 s3.
Proof.
  intros (m1 & -> & ->) (m2 & -> & ->). exists (m1 +:+ m2).
  now rewrite append_assoc, lastOr_app.
Qed.

Lemma readOn_char (prev : option ascii) (a : ascii) (s : string) :
  readOn prev (String a s) (Some a) s.
Proof. now exists (String a EmptyString). Qed.

(** A match that succeeds has called its continuation, with success, at a
    position further on. *)
Lemma rmatch_continues {A : Type} (icase : bool) (r : regex) :
  forall (k : option ascii -> string -> captures -> option A) prev s c x,
    rmatch icase r prev s c k = Some x ->
    exists prev' s' c', k prev' s' c' = Some x /\ readOn prev s prev' s'.
Proof.
  induction r as [| y | p | | r1 IH1 r2 IH2 | r1 IH1 r2 IH2 | r IH | n r IH];
    intros k prev s c x; cbn [rmatch].
  - intros H. exists prev, s, c. split; [assumption|apply readOn_refl].
  - destruct s as [|a s]; [discriminate|]. destruct (chrMatches icase y a); [|discriminate].
    intros H. exists (Some a), s, c. split; [assumption|apply readOn_char].
  - destruct s as [|a s]; [discriminate|]. destruct (p a); [|discriminate].
    intros H. exists (Some a), s, c. split; [assumption|apply readOn_char].
  - destruct (xorb _ _); [|discriminate].
    intros H. exists prev, s, c. split; [assumption|apply readOn_refl].
  - intros H. apply IH1 in H as (p1 & s1 & c1 & H & Hr1).
    apply IH2 in H as (p2 & s2 & c2 & H & Hr2).
    exists p2, s2, c2. split; [assumption|]. eapply readOn_trans; eassumption.
  - destruct (rmatch icase r1 prev s c k) eqn:H1.
    + intros [= ->]. now apply IH1 in H1.
    + apply IH2.
  - generalize (S (String.length s)) as fuel. intros fuel. revert prev s c.
    induction fuel as [|fuel IHf]; intros prev s c; cbn [iterate]; [discriminate|].
    destruct (rmatch icase r prev s c _) eqn:H1.
    + intros [= ->]. apply IH in H1 as (p1 & s1 & c1 & H & Hr1).
      destruct (_ <? _)%nat; [|discriminate].
      apply IHf in H as (p2 & s2 & c2 & H & Hr2).
      exists p2, s2, c2. split; [assumption|]. eapply readOn_trans; eassumption.
    + intros H. exists prev, s, c. split; [assumption|apply readOn_refl].
  - intros H. apply IH in H as (p1 & s1 & c1 & H & Hr1).
    eexists p1, s1, _. split; [exact H|assumption].
Qed.

(** Whether a match succeeds does not depend on the captures it starts
    from, nor on what the continuation does with the captures. *)
Lemma rmatch_success {A B : Type} (icase : bool) (r : regex) :
  forall (k1 : option ascii -> string -> captures -> option A)
         (k2 : option ascii -> string -> captures -> option B) prev s c1 c2,
    (forall p t d1 d2, is_Some (k1 p t d1) -> is_Some (k2 p t d2)) ->
    is_Some (rmatch icase r prev s c1 k1) -> is_Some (rmatch icase r prev s c2 k2).
Proof.
  induction r as [| y | p | | r1 IH1 r2 IH2 | r1 IH1 r2 IH2 | r IH | n r IH];
    intros k1 k2 prev s c1 c2 Hk; cbn [rmatch].
  - apply Hk.
  - destruct s as [|a s]; [intros [? [=]]|]. destruct (chrMatches icase y a); [apply Hk|intros [? [=]]].
  - destruct s as [|a s]; [intros [? [=]]|]. destruct (p a); [apply Hk|intros [? [=]]].
  - destruct (xorb _ _); [apply Hk|intros [? [=]]].
  - apply IH1. intros p t d1 d2. now apply IH2.
  - intros H.
    destruct (rmatch icase r1 prev s c1 k1) eqn:H1.
    + assert (H2 : is_Some (rmatch icase r1 prev s c2 k2))
        by (apply (IH1 k1 k2 prev s c1 c2 Hk); rewrite H1; eauto).
      destruct H2 as [y H2]. rewrite H2. eauto.
    + destruct (rmatch icase r1 prev s c2 k2); [eauto|].
      now apply (IH2 k1 k2 prev s c1 c2 Hk).
  - generalize (S (String.length s)) as fuel. intros fuel. revert prev s c1 c2.
    induction fuel as [|fuel IHf]; intros prev s c1 c2; cbn [iterate]; [intros [? [=]]|].
    intros H.
    set (step1 := fun prev' s' c' =>
                    if (String.length s' <? String.length s)%nat
                    then iterate (rmatch icase r) k1 fuel prev' s' c' else None) in *.
    set (step2 := fun prev' s' c' =>
                    if (String.length s' <? String.length s)%nat
                    then iterate (rmatch icase r) k2 fuel prev' s' c' else None).
    assert (Hstep : forall p t d1 d2, is_Some (step1 p t d1) -> is_Some (step2 p t d2)).
    { intros p t d1 d2. unfold step1, step2.
      destruct (_ <? _)%nat; [apply IHf|intros [? [=]]]. }
    destruct (rmatch icase r prev s c1 step1) eqn:H1.
    + assert (H2 : is_Some (rmatch icase r prev s c2 step2))
        by (apply (IH step1 step2 prev s c1 c2 Hstep); rewrite H1; eauto).
      destruct H2 as [y H2]. rewrite H2. eauto.
    + destruct (rmatch icase r prev s c2 step2); [eauto|].
      now apply (Hk prev s c1 c2).
  - apply IH. intros p t d1 d2. apply Hk.
Qed.

(** After one or more white-space characters, the continuation starts
    right after a white-space character. *)
Lemma rmatch_Plus_Space {A : Type} (icase : bool)
    (k : option ascii -> string -> captures -> option A) prev s c x :
  rmatch icase (Plus Space) prev s c k = Some x ->
  exists sp s' c', isSpace sp = true /\ k (Some sp) s' c' = Some x
                   /\ readOn prev s (Some sp) s'.
Proof.
  unfold Plus, Space. cbn [rmatch].
  destruct s as [|a s]; [discriminate|].
  destruct (isSpace a) eqn:Ha; [|discriminate].
  assert (Hloop : forall fuel sp t d,
            isSpace sp = true ->
            iterate (rmatch icase (Class isSpace)) k fuel (Some sp) t d = Some x ->
            exists sp' t' d', isSpace sp' = true /\ k (Some sp') t' d' = Some x
                              /\ readOn (Some sp) t (Some sp') t').
  { induction fuel as [|fuel IHf]; intros sp t d Hsp; cbn [iterate rmatch];
      [discriminate|].
    destruct t as [|b t].
    - intros H. exists sp, EmptyString, d. split; [assumption|].
      split; [assumption|apply readOn_refl].
    - destruct (isSpace b) eqn:Hb.
      + destruct (_ <? _)%nat.
        * destruct (iterate _ k fuel (Some b) t d) eqn:Hit.
          -- intros [= ->]. apply IHf in Hit as (sp' & t' & d' & Hsp' & Hk & Hr);
               [|assumption].
             exists sp', t', d'. split; [assumption|]. split; [assumption|].
             eapply readOn_trans; [apply readOn_char|eassumption].
          -- intros H. exists sp, (String b t), d. split; [assumption|].
             split; [assumption|apply readOn_refl].
        * intros H. exists sp, (String b t), d. split; [assumption|].
          split; [assumption|apply readOn_refl].
      + intros H. exists sp, (String b t), d. split; [assumption|].
        split; [assumption|apply readOn_refl]. }
  intros H. apply Hloop in H as (sp' & t' & d' & Hsp' & Hk & Hr); [|assumption].
  exists sp', t', d'. split; [assumption|]. split; [assumption|].
  eapply readOn_trans; [apply readOn_char|eassumption].
Qed.

(** An alternation of literals succeeds through one of the literals. *)
Lemma rmatch_Alts_Lit {A : Type} (icase : bool) (ws : list string)
    (k : option ascii -> string -> captures -> option A) prev s c x :
  rmatch icase (Alts (map Lit ws)) prev s c k = Some x ->
  ws = [] \/ Exists (fun w => is_Some (matchLit icase w prev s)) ws.
Proof.
  induction ws as [|w ws IH]; [now left|]. right.
  destruct ws as [|w' ws].
  - cbn [map Alts] in H. rewrite rmatch_Lit in H.
    constructor. destruct (matchLit icase w prev s); [eauto|discriminate].
  - change (Alts (map Lit (w :: w' :: ws)))
      with (Alt (Lit w) (Alts (map Lit (w' :: ws)))) in H.
    cbn [rmatch] in H. rewrite rmatch_Lit in H.
    destruct (matchLit icase w prev s) as [[p t]|] eqn:Hw.
    + constructor. eauto.
    + apply Exists_cons_tl. destruct (IH H) as [Hnil|Hex]; [discriminate|assumption].
Qed.

Lemma space_not_word (a : ascii) : isSpace a = true -> isWordChar a = false.
Proof.
  destruct a as [[] [] [] [] [] [] [] []]; vm_compute; congruence.
Qed.

Lemma letter_matches_word (x a : ascii) :
  isLowerLetter x = true -> chrMatches true x a = true -> isWordChar a = true.
Proof.
  unfold chrMatches. intros Hx Heq. apply Ascii.eqb_eq in Heq.
  assert (Hup : isUpper (upperChar x) = true).
  { revert Hx. destruct x as [[] [] [] [] [] [] [] []]; vm_compute; congruence. }
  rewrite Heq in Hup. revert Hup. clear.
  destruct a as [[] [] [] [] [] [] [] []]; vm_compute; congruence.
Qed.

(** The first match is a match at some position of the text, and a match
    at some position makes the search succeed. *)
Lemma execFrom_position (icase : bool) (r : regex) (prev : option ascii) (s : string)
    (m : captures) :
  execFrom icase r prev s = Some m ->
  exists prev' s', readOn prev s prev' s'
                   /\ rmatch icase r prev' s' [] (fun _ _ c => Some c) = Some m.
Proof.
  revert prev. induction s as [|a s IH]; intros prev; cbn [execFrom].
  - destruct (rmatch icase r prev "" [] _) eqn:H; [|discriminate].
    intros [= ->]. exists prev, EmptyString. split; [apply readOn_refl|assumption].
  - destruct (rmatch icase r prev (String a s) [] _) eqn:H.
    + intros [= ->]. exists prev, (String a s). split; [apply readOn_refl|assumption].
    + intros Hs. apply IH in Hs as (p' & s' & Hr & Hm). exists p', s'.
      split; [|assumption]. eapply readOn_trans; [apply readOn_char|eassumption].
Qed.

Lemma execFrom_complete (icase : bool) (r : regex) (prev prev' : option ascii)
    (s s' : string) :
  readOn prev s prev' s' ->
  is_Some (rmatch icase r prev' s' [] (fun _ _ c => Some c)) ->
  is_Some (execFrom icase r prev s).
Proof.
  intros (mid & -> & ->). revert prev. induction mid as [|a mid IH]; intros prev Hm.
  - change ("" +:+ s') with s'. cbn [lastOr] in Hm.
    destruct s' as [|b s']; cbn [execFrom]; destruct Hm as [m ->]; eauto.
  - rewrite append_cons. cbn [execFrom].
    destruct (rmatch icase r prev _ [] _); [eauto|]. now apply IH.
Qed.

End MatchFacts.

(** ** The calendar *)

Section CalendarFacts.

Import JsDate.

(** The civil date of a day number is a date of that day number, with a
    month in 1..12. *)
Lemma civil_roundtrip (z : Z) :
  daysFromCivil (fst (fst (civilFromDays z))) (snd (fst (civilFromDays z)))
    (snd (civilFromDays z)) = z
  /\ 1 <= snd (fst (civilFromDays z)) <= 12.
Proof.
  unfold civilFromDays, daysFromCivil. cbn [fst snd].
  set (z' := z + 719468).
  set (era := z' / 146097).
  set (doe := z' - era * 146097).
  assert (Hdoe : 0 <= doe < 146097).
  { unfold doe, era. pose proof (Z.mod_pos_bound z' 146097 ltac:(lia)) as H.
    rewrite Z.mod_eq in H by lia. lia. }
  set (yoe := (doe - doe / 1460 + doe / 36524 - doe / 146096) / 365).
  assert (Hyoe : 0 <= yoe <= 399) by (unfold yoe; Z.div_mod_to_equations; lia).
  set (doy := doe - (365 * yoe + yoe / 4 - yoe / 100)).
  assert (Hdoy : 0 <= doy <= 365) by (unfold doy, yoe; Z.div_mod_to_equations; lia).
  set (mp := (5 * doy + 2) / 153).
  assert (Hmp : 0 <= mp <= 11) by (unfold mp; Z.div_mod_to_equations; lia).
  set (m := if mp <? 10 then mp + 3 else mp - 9).
  assert (Hm : 1 <= m <= 12) by (unfold m; destruct (Z.ltb_spec mp 10); lia).
  split; [|exact Hm].
  assert (Hmp' : (m + 9) mod 12 = mp).
  { unfold m. destruct (Z.ltb_spec mp 10); Z.div_mod_to_equations; lia. }
  rewrite Hmp'.
  set (y := yoe + era * 400).
  assert (Hy : (if m <=? 2 then (if m <=? 2 then y + 1 else y) - 1
                else (if m <=? 2 then y + 1 else y)) = y)
    by (destruct (Z.leb_spec m 2); lia).
  rewrite Hy.
  assert (Hera : y / 400 = era)
    by (unfold y; symmetry; apply (Z.div_unique _ _ _ yoe); lia).
  rewrite Hera. replace (y - era * 400) with yoe by (unfold y; lia).
  unfold doy, doe, z'. lia.
Qed.

Lemma daysFromCivil_day (y m d : Z) :
  daysFromCivil y m d = daysFromCivil y m 1 + d - 1.
Proof. unfold daysFromCivil. lia. Qed.

(** Setting the day of the month of an instant moves it by whole days. *)
Lemma setDate_moves_days (tz t k : Z) :
  setDate tz (At t) (getDate tz t + k) = timeClip (t + k * msPerDay).
Proof.
  unfold setDate, makeDay, getFullYear, getMonth, getDate.
  destruct (civil_roundtrip (localDay tz t)) as [Hday Hm].
  set (civil := civilFromDays (localDay tz t)) in *.
  replace (fst (fst civil) + (snd (fst civil) - 1) / 12) with (fst (fst civil))
    by (rewrite Z.div_small; lia).
  replace ((snd (fst civil) - 1) mod 12 + 1) with (snd (fst civil))
    by (rewrite Z.mod_small; lia).
  rewrite daysFromCivil_day in Hday. f_equal.
  unfold localDay, timeWithinDay, msPerDay in *.
  pose proof (Z.div_mod (t + tz) 86400000 ltac:(lia)). lia.
Qed.

Lemma addDays_moves_days (tz t k : Z) :
  addDays tz (At t) k = timeClip (t + k * msPerDay).
Proof. apply setDate_moves_days. Qed.

Lemma timeClip_valid (t : Z) :
  -8640000000000000 <= t <= 8640000000000000 -> timeClip t = At t.
Proof.
  intros H. unfold timeClip.
  destruct (Z.leb_spec (Z.abs t) 8640000000000000); [reflexivity|lia].
Qed.

End CalendarFacts.


(** ** The pattern cache is transparent *)

Section CacheTransparency.

Import JsString Regex UpAheadService.

Lemma matchesWord_pure (text word : string) (w : World) :
  cacheOk w ->
  exists w', matchesWord text word w = Some (matchesWordPure text word, w')
             /\ cacheOk w' /\ heap w' = heap w.
Proof.
  intros Hok. unfold matchesWord, bind, cacheGet.
  destruct (_wbCache w !! word) as [re|] eqn:Hre.
  - exists w. rewrite (Hok _ _ Hre). auto.
  - eexists. split; [reflexivity|]. split; [|reflexivity].
    intros word' re'. cbn. rewrite lookup_insert.
    case_decide as Hd.
    + intros [= <-]. now subst.
    + apply Hok.
Qed.

Lemma matchesKeyword_pure (text keyword : string) (w : World) :
  cacheOk w ->
  exists w', matchesKeyword text keyword w = Some (matchesKeywordPure text keyword, w')
             /\ cacheOk w' /\ heap w' = heap w.
Proof.
  intros Hok. unfold matchesKeyword, matchesKeywordPure.
  destruct (includes keyword " ").
  - exists w. auto.
  - now apply matchesWord_pure.
Qed.

Lemma someM_pure (text : string) (l : list string) (w : World) :
  cacheOk w ->
  exists w',
    someM (fun k => matchesKeyword text (toLowerCase k)) l w
    = Some (existsb (fun k => matchesKeywordPure text (toLowerCase k)) l, w')
    /\ cacheOk w' /\ heap w' = heap w.
Proof.
  revert w. induction l as [|k l IH]; intros w Hok.
  - exists w. auto.
  - cbn [someM existsb]. unfold bind.
    destruct (matchesKeyword_pure text (toLowerCase k) w Hok) as (w1 & -> & Hok1 & Hh1).
    destruct (matchesKeywordPure text (toLowerCase k)).
    + exists w1. auto.
    + destruct (IH w1 Hok1) as (w2 & -> & Hok2 & Hh2).
      exists w2. cbn. repeat split; auto. congruence.
Qed.

End CacheTransparency.

(** ** One round of the aggregation loop *)

Section Rounds.

Import JsString Regex JsDate UpAheadService.

Lemma sameItems_refl (h : gmap nat Item) : sameItems h h.
Proof. now intros l. Qed.

Lemma sameItems_trans (h1 h2 h3 : gmap nat Item) :
  sameItems h1 h2 -> sameItems h2 h3 -> sameItems h1 h3.
Proof. intros H12 H23 l. now rewrite H12. Qed.

Lemma sameItems_sym (h1 h2 : gmap nat Item) : sameItems h1 h2 -> sameItems h2 h1.
Proof. intros H l. now rewrite H. Qed.

Lemma sameItems_score (h : gmap nat Item) (l : nat) (it : Item) (v : Z) :
  h !! l = Some it -> sameItems h (<[l := withScore it v]> h).
Proof.
  intros Hl l'. rewrite lookup_insert. case_decide as Hd.
  - subst l'. now rewrite Hl.
  - reflexivity.
Qed.

(** [processItem] throws on a dangling reference and otherwise computes
    [itemOutcome]; it keeps the cache invariant and changes the heap in
    the scores only. *)
Lemma processItem_outcome (tz now : Z) (ctx : Ctx) (acc : Acc) (l : nat)
    (w : World) (it : Item) :
  cacheOk w -> heap w !! l = Some it ->
  exists w', processItem tz now ctx acc l w = Some (itemOutcome tz now ctx acc it, w')
             /\ cacheOk w' /\ sameItems (heap w) (heap w').
Proof.
  intros Hok Hl. unfold processItem, itemOutcome, bind at 1, deref at 1.
  rewrite Hl. fold (fullTextOf it).
  destruct (decide (id it ∈ seenIds acc)).
  { exists w. split; [reflexivity|]. split; [assumption|apply sameItems_refl]. }
  destruct (isFresh now (maxAgeMs ctx) it); cbn [negb orb];
    [|exists w; split; [reflexivity|]; split; [assumption|apply sameItems_refl]].
  destruct (isStale (fullTextOf it)); cbn [orb];
    [exists w; split; [reflexivity|]; split; [assumption|apply sameItems_refl]|].
  unfold bind at 1.
  assert (Hneg : exists w1,
    (if roundupText (fullTextOf it) then ret false
     else someM (fun k => matchesKeyword (fullTextOf it) (toLowerCase k))
            (mergedNegatives ctx)) w
    = Some (negativeDrop ctx (fullTextOf it), w1)
    /\ cacheOk w1 /\ heap w1 = heap w).
  { unfold negativeDrop. destruct (roundupText (fullTextOf it)).
    - exists w. auto.
    - apply someM_pure; assumption. }
  destruct Hneg as (w1 & -> & Hok1 & Hh1).
  destruct (negativeDrop ctx (fullTextOf it)); cbn [orb].
  { exists w1. split; [reflexivity|]. split; [assumption|].
    rewrite Hh1. apply sameItems_refl. }
  unfold bind at 1.
  assert (Hpos : exists w2,
    (match mergedPositives ctx (category it) with
     | [] => ret false
     | _ :: _ =>
         hasPositiveMatch <-
           someM (fun k => matchesKeyword (fullTextOf it) (toLowerCase k))
             (mergedPositives ctx (category it)) ;;
         ret (isPlannerCategory (category it) && negb hasPositiveMatch
              && (forwardScoreOf (fullTextOf it) =? 0))
     end) w1
    = Some (irrelevantDrop ctx (category it) (fullTextOf it), w2)
    /\ cacheOk w2 /\ heap w2 = heap w).
  { unfold irrelevantDrop.
    destruct (mergedPositives ctx (category it)) as [|k ks] eqn:Hp.
    - exists w1. auto.
    - unfold bind.
      destruct (someM_pure (fullTextOf it) (k :: ks) w1 Hok1) as (w2 & -> & Hok2 & Hh2).
      exists w2. split; [reflexivity|]. split; [assumption|congruence]. }
  destruct Hpos as (w2 & -> & Hok2 & Hh2).
  destruct (irrelevantDrop ctx (category it) (fullTextOf it)); cbn [orb].
  { exists w2. split; [reflexivity|]. split; [assumption|].
    rewrite Hh2. apply sameItems_refl. }
  fold (locationDrop ctx (category it) (fullTextOf it)).
  destruct (locationDrop ctx (category it) (fullTextOf it)).
  { exists w2. split; [reflexivity|]. split; [assumption|].
    rewrite Hh2. apply sameItems_refl. }
  unfold bind, setForwardScore, deref. rewrite Hh2, Hl. cbn [heap].
  rewrite lookup_insert_eq. fold (withScore it (forwardScoreOf (fullTextOf it))).
  cbn [accSections timelineMap seenIds].
  destruct (populateSections tz ctx (withScore it (forwardScoreOf (fullTextOf it)))
              (accSections acc));
    (eexists; split; [reflexivity|]; split;
     [intros word re; cbn [_wbCache]; apply Hok2
     |cbn [heap]; now apply sameItems_score]).
Qed.

Lemma processItem_dangling (tz now : Z) (ctx : Ctx) (acc : Acc) (l : nat) (w : World) :
  heap w !! l = None -> processItem tz now ctx acc l w = None.
Proof. intros Hl. unfold processItem, bind, deref. now rewrite Hl. Qed.

End Rounds.

(** ** A run of the aggregator *)

Section Runs.

Import JsString Regex JsDate UpAheadService.

Lemma itemOutcome_clearScore (tz now : Z) (ctx : Ctx) (acc : Acc) (it1 it2 : Item) :
  clearScore it1 = clearScore it2 ->
  itemOutcome tz now ctx acc it1 = itemOutcome tz now ctx acc it2.
Proof.
  destruct it1, it2. unfold clearScore. cbn. intros [= -> -> -> -> -> -> -> -> -> ->].
  reflexivity.
Qed.

Lemma outcomes_sameItems (tz now : Z) (ctx : Ctx) (h1 h2 : gmap nat Item)
    (refs : list nat) (acc : Acc) :
  sameItems h1 h2 ->
  outcomes tz now ctx h1 acc refs = outcomes tz now ctx h2 acc refs.
Proof.
  intros Hs. revert acc. induction refs as [|l refs IH]; intros acc; [reflexivity|].
  cbn [outcomes]. specialize (Hs l).
  destruct (h1 !! l) as [it1|], (h2 !! l) as [it2|]; cbn in Hs; try discriminate.
  - assert (Hc : clearScore it1 = clearScore it2) by congruence.
    rewrite (itemOutcome_clearScore _ _ _ _ _ _ Hc). apply IH.
  - reflexivity.
Qed.

Lemma forEachM_outcomes (tz now : Z) (ctx : Ctx) (refs : list nat) (acc : Acc)
    (w : World) :
  cacheOk w ->
  match outcomes tz now ctx (heap w) acc refs with
  | Some acc' =>
      exists w', forEachM (processItem tz now ctx) acc refs w = Some (acc', w')
                 /\ cacheOk w' /\ sameItems (heap w) (heap w')
  | None => forEachM (processItem tz now ctx) acc refs w = None
  end.
Proof.
  revert acc w. induction refs as [|l refs IH]; intros acc w Hok.
  - cbn. exists w. split; [reflexivity|]. split; [assumption|apply sameItems_refl].
  - cbn [outcomes forEachM]. unfold bind.
    destruct (heap w !! l) as [it|] eqn:Hl.
    + destruct (processItem_outcome tz now ctx acc l w it Hok Hl) as (w1 & -> & Hok1 & Hs1).
      specialize (IH (itemOutcome tz now ctx acc it) w1 Hok1).
      rewrite <- (outcomes_sameItems _ _ _ _ _ refs (itemOutcome tz now ctx acc it) Hs1) in IH.
      destruct (outcomes tz now ctx (heap w) (itemOutcome tz now ctx acc it) refs).
      * destruct IH as (w2 & -> & Hok2 & Hs2). exists w2.
        split; [reflexivity|]. split; [assumption|].
        eapply sameItems_trans; eassumption.
      * assumption.
    + now rewrite (processItem_dangling _ _ _ _ _ _ Hl).
Qed.

(** [processUpAheadData] computes [aggregate] of the heap it starts from,
    keeps the cache invariant and changes the heap in the scores only. *)
Lemma processUpAheadData_aggregate (tz now : Z) (rawItems : list nat)
    (settings : option Settings) (w : World) :
  cacheOk w ->
  match aggregate tz now (heap w) rawItems settings with
  | Some out =>
      exists w', processUpAheadData tz now rawItems settings w = Some (out, w')
                 /\ cacheOk w' /\ sameItems (heap w) (heap w')
  | None => processUpAheadData tz now rawItems settings w = None
  end.
Proof.
  intros Hok. unfold aggregate, processUpAheadData, bind.
  pose proof (forEachM_outcomes tz now (makeCtx tz now settings) rawItems
                (mkAcc [] emptySections ∅) w Hok) as H.
  destruct (outcomes tz now (makeCtx tz now settings) (heap w)
              (mkAcc [] emptySections ∅) rawItems) as [acc|].
  - destruct H as (w1 & H & Hok1 & Hs1). rewrite H.
    unfold finalize, bind, liftOption.
    destruct (generateWeeklyPlan tz now _) as [plan|].
    + exists w1. auto.
    + reflexivity.
  - now rewrite H.
Qed.

Lemma aggregate_sameItems (tz now : Z) (h1 h2 : gmap nat Item) (rawItems : list nat)
    (settings : option Settings) :
  sameItems h1 h2 ->
  aggregate tz now h1 rawItems settings = aggregate tz now h2 rawItems settings.
Proof.
  intros Hs. unfold aggregate. now rewrite (outcomes_sameItems _ _ _ h1 h2 _ _ Hs).
Qed.

(** A run returns normally when every element of the batch refers to an
    item and the seven days of the weekly plan lie in the range of time
    values. *)
Lemma outcomes_returns (tz now : Z) (ctx : Ctx) (h : gmap nat Item) (refs : list nat)
    (acc : Acc) :
  Forall (fun l => is_Some (h !! l)) refs ->
  is_Some (outcomes tz now ctx h acc refs).
Proof.
  intros Hrefs. revert acc. induction Hrefs as [|l refs [it Hl] _ IH]; intros acc;
    cbn [outcomes]; [eauto|].
  rewrite Hl. apply IH.
Qed.

Lemma weeklyLoop_returns (tz now : Z) (timeline : list TimelineDay) (n : nat)
    (plan : list (string * list PlanItem)) :
  -8640000000000000 <= now <= 8640000000000000 - 6 * 86400000 ->
  (n <= 7)%nat ->
  is_Some (weeklyLoop tz now timeline n plan).
Proof.
  intros Hnow. revert plan. induction n as [|n IH]; intros plan Hn; cbn [weeklyLoop];
    [eauto|].
  rewrite setDate_moves_days, timeClip_valid by (unfold msPerDay; lia).
  apply IH. lia.
Qed.

Lemma aggregate_returns (tz now : Z) (h : gmap nat Item) (rawItems : list nat)
    (settings : option Settings) :
  Forall (fun l => is_Some (h !! l)) rawItems ->
  -8640000000000000 <= now <= 8640000000000000 - 6 * 86400000 ->
  is_Some (aggregate tz now h rawItems settings).
Proof.
  intros Hrefs Hnow. unfold aggregate.
  destruct (outcomes_returns tz now (makeCtx tz now settings) h rawItems
              (mkAcc [] emptySections ∅) Hrefs) as [acc ->].
  unfold finalize, generateWeeklyPlan.
  destruct (weeklyLoop_returns tz now
              (map finishDay
                 (sortBy (fun a b => String.leb (date a) (date b))
                    (map snd (timelineMap acc)))) 7 [] Hnow (le_n 7)) as [plan ->].
  eauto.
Qed.

End Runs.

(** ** The claims about the aggregator *)

Section AggregatorClaims.

Import JsString Regex JsDate UpAheadService.

Lemma cacheOk_empty (h : gmap nat Item) : cacheOk (mkWorld h ∅).
Proof. intros word re. cbn. rewrite lookup_empty. discriminate. Qed.

(** C9.  Determinism of the aggregator with the clock held fixed: when a
    run over a batch returns an output, a second run over the same batch
    and settings, started from the state the first run left behind (the
    items it mutated and the pattern cache it filled), returns the same
    output: timeline, sections, weekly_plan and lastUpdated.  And a run
    does return when every element of the batch refers to an item and the
    clock is not within six days of the end of the range of time values. *)
Theorem C9_second_run_same_output (tz now : Z) (rawItems : list nat)
    (settings : option Settings) (w : World) :
  cacheOk w ->
  (forall out w1,
     processUpAheadData tz now rawItems settings w = Some (out, w1) ->
     exists w2, processUpAheadData tz now rawItems settings w1 = Some (out, w2))
  /\ (Forall (fun l => is_Some (heap w !! l)) rawItems ->
      -8640000000000000 <= now <= 8640000000000000 - 6 * 86400000 ->
      exists out w1, processUpAheadData tz now rawItems settings w = Some (out, w1)).
Proof.
  intros Hok.
  pose proof (processUpAheadData_aggregate tz now rawItems settings w Hok) as H.
  split.
  - intros out w1 Hrun.
    destruct (aggregate tz now (heap w) rawItems settings) as [out'|] eqn:Hagg;
      [|congruence].
    destruct H as (w' & Hrun' & Hok1 & Hs).
    assert (w' = w1 /\ out' = out) as [-> ->] by (split; congruence).
    pose proof (processUpAheadData_aggregate tz now rawItems settings w1 Hok1) as H1.
    rewrite <- (aggregate_sameItems tz now _ _ rawItems settings Hs), Hagg in H1.
    destruct H1 as (w2 & Hrun2 & _). now exists w2.
  - intros Hrefs Hnow.
    destruct (aggregate_returns tz now (heap w) rawItems settings Hrefs Hnow)
      as [out Hagg].
    rewrite Hagg in H. destruct H as (w1 & Hrun & _). now exists out, w1.
Qed.

Lemma C9_second_run_same_output_witness :
  exists out w1 w2,
    processUpAheadData Samples.tzIST Samples.nowIST Samples.batch None Samples.world0
    = Some (out, w1)
    /\ processUpAheadData Samples.tzIST Samples.nowIST Samples.batch None w1
       = Some (out, w2).
Proof.
  destruct (C9_second_run_same_output Samples.tzIST Samples.nowIST Samples.batch None
              Samples.world0 (cacheOk_empty _)) as [Hsame Hreturns].
  destruct Hreturns as (out & w1 & Hrun).
  - repeat constructor; vm_compute; eauto.
  - unfold Samples.nowIST. lia.
  - exists out, w1. destruct (Hsame out w1 Hrun) as [w2 Hrun2].
    exists w2. split; [exact Hrun|exact Hrun2].
Defined.

End AggregatorClaims.

(** ** The claims about the date extraction engine *)

Section DateClaims.

Import JsString Regex JsDate DateExtractor.

(** Evaluate the pattern matches on a literal text. *)
Ltac run_exec :=
  repeat match goal with
  | |- context [exec ?i ?r ?s] =>
      let v := eval vm_compute in (exec i r s) in
      replace (exec i r s) with v by (vm_compute; reflexivity)
  end.

Lemma localDay_midnight (tz d : Z) : localDay tz (d * msPerDay - tz) = d.
Proof.
  unfold localDay, msPerDay.
  replace (d * 86400000 - tz + tz) with (d * 86400000) by lia.
  now apply Z.div_mul.
Qed.

Lemma newDate_full_year (tz year month day : Z) :
  99 < year ->
  newDate tz year month day = timeClip (makeDay year month day * msPerDay - tz).
Proof.
  intros H. unfold newDate.
  destruct (Z.leb_spec year 99); [lia|]. now rewrite andb_false_r.
Qed.

Lemma localDay_within (tz d t : Z) :
  d * msPerDay - tz <= t < d * msPerDay - tz + msPerDay -> localDay tz t = d.
Proof.
  unfold localDay, msPerDay. intros H.
  symmetry. apply (Z.div_unique _ _ _ (t + tz - d * 86400000)); lia.
Qed.

(** The named layer on the two texts of the year-inference example. *)
Lemma extractDate_march5 (tz now ref : Z) :
  extractDate tz now "event on March 5" (Some (At ref))
  = Some (mkResult (inferYear tz (Some 2) 5 ref) None named).
Proof.
  unfold extractDate, extractISO, extractNamed. cbn [String.eqb Ascii.eqb].
  run_exec. reflexivity.
Qed.

Lemma extractDate_dec20 (tz now ref : Z) :
  extractDate tz now "event on Dec 20" (Some (At ref))
  = Some (mkResult (inferYear tz (Some 11) 20 ref) None named).
Proof.
  unfold extractDate, extractISO, extractNamed. cbn [String.eqb Ascii.eqb].
  run_exec. reflexivity.
Qed.

(** With a reference instant on the local day 2026-01-10, a date built in
    the reference year on local day number [d] that is not before that
    day stays in the reference year. *)
Lemma inferYear_2026 (tz ref t0 month day : Z) :
  -86400000 < tz < 86400000 ->
  newDate tz 2026 0 10 = At t0 ->
  t0 <= ref < t0 + 86400000 ->
  20463 <= makeDay 2026 month day <= 21000 ->
  inferYear tz (Some month) day ref = At (makeDay 2026 month day * msPerDay - tz).
Proof.
  intros Htz Ht0 Href Hday.
  rewrite newDate_full_year in Ht0 by lia.
  replace (makeDay 2026 0 10) with 20463 in Ht0 by (vm_compute; reflexivity).
  unfold msPerDay in *.
  rewrite timeClip_valid in Ht0 by lia. injection Ht0 as Ht0.
  assert (Hld : localDay tz ref = 20463).
  { apply localDay_within. unfold msPerDay. lia. }
  assert (Hy : getFullYear tz ref = 2026).
  { unfold getFullYear. rewrite Hld. vm_compute. reflexivity. }
  assert (Hnew : newDate tz 2026 month day
                 = At (makeDay 2026 month day * 86400000 - tz)).
  { rewrite newDate_full_year by lia. unfold msPerDay.
    apply timeClip_valid. lia. }
  unfold inferYear, monthArg. rewrite Hy, Hnew.
  destruct (Z.ltb_spec (30 * 86400000) (ref - (makeDay 2026 month day * 86400000 - tz)));
    [lia|]. now rewrite andb_false_r.
Qed.

(** C3 (as amended).  With a reference instant on the local day
    2026-01-10, [extractDate] resolves "event on March 5" to local midnight
    of 2026-03-05 and "event on Dec 20" to local midnight of 2026-12-20:
    both dates are built in the reference year 2026 and neither lies in
    the past, so neither is rolled forward; the year is 2026 in both
    cases. *)
Theorem C3_year_inference_examples (tz now ref t0 : Z) :
  -86400000 < tz < 86400000 ->
  newDate tz 2026 0 10 = At t0 ->
  t0 <= ref < t0 + 86400000 ->
  exists t1 t2,
    extractDate tz now "event on March 5" (Some (At ref))
    = Some (mkResult (At t1) None named)
    /\ At t1 = newDate tz 2026 2 5 /\ getFullYear tz t1 = 2026
    /\ extractDate tz now "event on Dec 20" (Some (At ref))
       = Some (mkResult (At t2) None named)
    /\ At t2 = newDate tz 2026 11 20 /\ getFullYear tz t2 = 2026.
Proof.
  intros Htz Ht0 Href.
  assert (Hm : makeDay 2026 2 5 = 20517) by (vm_compute; reflexivity).
  assert (Hd : makeDay 2026 11 20 = 20807) by (vm_compute; reflexivity).
  exists (20517 * msPerDay - tz), (20807 * msPerDay - tz).
  rewrite extractDate_march5, extractDate_dec20.
  rewrite (inferYear_2026 tz ref t0 2 5 Htz Ht0 Href) by (rewrite Hm; lia).
  rewrite (inferYear_2026 tz ref t0 11 20 Htz Ht0 Href) by (rewrite Hd; lia).
  rewrite !newDate_full_year by lia. rewrite Hm, Hd.
  unfold getFullYear. rewrite !localDay_midnight.
  unfold msPerDay. rewrite !timeClip_valid by lia.
  repeat split; vm_compute; reflexivity.
Qed.

Lemma C3_year_inference_examples_witness :
  exists t1 t2,
    extractDate 0 0 "event on March 5" (Some (At 1768003200000))
    = Some (mkResult (At t1) None named)
    /\ At t1 = newDate 0 2026 2 5 /\ getFullYear 0 t1 = 2026
    /\ extractDate 0 0 "event on Dec 20" (Some (At 1768003200000))
       = Some (mkResult (At t2) None named)
    /\ At t2 = newDate 0 2026 11 20 /\ getFullYear 0 t2 = 2026.
Proof.
  apply (C3_year_inference_examples 0 0 1768003200000 1768003200000).
  - lia.
  - vm_compute. reflexivity.
  - lia.
Defined.

(** C3 as stated fails: with reference date 2026-01-10 (midnight, UTC) the
    date of "event on Dec 20" is in 2026, not in 2025. *)
Lemma C3_counterexample :
  startYear 0 (extractDate 0 0 "event on Dec 20" (Some (At 1768003200000))) = Some 2026
  /\ startYear 0 (extractDate 0 0 "event on Dec 20" (Some (At 1768003200000)))
     <> Some 2025.
Proof. split; vm_compute; [reflexivity|discriminate]. Qed.

(** C1 (the defect).  On the range texts that the source documents,
    "Feb 10 to Feb 24" and "10-24 February", the range layer alone yields a
    result with start and end, but [extractDate] returns the result of the
    named layer, which runs before it: a single date with no end and kind
    [named]. *)
Theorem C1_range_shadowed_by_named (tz now ref : Z) :
  extractRange tz "Feb 10 to Feb 24" ref
  = Some (mkResult (inferYear tz (Some 1) 10 ref)
            (Some (inferYear tz (Some 1) 24 ref)) range)
  /\ extractDate tz now "Feb 10 to Feb 24" (Some (At ref))
     = Some (mkResult (inferYear tz (Some 1) 10 ref) None named)
  /\ extractRange tz "10-24 February" ref
     = Some (mkResult (inferYear tz (Some 1) 10 ref)
               (Some (inferYear tz (Some 1) 24 ref)) range)
  /\ extractDate tz now "10-24 February" (Some (At ref))
     = Some (mkResult (inferYear tz (Some 1) 24 ref) None named).
Proof.
  repeat split;
    unfold extractDate, extractISO, extractNamed, extractRange;
    cbn [String.eqb Ascii.eqb]; run_exec; reflexivity.
Qed.

(** C2 (the defect).  On the deadline texts that the source documents,
    "ends Feb 12" and "last date March 1", the deadline layer alone yields
    start = reference date, end = the named date and kind [deadline], but
    [extractDate] returns the result of the named layer, which runs before
    it: start = the named date, no end, kind [named]. *)
Theorem C2_deadline_shadowed_by_named (tz now ref : Z) :
  extractDeadline tz "ends Feb 12" ref
  = Some (mkResult (At ref) (Some (inferYear tz (Some 1) 12 ref)) deadline)
  /\ extractDate tz now "ends Feb 12" (Some (At ref))
     = Some (mkResult (inferYear tz (Some 1) 12 ref) None named)
  /\ extractDeadline tz "last date March 1" ref
     = Some (mkResult (At ref) (Some (inferYear tz (Some 2) 1 ref)) deadline)
  /\ extractDate tz now "last date March 1" (Some (At ref))
     = Some (mkResult (inferYear tz (Some 2) 1 ref) None named).
Proof.
  repeat split;
    unfold extractDate, extractISO, extractNamed, extractDeadline;
    cbn [String.eqb Ascii.eqb]; run_exec; reflexivity.
Qed.

Lemma namedTail_starts_with_letter {A : Type}
    (k : option ascii -> string -> captures -> option A) prev s c x :
  rmatch true namedTail prev s c k = Some x -> wordAfter s = true.
Proof.
  unfold namedTail. cbn [Seqs rmatch]. unfold monthNames. intros H.
  apply rmatch_Alts_Lit in H as [Hnil|Hex]; [vm_compute in Hnil; discriminate|].
  apply Exists_exists in Hex as (w & Hw & [[p t] Hlit]).
  assert (Hfirst : exists y w', w = String y w' /\ isLowerLetter y = true).
  { revert Hw. generalize w. apply Forall_forall. vm_compute.
    repeat (constructor; [eexists _, _; split; reflexivity|]). constructor. }
  destruct Hfirst as (y & w' & -> & Hy). cbn [matchLit] in Hlit.
  destruct s as [|a s]; [discriminate|].
  destruct (chrMatches true y a) eqn:Ha; [|discriminate].
  cbn [wordAfter]. eapply letter_matches_word; eassumption.
Qed.

(** Wherever the deadline pattern matches, the pattern of the named layer
    matches as well: at the named date that ends the deadline phrase. *)
Lemma deadline_has_named_date (text : string) :
  is_Some (exec true deadlineRe text) -> is_Some (exec true monthDayRe text).
Proof.
  intros [m Hm]. unfold exec in *.
  apply execFrom_position in Hm as (p & s & Hr & Hm).
  change deadlineRe
    with (Seq WordBoundary
            (Seq (Alts [Seq (Lit "end") (Opt (Chr "s")); Lit "last date"; Lit "deadline";
                        Seq (Lit "valid ") (Alts [Lit "till"; Lit "until"]);
                        Seq (Lit "expire") (Opt (Chr "s")); Lit "before"])
               (Seq (Plus Space)
                  (Seq (Opt (Seq (Lit "on") (Plus Space))) namedTail)))) in Hm.
  cbn [rmatch] in Hm. destruct (xorb _ _); [|discriminate].
  apply rmatch_continues in Hm as (p1 & s1 & c1 & Hm & Hr1).
  apply rmatch_Plus_Space in Hm as (sp & s2 & c2 & Hsp & Hm & Hr2).
  assert (Htail : exists sp' s' c',
            isSpace sp' = true
            /\ rmatch true namedTail (Some sp') s' c' (fun _ _ c => Some c) = Some m
            /\ readOn (Some sp) s2 (Some sp') s').
  { unfold Opt in Hm. cbn [rmatch] in Hm.
    destruct (rmatch true (Lit "on") (Some sp) s2 c2 _) eqn:Hon.
    - injection Hm as ->.
      apply rmatch_continues in Hon as (p3 & s3 & c3 & Hon & Hr3).
      apply rmatch_Plus_Space in Hon as (sp' & s4 & c4 & Hsp' & Hon & Hr4).
      exists sp', s4, c4. split; [assumption|]. split; [assumption|].
      eapply readOn_trans; eassumption.
    - exists sp, s2, c2. split; [assumption|]. split; [assumption|apply readOn_refl]. }
  destruct Htail as (sp' & s' & c' & Hsp' & Htail & Hr3).
  apply (execFrom_complete true monthDayRe None (Some sp') text s').
  { repeat (eapply readOn_trans; [eassumption|]). apply readOn_refl. }
  change monthDayRe with (Seq WordBoundary namedTail). cbn [rmatch wordBefore].
  rewrite (space_not_word _ Hsp'), (namedTail_starts_with_letter _ _ _ _ _ Htail).
  cbn [xorb].
  apply (rmatch_success true namedTail (fun _ _ c => Some c) (fun _ _ c => Some c)
           (Some sp') s' c' []); [eauto|]. rewrite Htail. eauto.
Qed.

Lemma if_intro {A : Type} (P : A -> Prop) (b : bool) (x y : A) :
  P x -> P y -> P (if b then x else y).
Proof. now destruct b. Qed.

Lemma option_match_intro {A B : Type} (P : B -> Prop) (o : option A) (f : A -> B) (y : B) :
  (forall a, P (f a)) -> P y -> P (match o with Some a => f a | None => y end).
Proof. destruct o; auto. Qed.

Lemma extractRelative_type (tz : Z) (text : string) (ref : Z) (r : DateResult) :
  extractRelative tz text ref = Some r -> type r = relative.
Proof.
  assert (H : match extractRelative tz text ref with
              | Some r' => type r' = relative
              | None => True
              end).
  { unfold extractRelative.
    repeat first [ apply (if_intro (fun o => match o with
                                             | Some r' => type r' = relative
                                             | None => True
                                             end))
                 | apply (option_match_intro (fun o => match o with
                                                       | Some r' => type r' = relative
                                                       | None => True
                                                       end)); [intros ?|]
                 | reflexivity
                 | exact I ]. }
  destruct (extractRelative tz text ref); [|discriminate].
  now intros [= <-].
Qed.

(** The deadline layer is never reached with a match: whenever its pattern
    matches, the named layer, which runs before it, has matched already.
    So no result of [extractDate] has kind [deadline]. *)
Lemma extractDate_never_deadline (tz now : Z) (text : string) (pubDate : option Date)
    (r : DateResult) :
  extractDate tz now text pubDate = Some r -> type r <> deadline.
Proof.
  unfold extractDate. destruct (String.eqb text ""); [discriminate|].
  destruct (match pubDate with Some d => d | None => At now end) as [|ref];
    [discriminate|].
  unfold extractISO.
  destruct (exec false isoRe text); [intros [= <-]; discriminate|].
  destruct (exec false dmyRe text); [intros [= <-]; discriminate|].
  cbn [orElse]. unfold extractNamed.
  pose proof (deadline_has_named_date text) as Hnamed.
  destruct (exec true monthDayRe text); [intros [= <-]; discriminate|].
  assert (Hdead : exec true deadlineRe text = None).
  { destruct (exec true deadlineRe text); [|reflexivity].
    destruct Hnamed as [? [=]]. eauto. }
  destruct (exec true dayMonthRe text); [intros [= <-]; discriminate|].
  cbn [orElse]. unfold extractRange.
  destruct (exec true rangeRe1 text); [intros [= <-]; discriminate|].
  destruct (exec true rangeRe2 text); [intros [= <-]; discriminate|].
  destruct (exec true rangeRe3 text); [intros [= <-]; discriminate|].
  cbn [orElse].
  destruct (extractRelative tz text ref) as [r'|] eqn:Hrel.
  - intros [= <-]. rewrite (extractRelative_type _ _ _ _ Hrel). discriminate.
  - cbn [orElse]. unfold extractDeadline. rewrite Hdead. discriminate.
Qed.

End DateClaims.

(** ** The claims about the planner store *)

Section PlannerClaims.

Import JsString JsDate PlannerStorage.

Lemma duplicates_stamped (now : Z) (x item : PlannerItem) :
  duplicates x (stamped now item) = duplicates x item.
Proof. reflexivity. Qed.

Lemma isDuplicate_false (day : list PlannerItem) (item : PlannerItem) :
  isDuplicate day item = false <-> Forall (fun x => duplicates x item = false) day.
Proof.
  unfold isDuplicate. induction day as [|x day IH]; cbn [existsb].
  - split; auto.
  - rewrite orb_false_iff, Forall_cons_iff, IH. reflexivity.
Qed.

Lemma isDuplicate_app (day more : list PlannerItem) (item : PlannerItem) :
  isDuplicate day item = true -> isDuplicate (day ++ more) item = true.
Proof.
  unfold isDuplicate. rewrite existsb_app. intros ->. reflexivity.
Qed.

Lemma distinctDay_snoc (day : list PlannerItem) (y : PlannerItem) :
  distinctDay day -> Forall (fun x => duplicates x y = false) day ->
  distinctDay (day ++ [y]).
Proof.
  unfold distinctDay. induction 1 as [|x day Hx Hday IH]; intros Hy; cbn [app].
  - constructor; constructor.
  - apply Forall_cons_iff in Hy as [Hxy Hy]. constructor.
    + apply Forall_app. split; [assumption|]. constructor; [assumption|constructor].
    + now apply IH.
Qed.

(** The inner loop of [merge] only appends; afterwards every incoming item
    has a duplicate in the day (itself, if it was pushed); and it keeps a
    day free of duplicates. *)
Lemma mergeItems_spec (now : Z) (items day : list PlannerItem) :
  (exists added, mergeItems now day items = (day ++ added)%list)
  /\ (forall item, In item items -> isDuplicate (mergeItems now day items) item = true)
  /\ (distinctDay day -> distinctDay (mergeItems now day items)).
Proof.
  revert day. induction items as [|item items IH]; intros day; cbn [mergeItems].
  - split; [exists []; now rewrite app_nil_r|]. split; [intros ? []|auto].
  - destruct (isDuplicate day item) eqn:Hdup.
    + destruct (IH day) as ((added & Hadd) & Hcov & Hdist).
      split; [now exists added|]. split; [|assumption].
      intros item' [<-|Hin]; [|now apply Hcov].
      rewrite Hadd. now apply isDuplicate_app.
    + fold (stamped now item).
      destruct (IH (day ++ [stamped now item])%list) as ((added & Hadd) & Hcov & Hdist).
      split; [exists (stamped now item :: added); now rewrite Hadd, <- app_assoc|].
      split.
      * intros item' [<-|Hin]; [|now apply Hcov].
        rewrite Hadd. apply isDuplicate_app.
        unfold isDuplicate. rewrite existsb_app. cbn [existsb].
        unfold duplicates at 2. cbn [id stamped].
        rewrite String.eqb_refl. cbn [orb]. now rewrite orb_true_r.
      * intros Hd. apply Hdist. apply distinctDay_snoc; [assumption|].
        apply isDuplicate_false in Hdup.
        eapply Forall_impl; [exact Hdup|]. intros x Hx. exact Hx.
Qed.

Lemma dayItems_insert (data : gmap string (list PlannerItem)) (k k' : string)
    (l : list PlannerItem) :
  dayItems (<[k := l]> data) k' = if decide (k = k') then l else dayItems data k'.
Proof. unfold dayItems. rewrite lookup_insert. now case_decide. Qed.

(** The outer loop of [merge]: a day that is not merged into is left
    alone, every day only grows, every incoming item has a duplicate in
    every merged day, and days free of duplicates stay so. *)
Lemma mergeKeys_spec (now : Z) (items : list PlannerItem) (dateKeys : list string)
    (data : gmap string (list PlannerItem)) :
  (forall k, ~ In k dateKeys -> mergeKeys now data dateKeys items !! k = data !! k)
  /\ (forall k, exists added,
        dayItems (mergeKeys now data dateKeys items) k = (dayItems data k ++ added)%list)
  /\ (forall k item, In k dateKeys -> In item items ->
        isDuplicate (dayItems (mergeKeys now data dateKeys items) k) item = true)
  /\ ((forall k, distinctDay (dayItems data k)) ->
      forall k, distinctDay (dayItems (mergeKeys now data dateKeys items) k)).
Proof.
  revert data. induction dateKeys as [|key dateKeys IH]; intros data; cbn [mergeKeys].
  - split; [auto|]. split; [intros k; exists []; now rewrite app_nil_r|].
    split; [intros ? ? []|auto].
  - destruct (IH (<[key := mergeItems now (dayItems data key) items]> data))
      as (Hout & Hgrow & Hcov & Hdist).
    destruct (mergeItems_spec now items (dayItems data key)) as ((added & Hadd) & Hcov1 & Hdist1).
    split.
    { intros k Hk. rewrite Hout by (intros Hin; apply Hk; now right).
      rewrite lookup_insert_ne; [reflexivity|]. intros ->. apply Hk. now left. }
    split.
    { intros k. destruct (Hgrow k) as [more Hmore]. rewrite Hmore, dayItems_insert.
      case_decide as Hd.
      - subst k. rewrite Hadd, <- app_assoc. now eexists.
      - now eexists. }
    split.
    { intros k item [<-|Hin] Hitem; [|now apply Hcov].
      destruct (Hgrow key) as [more Hmore]. rewrite Hmore, dayItems_insert.
      rewrite decide_True by reflexivity. apply isDuplicate_app. now apply Hcov1. }
    { intros Hd. apply Hdist. intros k. rewrite dayItems_insert.
      case_decide; [apply Hdist1|]; apply Hd. }
Qed.

(** Jaccard similarity above 0.7, on the sizes of the word sets. *)
Lemma similar_iff (a b : string) :
  similar a b = true
  <-> (7 * size (wordSet a ∪ wordSet b) < 10 * size (wordSet a ∩ wordSet b))%nat.
Proof.
  unfold similar, similarity.
  set (wa := wordSet a). set (wb := wordSet b).
  assert (Hu : size (wa ∪ wb) = (size wa + size wb - size (wa ∩ wb))%nat).
  { pose proof (size_union_alt wa wb) as H1.
    pose proof (size_difference_alt wb wa) as H2.
    assert (Hle' : (size (wb ∩ wa) <= size wb)%nat)
      by (apply subseteq_size, intersection_subseteq_l).
    replace (wb ∩ wa) with (wa ∩ wb) in * by apply (comm_L (∩)).
    lia. }
  rewrite Hu.
  assert (Hle : (size (wa ∩ wb) <= size wa)%nat)
    by (apply subseteq_size, intersection_subseteq_l).
  assert (Hle2 : (size (wa ∩ wb) <= size wb)%nat)
    by (apply subseteq_size, intersection_subseteq_r).
  assert (Hpos : (0 < size wa)%nat).
  { assert (Hne : forall s cur inSep, splitSpacesAux cur inSep s <> []).
    { induction s as [|c s IH]; intros cur inSep; cbn [splitSpacesAux];
        [discriminate|].
      destruct (isSpace c); [destruct inSep|]; [apply IH|discriminate|apply IH]. }
    specialize (Hne (toLowerCase a) EmptyString false).
    unfold wa, wordSet, splitSpaces.
    destruct (splitSpacesAux "" false (toLowerCase a)) as [|x xs]; [congruence|].
    cbn [list_to_set].
    assert (Hx : (size ({[x]} : gset string)
                  <= size ({[x]} ∪ list_to_set xs : gset string))%nat)
      by (apply subseteq_size, union_subseteq_l).
    rewrite size_singleton in Hx. lia. }
  rewrite negb_true_iff. unfold Qle_bool. cbn [Qnum Qden].
  rewrite Z.leb_gt.
  set (i := size (wa ∩ wb)) in *. set (u := (size wa + size wb - i)%nat).
  assert (0 < u)%nat by (unfold u; lia).
  rewrite <- (Pos2Z.inj_mul). change (Z.pos (7 * 10)) with 70%Z.
  replace (Z.pos (Pos.of_nat u)) with (Z.of_nat u) by (destruct u; [lia|]; lia).
  lia.
Qed.

Lemma duplicates_iff (x y : PlannerItem) :
  duplicates x y = true
  <-> id x = id y
      \/ (title x <> "" /\ title y <> ""
          /\ (7 * size (wordSet (title x) ∪ wordSet (title y))
              < 10 * size (wordSet (title x) ∩ wordSet (title y)))%nat).
Proof.
  unfold duplicates, nonEmpty.
  rewrite orb_true_iff, !andb_true_iff, !negb_true_iff, String.eqb_eq,
    !String.eqb_neq, similar_iff.
  tauto.
Qed.

Lemma prune_lookup (tz now : Z) (data pruned : gmap string (list PlannerItem)) :
  prune tz now data = Some pruned ->
  exists cutoff,
    cutoffKey tz now = Some cutoff
    /\ forall k, pruned !! k = if lt k cutoff then None else data !! k.
Proof.
  unfold prune. destruct (cutoffKey tz now) as [cutoff|]; [|discriminate].
  intros [= <-]. exists cutoff. split; [reflexivity|]. intros k.
  destruct (lt k cutoff) eqn:Hk.
  - apply map_lookup_filter_None. right. intros l _. cbn. congruence.
  - destruct (data !! k) as [l|] eqn:Hl.
    + apply map_lookup_filter_Some. split; [assumption|exact Hk].
    + apply map_lookup_filter_None. now left.
Qed.

Lemma load_save (data : gmap string (list PlannerItem)) (ls : LocalStorage) :
  writable ls = true -> load (save data ls) = data.
Proof. unfold save. now intros ->. Qed.

Lemma merge_into_empty (tz now : Z) (key : string) (items : list PlannerItem) :
  merge tz now [key] items Samples.emptyStorage
  = option_map (fun _ => mkStorage (Some (<[key := mergeItems now [] items]> ∅)) true)
      (cutoffKey tz now).
Proof.
  unfold merge, prune, Samples.emptyStorage. cbn [load entry].
  destruct (cutoffKey tz now); [|reflexivity].
  cbn [option_map]. rewrite map_filter_empty. cbn [mergeKeys].
  unfold dayItems. rewrite lookup_empty. reflexivity.
Qed.

Lemma merge_inv (tz now : Z) (dateKeys : list string) (items : list PlannerItem)
    (ls ls' : LocalStorage) :
  merge tz now dateKeys items ls = Some ls' ->
  exists pruned,
    prune tz now (load ls) = Some pruned
    /\ ls' = save (mergeKeys now pruned dateKeys items) ls.
Proof.
  unfold merge. destruct (prune tz now (load ls)) as [pruned|]; [|discriminate].
  intros [= <-]. now exists pruned.
Qed.

Lemma getAll_inv (tz now : Z) (ls ls' : LocalStorage)
    (data : gmap string (list PlannerItem)) :
  getAll tz now ls = Some (data, ls') ->
  prune tz now (load ls) = Some data /\ ls' = save data ls.
Proof.
  unfold getAll. destruct (prune tz now (load ls)) as [pruned|]; [|discriminate].
  intros [= <- <-]. auto.
Qed.

Lemma merge_covers_and_keeps_distinct (tz now : Z) (dateKeys : list string)
    (items : list PlannerItem) (ls ls' : LocalStorage) :
  merge tz now dateKeys items ls = Some ls' ->
  writable ls = true ->
  (forall k item, In k dateKeys -> In item items ->
     isDuplicate (getDay ls' k) item = true)
  /\ ((forall k, distinctDay (getDay ls k)) -> forall k, distinctDay (getDay ls' k)).
Proof.
  intros Hmerge Hw.
  destruct (merge_inv _ _ _ _ _ _ Hmerge) as (pruned & Hprune & ->).
  destruct (prune_lookup _ _ _ _ Hprune) as (cutoff & Hcut & Hpruned).
  destruct (mergeKeys_spec now items dateKeys pruned) as (_ & _ & Hcov & Hdist).
  split.
  - intros k item Hk Hitem. unfold getDay. rewrite load_save by assumption.
    now apply Hcov.
  - intros Hd k. unfold getDay. rewrite load_save by assumption.
    apply Hdist. intros k'. unfold dayItems. rewrite Hpruned.
    destruct (lt k' cutoff); [constructor|]. apply Hd.
Qed.

Lemma cityConcert_similarity :
  similarity "City Concert This Weekend" "City Concert this Weekend!!" = (3 # 5)%Q
  /\ similar "City Concert This Weekend" "City Concert this Weekend!!" = false.
Proof. split; vm_compute; reflexivity. Qed.

Lemma cityConcert_merged (tz now : Z) (key : string) (item2 : PlannerItem) (n : nat) :
  length (mergeItems now [] [Samples.cityConcert1; item2]) = n ->
  option_map (fun s => length (getDay s key))
    (merge tz now [key] [Samples.cityConcert1; item2] Samples.emptyStorage)
  = option_map (fun _ => n) (cutoffKey tz now).
Proof.
  intros Hn. rewrite merge_into_empty. destruct (cutoffKey tz now); [|reflexivity].
  cbn [option_map]. f_equal. unfold getDay, dayItems. cbn [load entry].
  rewrite lookup_insert_eq. exact Hn.
Qed.

(** C6 (as amended).  A merge deduplicates by id equality or by a word-set
    Jaccard similarity of the titles strictly above 0.7 (intersection over
    union of the lower-cased, whitespace-tokenized word sets): after a
    merge that is written back, every incoming item has such a duplicate
    in every merged day, and a store whose days were free of duplicates
    stays so.  The titles 'City Concert This Weekend' and 'City Concert
    this Weekend!!' have similarity 3/5, which is not above 0.7 (the
    tokens 'weekend' and 'weekend!!' differ): merged into one day under
    distinct ids they give two stored records, and one record only when
    they share their id. *)
Theorem C6_merge_deduplicates (tz now : Z) (dateKeys : list string)
    (items : list PlannerItem) (ls ls' : LocalStorage) :
  merge tz now dateKeys items ls = Some ls' ->
  writable ls = true ->
  (forall x y,
     duplicates x y = true
     <-> id x = id y
         \/ (title x <> "" /\ title y <> ""
             /\ (7 * size (wordSet (title x) ∪ wordSet (title y))
                 < 10 * size (wordSet (title x) ∩ wordSet (title y)))%nat))
  /\ (forall k item, In k dateKeys -> In item items ->
       isDuplicate (getDay ls' k) item = true)
  /\ ((forall k, distinctDay (getDay ls k)) -> forall k, distinctDay (getDay ls' k))
  /\ similarity "City Concert This Weekend" "City Concert this Weekend!!" = (3 # 5)%Q
  /\ similar "City Concert This Weekend" "City Concert this Weekend!!" = false
  /\ (forall key,
       option_map (fun s => length (getDay s key))
         (merge tz now [key] [Samples.cityConcert1; Samples.cityConcert2]
            Samples.emptyStorage)
       = option_map (fun _ => 2%nat) (cutoffKey tz now))
  /\ (forall key,
       option_map (fun s => length (getDay s key))
         (merge tz now [key]
            [Samples.cityConcert1;
             mkPlannerItem "a" "City Concert this Weekend!!" "events"
               "https://example.org/b" None]
            Samples.emptyStorage)
       = option_map (fun _ => 1%nat) (cutoffKey tz now)).
Proof.
  intros Hmerge Hw.
  destruct (merge_covers_and_keeps_distinct _ _ _ _ _ _ Hmerge Hw) as [Hcov Hdist].
  destruct cityConcert_similarity as [Hq Hs].
  split; [exact duplicates_iff|].
  split; [exact Hcov|].
  split; [exact Hdist|].
  split; [exact Hq|].
  split; [exact Hs|].
  split; intros key; apply cityConcert_merged; vm_compute; reflexivity.
Qed.

Lemma C6_merge_deduplicates_witness :
  isDuplicate
    (getDay (mkStorage (Some {["2026-02-14" := [stamped 1770697800000 Samples.cityConcert1;
                                              stamped 1770697800000 Samples.cityConcert2]]})
               true) "2026-02-14")
    Samples.cityConcert2 = true.
Proof.
  refine (proj1 (proj2 (C6_merge_deduplicates 0 1770697800000 ["2026-02-14"]
                         [Samples.cityConcert1; Samples.cityConcert2]
                         Samples.emptyStorage _ _ _)) "2026-02-14" Samples.cityConcert2 _ _).
  - vm_compute. reflexivity.
  - reflexivity.
  - now left.
  - right. now left.
Defined.

(** C6 as stated fails: merged into the same day of an empty store, the
    two items titled 'City Concert This Weekend' and 'City Concert this
    Weekend!!' (with ids "a" and "b") are both stored. *)
Lemma C6_counterexample :
  option_map (fun s => length (getDay s "2026-02-14"))
    (merge 0 1770697800000 ["2026-02-14"] [Samples.cityConcert1; Samples.cityConcert2]
       Samples.emptyStorage)
  = Some 2%nat.
Proof. vm_compute. reflexivity. Qed.




End PlannerClaims.

(** ** The claims about the relevance filter *)

Section FilterClaims.

Import JsString Regex JsDate UpAheadService.

Lemma startsWith_spec (s p : string) :
  startsWith s p = true <-> exists post, s = p +:+ post.
Proof.
  revert s. induction p as [|a p IH]; intros s; cbn [startsWith].
  - split; [intros _; now exists s|reflexivity].
  - destruct s as [|b s].
    + split; [discriminate|]. intros [post H]. discriminate H.
    + rewrite andb_true_iff, Ascii.eqb_eq, IH. split.
      * intros [-> [post ->]]. now exists post.
      * intros [post H]. rewrite append_cons in H. injection H as -> ->.
        split; [reflexivity|now exists post].
Qed.

(** [includes] is plain substring containment. *)
Lemma includes_spec (s p : string) :
  includes s p = true <-> exists pre post, s = pre +:+ p +:+ post.
Proof.
  induction s as [|b s IH].
  - cbn [includes]. rewrite orb_false_r, startsWith_spec. split.
    + intros [post H]. now exists EmptyString, post.
    + intros (pre & post & H). destruct pre; [now exists post|discriminate H].
  - cbn [includes]. rewrite orb_true_iff, startsWith_spec, IH. split.
    + intros [[post H]|(pre & post & H)].
      * now exists EmptyString, post.
      * exists (String b pre), post. rewrite append_cons. now f_equal.
    + intros (pre & post & H). destruct pre as [|c pre].
      * left. now exists post.
      * right. rewrite append_cons in H. injection H as -> ->. now exists pre, post.
Qed.

Lemma itemOutcome_withoutNegatives (tz now : Z) (ctx : Ctx) (acc : Acc) (it : Item) :
  negativeDrop ctx (fullTextOf it) = false ->
  itemOutcome tz now (withoutNegatives ctx) acc it = itemOutcome tz now ctx acc it.
Proof.
  intros Hneg. unfold itemOutcome. rewrite Hneg.
  assert (Hnone : negativeDrop (withoutNegatives ctx) (fullTextOf it) = false).
  { unfold negativeDrop, withoutNegatives. cbn [mergedNegatives existsb].
    apply andb_false_r. }
  rewrite Hnone. reflexivity.
Qed.

(** C7 (as amended).  For an item that reaches the negative filter (new
    id, fresh, not stale) and matches a negative keyword: if its lower-cased
    full text, title and description together, lacks one of the patterns
    [/ott|releases|week|weekend/i] and [/\d+ new/i], the item is dropped;
    if the full text matches both, the item is exempted, that is, the round
    goes on as if there were no negative keywords.  The [isRoundup] flag
    of the item plays no part in the exemption. *)
Theorem C7_roundup_exemption_on_full_text (tz now : Z) (ctx : Ctx) (acc : Acc)
    (l : nat) (w : World) (it : Item) :
  cacheOk w -> heap w !! l = Some it ->
  id it ∉ seenIds acc ->
  isFresh now (maxAgeMs ctx) it = true ->
  isStale (fullTextOf it) = false ->
  existsb (fun k => matchesKeywordPure (fullTextOf it) (toLowerCase k))
    (mergedNegatives ctx) = true ->
  (test true roundupWordsRe (fullTextOf it) && test true countNewRe (fullTextOf it) = false ->
   exists w', processItem tz now ctx acc l w = Some (dropped acc it, w'))
  /\ (test true roundupWordsRe (fullTextOf it) && test true countNewRe (fullTextOf it) = true ->
      exists w', processItem tz now ctx acc l w
                 = Some (itemOutcome tz now (withoutNegatives ctx) acc it, w')).
Proof.
  intros Hok Hl Hnew Hfresh Hstale Hneg.
  destruct (processItem_outcome tz now ctx acc l w it Hok Hl) as (w' & Hrun & _).
  fold (roundupText (fullTextOf it)).
  split; intros Hround; exists w'; rewrite Hrun; f_equal; f_equal.
  - unfold itemOutcome. rewrite (decide_False _ _ Hnew), Hfresh, Hstale.
    unfold negativeDrop. rewrite Hround, Hneg. reflexivity.
  - rewrite itemOutcome_withoutNegatives; [reflexivity|].
    unfold negativeDrop. now rewrite Hround.
Qed.

Lemma C7_roundup_exemption_on_full_text_witness :
  exists w',
    processItem Samples.tzIST Samples.nowIST (makeCtx Samples.tzIST Samples.nowIST None)
      (mkAcc [] emptySections ∅) 5 Samples.world5
    = Some (itemOutcome Samples.tzIST Samples.nowIST
              (withoutNegatives (makeCtx Samples.tzIST Samples.nowIST None))
              (mkAcc [] emptySections ∅) Samples.shockingScenes, w').
Proof.
  refine (proj2 (C7_roundup_exemption_on_full_text Samples.tzIST Samples.nowIST
                   (makeCtx Samples.tzIST Samples.nowIST None)
                   (mkAcc [] emptySections ∅) 5 Samples.world5 Samples.shockingScenes
                   (cacheOk_empty _) _ _ _ _ _) _).
  - vm_compute. reflexivity.
  - cbn [seenIds]. apply not_elem_of_empty.
  - vm_compute. reflexivity.
  - vm_compute. reflexivity.
  - vm_compute. reflexivity.
  - vm_compute. reflexivity.
Defined.

(** C7 as stated fails: the item [shockingScenes] matches the negative
    keyword "shocking", its title lacks the count pattern, so that it is not
    flagged as a roundup, its description has "3 new" and "week"; it is
    exempted from the negative filter and reaches the timeline. *)
Lemma C7_counterexample :
  matchesKeywordPure (fullTextOf Samples.shockingScenes) "shocking" = true
  /\ In "shocking" ALL_NEGATIVE_KEYWORDS
  /\ detectRoundup (title Samples.shockingScenes) = false
  /\ isRoundup Samples.shockingScenes = false
  /\ option_map (fun r => map (fun d => map t_id (items d)) (timeline (fst r)))
       (processUpAheadData Samples.tzIST Samples.nowIST [5%nat] None Samples.world5)
     = Some [["g5"]].
Proof.
  split; [vm_compute; reflexivity|].
  split; [vm_compute; tauto|].
  split; [vm_compute; reflexivity|].
  split; vm_compute; reflexivity.
Qed.

End FilterClaims.

(** ** The claims about the timeline *)

Section TimelineClaims.

Import JsString Regex JsDate UpAheadService.

Lemma mapPush_keyed (ctx : Ctx) (m : list (string * TimelineDay)) (k : string)
    (ti : TimelineItem) :
  Forall (keyedFromToday ctx) m -> Forall (keyedFromToday ctx) (mapPush m k ti).
Proof.
  induction 1 as [|[k' day] m Hkd Hm IH]; cbn [mapPush]; [constructor|].
  destruct (String.eqb k' k); constructor; auto.
Qed.

Lemma populateTimeline_keyed (tz now : Z) (ctx : Ctx) (it : Item)
    (m : list (string * TimelineDay)) :
  Forall (keyedFromToday ctx) m ->
  Forall (keyedFromToday ctx) (populateTimeline tz now ctx it m).
Proof.
  intros Hm. unfold populateTimeline.
  destruct (targetDateOf now ctx it) as [[|target]|]; try assumption.
  destruct (dateGe (At target) (today ctx)) eqn:Hge; [|assumption].
  apply mapPush_keyed.
  destruct (mapHas m (isoDateKey target)); [assumption|].
  apply Forall_app. split; [assumption|]. constructor; [|constructor].
  split; [reflexivity|]. cbn [snd date].
  unfold dateGe in Hge. destruct (today ctx) as [|t0]; [discriminate|].
  exists target, t0. apply Z.leb_le in Hge. auto.
Qed.

Lemma itemOutcome_keyed (tz now : Z) (ctx : Ctx) (acc : Acc) (it : Item) :
  Forall (keyedFromToday ctx) (timelineMap acc) ->
  Forall (keyedFromToday ctx) (timelineMap (itemOutcome tz now ctx acc it)).
Proof.
  intros Hm. unfold itemOutcome.
  destruct (decide (id it ∈ seenIds acc)); [assumption|].
  destruct (_ || _); [assumption|].
  destruct (populateSections _ _ _ _); [|assumption].
  cbn [timelineMap]. now apply populateTimeline_keyed.
Qed.

Lemma outcomes_keyed (tz now : Z) (ctx : Ctx) (h : gmap nat Item) (refs : list nat)
    (acc acc' : Acc) :
  outcomes tz now ctx h acc refs = Some acc' ->
  Forall (keyedFromToday ctx) (timelineMap acc) ->
  Forall (keyedFromToday ctx) (timelineMap acc').
Proof.
  revert acc. induction refs as [|l refs IH]; intros acc; cbn [outcomes].
  - now intros [= <-].
  - destruct (h !! l) as [it|]; [|discriminate].
    intros Hrun Hm. apply (IH _ Hrun). now apply itemOutcome_keyed.
Qed.

Lemma insertSorted_In {A : Type} (le : A -> A -> bool) (x y : A) (l : list A) :
  In y (insertSorted le x l) <-> y = x \/ In y l.
Proof.
  induction l as [|z l IH]; cbn [insertSorted In].
  - intuition congruence.
  - destruct (le z x); cbn [In]; [rewrite IH|]; intuition congruence.
Qed.

Lemma sortBy_In {A : Type} (le : A -> A -> bool) (y : A) (l : list A) :
  In y (sortBy le l) <-> In y l.
Proof.
  unfold sortBy.
  assert (H : forall sorted, In y (fold_left (fun s x => insertSorted le x s) l sorted)
                             <-> In y sorted \/ In y l).
  { induction l as [|x l IH]; intros sorted; cbn [fold_left In]; [tauto|].
    rewrite IH, insertSorted_In. intuition congruence. }
  rewrite H. cbn [In]. tauto.
Qed.

Lemma aggregate_inv (tz now : Z) (h : gmap nat Item) (rawItems : list nat)
    (settings : option Settings) (out : Output) :
  aggregate tz now h rawItems settings = Some out ->
  exists acc,
    outcomes tz now (makeCtx tz now settings) h (mkAcc [] emptySections ∅) rawItems
    = Some acc
    /\ timeline out
       = map finishDay
           (sortBy (fun a b => String.leb (date a) (date b)) (map snd (timelineMap acc))).
Proof.
  unfold aggregate.
  destruct (outcomes tz now (makeCtx tz now settings) h (mkAcc [] emptySections ∅)
              rawItems) as [acc|]; [|discriminate].
  unfold finalize. destruct (generateWeeklyPlan _ _ _); [|discriminate].
  intros [= <-]. now exists acc.
Qed.

Lemma run_inv (tz now : Z) (rawItems : list nat) (settings : option Settings)
    (w w' : World) (out : Output) :
  cacheOk w ->
  processUpAheadData tz now rawItems settings w = Some (out, w') ->
  aggregate tz now (heap w) rawItems settings = Some out.
Proof.
  intros Hok Hrun.
  pose proof (processUpAheadData_aggregate tz now rawItems settings w Hok) as H.
  destruct (aggregate tz now (heap w) rawItems settings) as [out'|]; [|congruence].
  destruct H as (w1 & Hrun1 & _). congruence.
Qed.

(** The guard of the timeline: every day of the output timeline carries
    the ISO date key of an instant that is not before local midnight of
    the day of the run, so that an item whose target date is strictly
    before today is in no timeline bucket. *)
Lemma timeline_keys_from_today (tz now : Z) (rawItems : list nat)
    (settings : option Settings) (w w' : World) (out : Output) :
  cacheOk w ->
  processUpAheadData tz now rawItems settings w = Some (out, w') ->
  forall day, In day (timeline out) ->
    exists t t0,
      setHoursZero tz (At now) = At t0 /\ t0 <= t /\ date day = isoDateKey t.
Proof.
  intros Hok Hrun day Hday.
  destruct (aggregate_inv _ _ _ _ _ _ (run_inv _ _ _ _ _ _ _ Hok Hrun)) as (acc & Hacc & Htl).
  apply outcomes_keyed in Hacc; [|constructor].
  rewrite Htl in Hday.
  apply in_map_iff in Hday as (day0 & <- & Hday0).
  apply sortBy_In, in_map_iff in Hday0 as ([k d] & Hd & Hin).
  cbn [snd] in Hd. subst d.
  rewrite Forall_forall in Hacc. apply list_elem_of_In in Hin.
  destruct (Hacc _ Hin) as (_ & t & t0 & Ht0 & Hle & Hdate).
  exists t, t0. split; [exact Ht0|]. split; [exact Hle|exact Hdate].
Qed.

(** C10 (the defect).  In a browser set to UTC+05:30, a run at 10:00 local
    time on 2026-02-10 over a weather alert published an hour before puts
    the alert in a timeline day labelled "Today" whose date key is
    "2026-02-09", the day before the day of the run in local time and in
    UTC: the key is the UTC date of local midnight. *)
Theorem C10_today_keyed_as_yesterday :
  toDateString Samples.tzIST (At Samples.nowIST) = "Tue Feb 10 2026"
  /\ toISOString Samples.nowIST = "2026-02-10T04:30:00.000Z"
  /\ option_map
       (fun r => map (fun d => (date d, dayLabel d, map t_id (items d)))
                   (timeline (fst r)))
       (processUpAheadData Samples.tzIST Samples.nowIST [1%nat] None Samples.world0)
     = Some [("2026-02-09", "Today", ["g1"])]
  /\ String.ltb "2026-02-09" "2026-02-10" = true.
Proof.
  split; [vm_compute; reflexivity|].
  split; [vm_compute; reflexivity|].
  split; vm_compute; reflexivity.
Qed.

End TimelineClaims.
(** ** The matcher and the declarative reading of patterns *)

Section MatcherSemantics.

Import JsString Regex.

(** The matcher is sound for the declarative reading: a match that
    succeeds has followed a derivation up to the position where its
    continuation succeeded. *)
Lemma rmatch_sound {A : Type} (icase : bool) (r : regex) :
  forall (k : option ascii -> string -> captures -> option A) prev s c x,
    rmatch icase r prev s c k = Some x ->
    exists prev' s' c',
      Matches icase r prev s c prev' s' c' /\ k prev' s' c' = Some x.
Proof.
  induction r as [| y | p | | r1 IH1 r2 IH2 | r1 IH1 r2 IH2 | r IH | n r IH];
    intros k prev s c x.
  - cbn [rmatch]. intros H. exists prev, s, c. split; [constructor|assumption].
  - cbn [rmatch]. destruct s as [|a s]; [discriminate|].
    destruct (chrMatches icase y a) eqn:Hy; [|discriminate].
    intros H. exists (Some a), s, c. split; [now constructor|assumption].
  - cbn [rmatch]. destruct s as [|a s]; [discriminate|].
    destruct (p a) eqn:Hp; [|discriminate].
    intros H. exists (Some a), s, c. split; [now constructor|assumption].
  - cbn [rmatch]. destruct (xorb _ _) eqn:Hb; [|discriminate].
    intros H. exists prev, s, c. split; [now constructor|assumption].
  - cbn [rmatch]. intros H.
    apply IH1 in H as (p1 & s1 & c1 & M1 & H).
    apply IH2 in H as (p2 & s2 & c2 & M2 & H).
    exists p2, s2, c2. split; [econstructor; eassumption|assumption].
  - cbn [rmatch]. destruct (rmatch icase r1 prev s c k) eqn:H1.
    + intros [= ->]. apply IH1 in H1 as (p1 & s1 & c1 & M1 & H).
      exists p1, s1, c1. split; [now apply MatchesAltL|assumption].
    + intros H. apply IH2 in H as (p2 & s2 & c2 & M2 & H).
      exists p2, s2, c2. split; [now apply MatchesAltR|assumption].
  - remember (String.length s) as n eqn:Hn.
    revert prev s c x Hn. induction (lt_wf n) as [n _ IHn]. intros prev s c x Hn.
    rewrite rmatch_Star.
    destruct (rmatch icase r prev s c _) eqn:H1.
    + intros [= ->]. apply IH in H1 as (p1 & s1 & c1 & M1 & H).
      destruct (Nat.ltb_spec (String.length s1) (String.length s)); [|discriminate].
      apply (IHn (String.length s1)) in H as (p2 & s2 & c2 & M2 & H); [|lia|reflexivity].
      exists p2, s2, c2. split; [|assumption].
      eapply MatchesStarMore; eassumption.
    + intros H. exists prev, s, c. split; [constructor|assumption].
  - cbn [rmatch]. intros H. apply IH in H as (p1 & s1 & c1 & M1 & H).
    eexists _, _, _. split; [apply MatchesGroup; eassumption|eassumption].
Qed.

(** It is complete for success: when a derivation leads to a position
    where the continuation succeeds whatever the captures, the matcher
    succeeds. *)
Lemma rmatch_complete {A : Type} (icase : bool) (r : regex) prev s c prev' s' c' :
  Matches icase r prev s c prev' s' c' ->
  forall (k : option ascii -> string -> captures -> option A) c0,
    (forall c'', is_Some (k prev' s' c'')) ->
    is_Some (rmatch icase r prev s c0 k).
Proof.
  induction 1 as [prev s c | x a prev s c Hx | p a prev s c Hp | prev s c Hb
                 | r1 r2 prev s c p1 s1 c1 p2 s2 c2 _ IH1 _ IH2
                 | r1 r2 prev s c p1 s1 c1 _ IH1
                 | r1 r2 prev s c p1 s1 c1 _ IH2
                 | r prev s c
                 | r prev s c p1 s1 c1 p2 s2 c2 _ IH1 Hlen _ IH2
                 | n r prev s c p1 s1 c1 _ IH]; intros k c0 Hk.
  - cbn [rmatch]. apply Hk.
  - cbn [rmatch]. rewrite Hx. apply Hk.
  - cbn [rmatch]. rewrite Hp. apply Hk.
  - cbn [rmatch]. rewrite Hb. apply Hk.
  - cbn [rmatch]. apply IH1. intros c''. now apply IH2.
  - cbn [rmatch]. destruct (IH1 k c0 Hk) as [x ->]. eauto.
  - cbn [rmatch]. destruct (rmatch icase r1 prev s c0 k); [eauto|]. now apply IH2.
  - rewrite rmatch_Star. destruct (rmatch icase r prev s c0 _); [eauto|]. apply Hk.
  - rewrite rmatch_Star.
    assert (Hs : is_Some (rmatch icase r prev s c0
                   (fun prev' s' c' =>
                      if (String.length s' <? String.length s)%nat
                      then rmatch icase (Star r) prev' s' c' k else None))).
    { apply IH1. intros c''. destruct (Nat.ltb_spec (String.length s1) (String.length s)); [|lia].
      now apply IH2. }
    destruct Hs as [x ->]. eauto.
  - cbn [rmatch]. apply IH. intros c''. apply Hk.
Qed.

(** What a derivation reads is a prefix of the input. *)
Lemma Matches_readOn (icase : bool) (r : regex) prev s c prev' s' c' :
  Matches icase r prev s c prev' s' c' -> readOn prev s prev' s'.
Proof.
  induction 1; try apply readOn_refl; try apply readOn_char; try assumption.
  - eapply readOn_trans; eassumption.
  - eapply readOn_trans; eassumption.
Qed.

(** A pattern is found in a text exactly when it matches at one of its
    positions. *)
Lemma test_Matches (icase : bool) (r : regex) (text : string) :
  test icase r text = true
  <-> exists pre s prev' s' c',
        text = pre +:+ s /\ Matches icase r (lastOr None pre) s [] prev' s' c'.
Proof.
  unfold test, exec. split.
  - destruct (execFrom icase r None text) as [m|] eqn:Hm; [|discriminate]. intros _.
    apply execFrom_position in Hm as (prev & s & (pre & -> & ->) & Hm).
    apply rmatch_sound in Hm as (prev' & s' & c' & HM & _).
    now exists pre, s, prev', s', c'.
  - intros (pre & s & prev' & s' & c' & -> & HM).
    assert (Hs : is_Some (execFrom icase r None (pre +:+ s))).
    { apply (execFrom_complete icase r None (lastOr None pre) (pre +:+ s) s).
      - now exists pre.
      - apply (rmatch_complete icase r _ _ _ _ _ _ HM). eauto. }
    now destruct Hs as [m ->].
Qed.

Lemma exec_Matches (icase : bool) (r : regex) (text : string) (m : captures) :
  exec icase r text = Some m ->
  exists pre s prev' s',
    text = pre +:+ s /\ Matches icase r (lastOr None pre) s [] prev' s' m.
Proof.
  unfold exec. intros Hm.
  apply execFrom_position in Hm as (prev & s & (pre & -> & ->) & Hm).
  apply rmatch_sound in Hm as (prev' & s' & c' & HM & [= ->]).
  now exists pre, s, prev', s'.
Qed.

(** A pattern without groups leaves the captures as they are. *)
Lemma Matches_groupFree (icase : bool) (r : regex) prev s c prev' s' c' :
  Matches icase r prev s c prev' s' c' -> groupFree r = true -> c' = c.
Proof.
  induction 1; cbn [groupFree]; intros Hg; try reflexivity;
    try (apply andb_true_iff in Hg as [Hg1 Hg2]); auto; try discriminate.
  - rewrite IHMatches2, IHMatches1; auto.
  - rewrite IHMatches2, IHMatches1; auto.
Qed.

Lemma groupFree_Lit (w : string) : groupFree (Lit w) = true.
Proof. induction w as [|x w IH]; [reflexivity|exact IH]. Qed.

Lemma string_length_app (a b : string) :
  String.length (a +:+ b) = (String.length a + String.length b)%nat.
Proof. induction a as [|x a IH]; [reflexivity|]. rewrite append_cons. cbn. now rewrite IH. Qed.

Lemma slice0_app (mid s' : string) :
  slice0 (String.length (mid +:+ s') - String.length s') (mid +:+ s') = mid.
Proof.
  rewrite string_length_app.
  replace (String.length mid + String.length s' - String.length s')%nat
    with (String.length mid) by lia.
  induction mid as [|x mid IH]; [now destruct s'|].
  rewrite append_cons. cbn [String.length slice0]. now rewrite IH.
Qed.

(** What a star of a character class reads. *)
Lemma Matches_Star_Class (icase : bool) (p : ascii -> bool) prev s c prev' s' c' :
  Matches icase (Star (Class p)) prev s c prev' s' c' ->
  exists mid, s = mid +:+ s' /\ allChars p mid = true /\ c' = c.
Proof.
  intros H. remember (Star (Class p)) as r eqn:Hr.
  induction H; try discriminate.
  - now exists EmptyString.
  - injection Hr as ->. destruct (IHMatches2 eq_refl) as (mid & -> & Hmid & ->).
    inversion H; subst. exists (String a mid). rewrite append_cons.
    split; [reflexivity|]. split; [|reflexivity]. cbn [allChars].
    match goal with Hp : p a = true |- _ => now rewrite Hp end.
Qed.

Lemma Matches_Plus_Class (icase : bool) (p : ascii -> bool) prev s c prev' s' c' :
  Matches icase (Plus (Class p)) prev s c prev' s' c' ->
  exists a mid, s = String a mid +:+ s' /\ allChars p (String a mid) = true /\ c' = c.
Proof.
  unfold Plus. intros H. inversion H as [| | | | ? ? ? ? ? p1 s1 c1 ? ? ? H1 H2 | | | | |]; subst.
  inversion H1 as [| |? a ? t ? Hp| | | | | | |]; subst.
  apply Matches_Star_Class in H2 as (mid & -> & Hmid & ->).
  exists a, mid. cbn [allChars]. now rewrite Hp, Hmid.
Qed.

Lemma parseDigitsAux_nonneg (s : string) (acc : Z) :
  allChars isDigit s = true -> 0 <= acc -> 0 <= parseDigitsAux acc s.
Proof.
  revert acc. induction s as [|a s IH]; intros acc; cbn [allChars parseDigitsAux];
    [auto|].
  intros Ha Hacc. apply andb_true_iff in Ha as [Ha Hs]. apply IH; [assumption|].
  assert (0 <= digitVal a); [|lia].
  unfold digitVal, isDigit in *. apply andb_true_iff in Ha as [Ha _].
  apply N.leb_le in Ha. lia.
Qed.

(** *** Lower-casing a text under the [i] flag *)

Lemma upperChar_lowerChar (a : ascii) : upperChar (lowerChar a) = upperChar a.
Proof. destruct a as [[] [] [] [] [] [] [] []]; vm_compute; reflexivity. Qed.

Lemma lowerChar_upperChar (a : ascii) : lowerChar (upperChar a) = lowerChar a.
Proof. destruct a as [[] [] [] [] [] [] [] []]; vm_compute; reflexivity. Qed.

Lemma isDigit_lowerChar (a : ascii) : isDigit (lowerChar a) = isDigit a.
Proof. destruct a as [[] [] [] [] [] [] [] []]; vm_compute; reflexivity. Qed.

Lemma toLowerCase_app (a b : string) :
  toLowerCase (a +:+ b) = toLowerCase a +:+ toLowerCase b.
Proof.
  induction a as [|x a IH]; [reflexivity|].
  rewrite append_cons. cbn [toLowerCase]. now rewrite IH, append_cons.
Qed.

Lemma toLowerCase_length (s : string) : String.length (toLowerCase s) = String.length s.
Proof. induction s as [|x s IH]; [reflexivity|]. cbn. now rewrite IH. Qed.

Lemma lastOr_toLowerCase (prev : option ascii) (s : string) :
  lastOr (option_map lowerChar prev) (toLowerCase s) = option_map lowerChar (lastOr prev s).
Proof.
  revert prev. induction s as [|x s IH]; intros prev; [reflexivity|].
  cbn [toLowerCase lastOr]. apply (IH (Some x)).
Qed.

(** A case-stable pattern that matches a text under the [i] flag matches
    the lower-cased text, whatever comes before and after it. *)
Lemma Matches_lower (r : regex) prev s c prev' s' c' :
  Matches true r prev s c prev' s' c' ->
  caseStable r ->
  forall prev2 post c2,
    exists prev2' c2',
      Matches true r prev2 (toLowerCase s +:+ post) c2
        prev2' (toLowerCase s' +:+ post) c2'.
Proof.
  induction 1 as [prev s c | x a prev s c Hx | p a prev s c Hp | prev s c Hb
                 | r1 r2 prev s c p1 s1 c1 p2 s2 c2 _ IH1 _ IH2
                 | r1 r2 prev s c p1 s1 c1 _ IH1
                 | r1 r2 prev s c p1 s1 c1 _ IH2
                 | r prev s c
                 | r prev s c p1 s1 c1 p2 s2 c2 _ IH1 Hlen _ IH2
                 | n r prev s c p1 s1 c1 _ IH];
    cbn [caseStable]; intros Hst prev2 post c0.
  - exists prev2, c0. constructor.
  - cbn [toLowerCase]. rewrite append_cons. eexists _, _. constructor.
    unfold chrMatches in *. now rewrite upperChar_lowerChar.
  - cbn [toLowerCase]. rewrite append_cons. eexists _, _. constructor.
    now rewrite Hst.
  - contradiction.
  - destruct Hst as [Hst1 Hst2].
    destruct (IH1 Hst1 prev2 post c0) as (q1 & d1 & M1).
    destruct (IH2 Hst2 q1 post d1) as (q2 & d2 & M2).
    exists q2, d2. econstructor; eassumption.
  - destruct Hst as [Hst1 _]. destruct (IH1 Hst1 prev2 post c0) as (q1 & d1 & M1).
    exists q1, d1. now apply MatchesAltL.
  - destruct Hst as [_ Hst2]. destruct (IH2 Hst2 prev2 post c0) as (q1 & d1 & M1).
    exists q1, d1. now apply MatchesAltR.
  - exists prev2, c0. constructor.
  - destruct (IH1 Hst prev2 post c0) as (q1 & d1 & M1).
    destruct (IH2 Hst q1 post d1) as (q2 & d2 & M2).
    exists q2, d2. eapply MatchesStarMore; [exact M1| |exact M2].
    rewrite !string_length_app, !toLowerCase_length. lia.
  - destruct (IH Hst prev2 post c0) as (q1 & d1 & M1).
    eexists _, _. apply MatchesGroup. exact M1.
Qed.

(** So a case-stable pattern found in a text is found in the lower-cased
    text followed by anything. *)
Lemma test_lower_extend (r : regex) (text post : string) :
  caseStable r ->
  test true r text = true ->
  test true r (toLowerCase text +:+ post) = true.
Proof.
  intros Hst Ht. apply test_Matches in Ht as (pre & s & prev' & s' & c' & -> & HM).
  destruct (Matches_lower r _ _ _ _ _ _ HM Hst (lastOr None (toLowerCase pre)) post [])
    as (q & d & M).
  apply test_Matches.
  exists (toLowerCase pre), (toLowerCase s +:+ post), q, (toLowerCase s' +:+ post), d.
  split; [|exact M]. now rewrite toLowerCase_app, append_assoc.
Qed.

End MatcherSemantics.
(** ** The calendar: fields of dates *)

Section CalendarFields.

Import JsString JsDate.

(** The day number of a date of the calendar is the day number of that
    date only. *)
Lemma civil_of_days (y m d : Z) :
  1 <= m <= 12 -> 1 <= d <= daysInMonth y m ->
  civilFromDays (daysFromCivil y m d) = (y, m, d).
Proof.
  intros Hm Hd. unfold civilFromDays, daysFromCivil.
  set (y' := if m <=? 2 then y - 1 else y).
  set (era := y' / 400).
  set (yoe := y' - era * 400).
  assert (Hyoe : 0 <= yoe <= 399).
  { unfold yoe, era. pose proof (Z.mod_pos_bound y' 400 ltac:(lia)) as H.
    rewrite Z.mod_eq in H by lia. lia. }
  set (mp := (m + 9) mod 12).
  assert (Hmp : mp = if m <=? 2 then m + 9 else m - 3).
  { unfold mp. destruct (Z.leb_spec m 2); Z.div_mod_to_equations; lia. }
  set (doy := (153 * mp + 2) / 5 + d - 1).
  assert (Hleap : isLeap y = if m <=? 2 then ((yoe + 1) mod 4 =? 0) && (negb ((yoe + 1) mod 100 =? 0) || (yoe + 1 =? 400)) else isLeap y).
  { destruct (Z.leb_spec m 2); [|reflexivity].
    unfold isLeap, yoe, era, y'. destruct (Z.leb_spec m 2); [|lia].
    assert (E4 : (y - 1 - (y - 1) / 400 * 400 + 1) mod 4 = y mod 4) by (Z.div_mod_to_equations; lia).
    assert (E100 : (y - 1 - (y - 1) / 400 * 400 + 1) mod 100 = y mod 100) by (Z.div_mod_to_equations; lia).
    rewrite E4, E100.
    assert (E400 : (y mod 400 =? 0) = (y - 1 - (y - 1) / 400 * 400 + 1 =? 400)).
    { destruct (Z.eqb_spec (y mod 400) 0), (Z.eqb_spec (y - 1 - (y - 1) / 400 * 400 + 1) 400); try reflexivity; exfalso; Z.div_mod_to_equations; lia. }
    now rewrite E400. }
  assert (Hdoy : 0 <= doy /\ doy <= 365 /\ (doy = 365 -> (yoe + 1) mod 4 = 0 /\ ((yoe + 1) mod 100 <> 0 \/ yoe + 1 = 400))).
  { unfold doy. rewrite Hmp. unfold daysInMonth in Hd.
    destruct (Z.leb_spec m 2).
    - assert (m = 1 \/ m = 2) as [-> | ->] by lia.
      + cbn in *. Z.div_mod_to_equations; lia.
      + cbn [Z.eqb] in Hd. rewrite Hleap in Hd. 
        destruct (Z.eqb_spec ((yoe + 1) mod 4) 0), (Z.eqb_spec ((yoe + 1) mod 100) 0), (Z.eqb_spec (yoe + 1) 400); cbn in Hd |- *; Z.div_mod_to_equations; lia.
    - assert (m = 3 \/ m = 4 \/ m = 5 \/ m = 6 \/ m = 7 \/ m = 8 \/ m = 9 \/ m = 10 \/ m = 11 \/ m = 12) as Hc by lia.
      destruct Hc as [-> | [-> | [-> | [-> | [-> | [-> | [-> | [-> | [-> | ->]]]]]]]]]; cbn in *; Z.div_mod_to_equations; lia. }
  set (doe := yoe * 365 + yoe / 4 - yoe / 100 + doy).
  assert (Hdoe : 0 <= doe < 146097).
  { unfold doe. Z.div_mod_to_equations. lia. }
  assert (E1 : era * 146097 + doe - 719468 + 719468 = doe + era * 146097) by lia.
  assert (E2 : (doe + era * 146097) / 146097 = era).
  { rewrite Z.div_add by lia. rewrite (Z.div_small doe) by lia. lia. }
  assert (E3 : doe + era * 146097 - era * 146097 = doe) by lia.
  cbv zeta. rewrite E1, E2, E3.
  assert (Hyoe' : (doe - doe / 1460 + doe / 36524 - doe / 146096) / 365 = yoe).
  { destruct Hdoy as (H0 & H1 & H2). unfold doe in *. Z.div_mod_to_equations; lia. }
  rewrite Hyoe'.
  replace (doe - (365 * yoe + yoe / 4 - yoe / 100)) with doy by (unfold doe; lia).
  assert (Hmp' : (5 * doy + 2) / 153 = mp).
  { unfold doy. rewrite Hmp. unfold daysInMonth in Hd.
    assert (d <= 31) by (destruct (m =? 2); [destruct (isLeap y)|destruct (_ || _)]; lia).
    destruct (Z.leb_spec m 2).
    - assert (m = 1 \/ m = 2) as [-> | ->] by lia; cbn in *.
      + Z.div_mod_to_equations; lia.
      + assert (d <= 29) by (destruct (isLeap y); lia). Z.div_mod_to_equations; lia.
    - assert (m = 3 \/ m = 4 \/ m = 5 \/ m = 6 \/ m = 7 \/ m = 8 \/ m = 9 \/ m = 10 \/ m = 11 \/ m = 12) as Hc by lia.
      destruct Hc as [-> | [-> | [-> | [-> | [-> | [-> | [-> | [-> | [-> | ->]]]]]]]]]; cbn in *; Z.div_mod_to_equations; lia. }
  rewrite Hmp'.
  assert (Hm' : (if mp <? 10 then mp + 3 else mp - 9) = m).
  { rewrite Hmp. destruct (Z.leb_spec m 2); [destruct (Z.ltb_spec (m + 9) 10)|destruct (Z.ltb_spec (m - 3) 10)]; lia. }
  rewrite Hm'.
  f_equal; [f_equal|].
  - unfold yoe, y'. destruct (Z.leb_spec m 2); lia.
  - unfold doy. lia.
Qed.

(** The day of the month of a day number is in 1..31. *)
Lemma civil_day_range (z : Z) : 1 <= snd (civilFromDays z) <= 31.
Proof.
  unfold civilFromDays. cbn [snd].
  set (z' := z + 719468).
  set (era := z' / 146097).
  set (doe := z' - era * 146097).
  assert (Hdoe : 0 <= doe < 146097).
  { unfold doe, era. pose proof (Z.mod_pos_bound z' 146097 ltac:(lia)) as H.
    rewrite Z.mod_eq in H by lia. lia. }
  set (yoe := (doe - doe / 1460 + doe / 36524 - doe / 146096) / 365).
  set (doy := doe - (365 * yoe + yoe / 4 - yoe / 100)).
  assert (Hdoy : 0 <= doy <= 365) by (unfold doy, yoe; Z.div_mod_to_equations; lia).
  set (mp := (5 * doy + 2) / 153).
  unfold mp. Z.div_mod_to_equations. lia.
Qed.

Lemma localDay_shift (tz t k : Z) : localDay tz (t + k * msPerDay) = localDay tz t + k.
Proof.
  unfold localDay, msPerDay.
  replace (t + k * 86400000 + tz) with (t + tz + k * 86400000) by lia.
  apply Z.div_add. lia.
Qed.

Lemma getDay_shift (tz t k : Z) : getDay tz (t + k * msPerDay) = (getDay tz t + k) mod 7.
Proof.
  unfold getDay. rewrite localDay_shift.
  replace (localDay tz t + k + 4) with (localDay tz t + 4 + k) by lia.
  now rewrite Zplus_mod_idemp_l.
Qed.

Lemma getDay_range (tz t : Z) : 0 <= getDay tz t <= 6.
Proof. unfold getDay. pose proof (Z.mod_pos_bound (localDay tz t + 4) 7). lia. Qed.

(** The first day of a year, and how far the days of the year are from
    it. *)
Lemma year_length (y m d : Z) :
  1 <= m <= 12 ->
  365 <= daysFromCivil (y + 1) m d - daysFromCivil y m d <= 366.
Proof.
  intros Hm. unfold daysFromCivil.
  destruct (Z.leb_spec m 2); Z.div_mod_to_equations; lia.
Qed.

Lemma month_offset (y m : Z) :
  1 <= m <= 12 ->
  0 <= daysFromCivil y m 1 - daysFromCivil y 1 1 <= 335.
Proof.
  intros Hm.
  assert (m = 1 \/ m = 2 \/ m = 3 \/ m = 4 \/ m = 5 \/ m = 6 \/ m = 7 \/ m = 8
          \/ m = 9 \/ m = 10 \/ m = 11 \/ m = 12) as Hc by lia.
  unfold daysFromCivil.
  destruct Hc as [-> | [-> | [-> | [-> | [-> | [-> | [-> | [-> | [-> | [-> | [-> | ->]]]]]]]]]]];
    cbn [Z.leb Z.compare Pos.compare Pos.compare_cont]; Z.div_mod_to_equations; lia.
Qed.

Lemma month_before_next_year (y m : Z) :
  1 <= m <= 12 ->
  daysFromCivil y m 1 + 31 <= daysFromCivil (y + 1) 1 1.
Proof.
  intros Hm.
  assert (m = 1 \/ m = 2 \/ m = 3 \/ m = 4 \/ m = 5 \/ m = 6 \/ m = 7 \/ m = 8
          \/ m = 9 \/ m = 10 \/ m = 11 \/ m = 12) as Hc by lia.
  unfold daysFromCivil.
  destruct Hc as [-> | [-> | [-> | [-> | [-> | [-> | [-> | [-> | [-> | [-> | [-> | ->]]]]]]]]]]];
    cbn [Z.leb Z.compare Pos.compare Pos.compare_cont]; Z.div_mod_to_equations; lia.
Qed.

(** A time value lies in the local year that [getFullYear] gives. *)
Lemma localDay_in_year (tz t : Z) :
  daysFromCivil (getFullYear tz t) 1 1 <= localDay tz t
  < daysFromCivil (getFullYear tz t + 1) 1 1.
Proof.
  unfold getFullYear.
  destruct (civil_roundtrip (localDay tz t)) as [Hday Hm].
  pose proof (civil_day_range (localDay tz t)) as Hd.
  set (civil := civilFromDays (localDay tz t)) in *.
  rewrite daysFromCivil_day in Hday.
  pose proof (month_offset (fst (fst civil)) _ Hm).
  pose proof (month_before_next_year (fst (fst civil)) _ Hm).
  lia.
Qed.

(** [new Date(y, m, d)] with a full year, a month in 0..11 and a day of
    that month is the local midnight whose fields are [y], [m], [d]. *)
Lemma newDate_fields (tz y m d : Z) :
  -86400000 <= tz <= 86400000 ->
  100 <= y <= 9999 -> 0 <= m <= 11 -> 1 <= d <= daysInMonth y (m + 1) ->
  exists t, newDate tz y m d = At t
            /\ getFullYear tz t = y /\ getMonth tz t = m /\ getDate tz t = d
            /\ timeWithinDay tz t = 0.
Proof.
  intros Htz Hy Hm Hd.
  rewrite newDate_full_year by lia.
  assert (Hmk : makeDay y m d = daysFromCivil y (m + 1) d).
  { unfold makeDay. rewrite (Z.div_small m), (Z.mod_small m) by lia.
    rewrite (daysFromCivil_day y (m + 1) d). f_equal. f_equal. f_equal. lia. }
  assert (Hlo : daysFromCivil 100 1 1 <= makeDay y m d).
  { rewrite Hmk, (daysFromCivil_day y (m + 1) d).
    pose proof (month_offset y (m + 1) ltac:(lia)).
    assert (daysFromCivil 100 1 1 <= daysFromCivil y 1 1)
      by (unfold daysFromCivil; cbn [Z.leb Z.compare Pos.compare Pos.compare_cont];
          Z.div_mod_to_equations; lia).
    lia. }
  assert (Hhi : makeDay y m d < daysFromCivil 10000 1 1).
  { rewrite Hmk, (daysFromCivil_day y (m + 1) d).
    pose proof (month_before_next_year y (m + 1) ltac:(lia)).
    assert (d <= 31).
    { unfold daysInMonth in Hd.
      destruct (m + 1 =? 2); [destruct (isLeap y)|destruct (_ || _)]; lia. }
    assert (daysFromCivil (y + 1) 1 1 <= daysFromCivil 10000 1 1)
      by (unfold daysFromCivil; cbn [Z.leb Z.compare Pos.compare Pos.compare_cont];
          Z.div_mod_to_equations; lia).
    lia. }
  assert (E100 : -683003 <= daysFromCivil 100 1 1) by (vm_compute; discriminate).
  assert (E10000 : daysFromCivil 10000 1 1 <= 2932897) by (vm_compute; discriminate).
  rewrite timeClip_valid by (unfold msPerDay; lia).
  eexists. split; [reflexivity|].
  unfold getFullYear, getMonth, getDate, timeWithinDay.
  rewrite localDay_midnight, Hmk, civil_of_days by lia. cbn [fst snd].
  split; [reflexivity|]. split; [lia|]. split; [reflexivity|].
  replace (daysFromCivil y (m + 1) d * msPerDay - tz + tz)
    with (daysFromCivil y (m + 1) d * msPerDay) by lia.
  apply Z.mod_mul. unfold msPerDay. lia.
Qed.

End CalendarFields.
(** ** Date keys and the order of dates *)

Section DateKeys.

Import JsString Regex JsDate.

Lemma civil_valid (z : Z) :
  1 <= snd (civilFromDays z)
       <= daysInMonth (fst (fst (civilFromDays z))) (snd (fst (civilFromDays z))).
Proof.
  unfold civilFromDays. cbn [fst snd].
  set (z' := z + 719468).
  set (era := z' / 146097).
  set (doe := z' - era * 146097).
  assert (Hdoe : 0 <= doe < 146097).
  { unfold doe, era. pose proof (Z.mod_pos_bound z' 146097 ltac:(lia)) as H.
    rewrite Z.mod_eq in H by lia. lia. }
  set (yoe := (doe - doe / 1460 + doe / 36524 - doe / 146096) / 365).
  assert (Hyoe : 0 <= yoe <= 399) by (unfold yoe; Z.div_mod_to_equations; lia).
  set (doy := doe - (365 * yoe + yoe / 4 - yoe / 100)).
  assert (Hdoy : 0 <= doy <= 365) by (unfold doy, yoe; Z.div_mod_to_equations; lia).
  assert (Hleapday : doy = 365 ->
            (yoe + 1) mod 4 = 0 /\ ((yoe + 1) mod 100 <> 0 \/ yoe = 399)).
  { unfold doy, yoe. Z.div_mod_to_equations. lia. }
  clearbody doy yoe. clear Hdoe. clearbody era.
  set (mp := (5 * doy + 2) / 153).
  assert (Hmp : 0 <= mp <= 11) by (unfold mp; Z.div_mod_to_equations; lia).
  assert (Hc : mp = 0 \/ mp = 1 \/ mp = 2 \/ mp = 3 \/ mp = 4 \/ mp = 5 \/ mp = 6
               \/ mp = 7 \/ mp = 8 \/ mp = 9 \/ mp = 10 \/ mp = 11) by lia.
  assert (Hd : 0 <= doy - (153 * mp + 2) / 5 /\ doy < (153 * (mp + 1) + 2) / 5).
  { unfold mp. Z.div_mod_to_equations. lia. }
  set (m := if mp <? 10 then mp + 3 else mp - 9).
  assert (Hm : m = if mp <? 10 then mp + 3 else mp - 9) by reflexivity.
  clearbody m.
  set (y := yoe + era * 400) in *.
  assert (E4 : (y + 1) mod 4 = (yoe + 1) mod 4) by (unfold y; Z.div_mod_to_equations; lia).
  assert (E100 : (y + 1) mod 100 = (yoe + 1) mod 100)
    by (unfold y; Z.div_mod_to_equations; lia).
  assert (E400 : (y + 1) mod 400 = (yoe + 1) mod 400)
    by (unfold y; Z.div_mod_to_equations; lia).
  clearbody y.
  unfold daysInMonth, isLeap.
  destruct (Z.eqb_spec m 2) as [E2|E2].
  - assert (mp = 11) by (destruct (Z.ltb_spec mp 10); lia).
    destruct (Z.leb_spec m 2); [|lia].
    rewrite E4, E100, E400.
    assert (Hd' : 0 <= doy - 337 /\ doy <= 365) by (subst mp; Z.div_mod_to_equations; lia).
    replace ((153 * mp + 2) / 5) with 337 by (Z.div_mod_to_equations; lia).
    destruct (Z.eqb_spec ((yoe + 1) mod 4) 0), (Z.eqb_spec ((yoe + 1) mod 100) 0),
      (Z.eqb_spec ((yoe + 1) mod 400) 0); cbn [andb orb negb]; try lia;
      Z.div_mod_to_equations; lia.
  - revert Hm. destruct (Z.ltb_spec mp 10); intros Hm;
      destruct Hc as [E|[E|[E|[E|[E|[E|[E|[E|[E|[E|[E|E]]]]]]]]]]]; try lia;
      rewrite E in Hm, Hd |- *;
      repeat match goal with
             | |- context [?a =? ?b] => destruct (Z.eqb_spec a b); try lia
             end;
      cbn [orb]; Z.div_mod_to_equations; lia.
Qed.

Lemma year_mono (y y' : Z) :
  y <= y' -> daysFromCivil y 1 1 <= daysFromCivil y' 1 1.
Proof.
  intros H. unfold daysFromCivil.
  cbn [Z.leb Z.compare Pos.compare Pos.compare_cont].
  Z.div_mod_to_equations. lia.
Qed.

Lemma daysInMonth_range (y m : Z) : 28 <= daysInMonth y m <= 31.
Proof.
  unfold daysInMonth. destruct (m =? 2); [destruct (isLeap y)|destruct (_ || _)]; lia.
Qed.

Lemma month_next (y m : Z) :
  1 <= m < 12 -> daysFromCivil y m 1 + daysInMonth y m = daysFromCivil y (m + 1) 1.
Proof.
  intros Hm.
  assert (Hc : m = 1 \/ m = 2 \/ m = 3 \/ m = 4 \/ m = 5 \/ m = 6 \/ m = 7 \/ m = 8
               \/ m = 9 \/ m = 10 \/ m = 11) by lia.
  remember (m + 1) as m1 eqn:Hm1.
  unfold daysFromCivil, daysInMonth, isLeap.
  destruct Hc as [-> | [-> | [-> | [-> | [-> | [-> | [-> | [-> | [-> | [-> | ->]]]]]]]]]];
    vm_compute in Hm1; subst m1;
    cbn [Z.leb Z.eqb Z.compare Pos.compare Pos.compare_cont Pos.eqb orb];
    try (Z.div_mod_to_equations; lia).
  set (era := y / 400). set (yoe := y - era * 400).
  assert (Hyoe : 0 <= yoe <= 399).
  { unfold yoe, era. pose proof (Z.mod_pos_bound y 400 ltac:(lia)) as H.
    rewrite Z.mod_eq in H by lia. lia. }
  assert (E4 : y mod 4 = yoe mod 4) by (unfold yoe; Z.div_mod_to_equations; lia).
  assert (E100 : y mod 100 = yoe mod 100) by (unfold yoe; Z.div_mod_to_equations; lia).
  assert (E400 : y mod 400 = yoe) by (unfold yoe, era; Z.div_mod_to_equations; lia).
  rewrite E4, E100, E400.
  assert (Hprev : (yoe = 0 /\ (y - 1) / 400 = era - 1 /\ y - 1 - (era - 1) * 400 = 399)
                  \/ (0 < yoe /\ (y - 1) / 400 = era /\ y - 1 - era * 400 = yoe - 1)).
  { destruct (Z.eq_dec yoe 0) as [E0|E0]; [left|right].
    - assert ((y - 1) / 400 = era - 1)
        by (symmetry; apply (Z.div_unique _ _ _ 399); unfold yoe in *; lia).
      unfold yoe in *. lia.
    - assert ((y - 1) / 400 = era)
        by (symmetry; apply (Z.div_unique _ _ _ (yoe - 1)); unfold yoe in *; lia).
      unfold yoe in *. lia. }
  clearbody yoe era.
  destruct Hprev as [(-> & -> & ->)|(Hpos & -> & ->)].
  - replace (0 mod 4) with 0 by reflexivity. replace (0 mod 100) with 0 by reflexivity.
    cbn [Z.eqb andb negb orb]. Z.div_mod_to_equations. lia.
  - destruct (Z.eqb_spec (yoe mod 4) 0), (Z.eqb_spec (yoe mod 100) 0),
      (Z.eqb_spec yoe 0); cbn [andb orb negb]; Z.div_mod_to_equations; lia.
Qed.

Lemma month_mono (y m : Z) (k : nat) :
  1 <= m -> m + Z.of_nat k <= 12 ->
  daysFromCivil y m 1 <= daysFromCivil y (m + Z.of_nat k) 1.
Proof.
  intros Hm. induction k as [|k IH]; intros Hk.
  - replace (m + Z.of_nat 0) with m by lia. lia.
  - replace (m + Z.of_nat (S k)) with (m + Z.of_nat k + 1) by lia.
    rewrite <- month_next by lia.
    pose proof (daysInMonth_range y (m + Z.of_nat k)). lia.
Qed.

(** The day numbers of the dates of the calendar grow with the dates. *)
Lemma daysFromCivil_lt (y m d y' m' d' : Z) :
  1 <= m <= 12 -> 1 <= d <= daysInMonth y m ->
  1 <= m' <= 12 -> 1 <= d' <= daysInMonth y' m' ->
  y * 10000 + m * 100 + d < y' * 10000 + m' * 100 + d' ->
  daysFromCivil y m d < daysFromCivil y' m' d'.
Proof.
  intros Hm Hd Hm' Hd' Hlt.
  pose proof (daysInMonth_range y m). pose proof (daysInMonth_range y' m').
  rewrite (daysFromCivil_day y m d), (daysFromCivil_day y' m' d').
  assert (Hcases : y < y' \/ (y = y' /\ m < m') \/ (y = y' /\ m = m' /\ d < d')) by lia.
  destruct Hcases as [Hy|[[-> Hmm]|(-> & -> & Hdd)]].
  - pose proof (month_before_next_year y m Hm).
    pose proof (year_mono (y + 1) y' ltac:(lia)).
    pose proof (month_mono y' 1 (Z.to_nat (m' - 1)) ltac:(lia) ltac:(lia)) as Hmo.
    replace (1 + Z.of_nat (Z.to_nat (m' - 1))) with m' in Hmo by lia.
    lia.
  - pose proof (month_next y' m ltac:(lia)).
    pose proof (month_mono y' (m + 1) (Z.to_nat (m' - m - 1)) ltac:(lia) ltac:(lia)) as Hmo.
    replace (m + 1 + Z.of_nat (Z.to_nat (m' - m - 1))) with m' in Hmo by lia.
    lia.
  - lia.
Qed.

(** The date of a day number, read as the number yyyymmdd, grows with the
    day number. *)
Lemma dateNumber_compare (z1 z2 : Z) :
  (dateNumber (civilFromDays z1) ?= dateNumber (civilFromDays z2)) = (z1 ?= z2).
Proof.
  destruct (civil_roundtrip z1) as [R1 M1]. destruct (civil_roundtrip z2) as [R2 M2].
  pose proof (civil_valid z1) as V1. pose proof (civil_valid z2) as V2.
  unfold dateNumber.
  set (c1 := civilFromDays z1) in *. set (c2 := civilFromDays z2) in *.
  pose proof (daysInMonth_range (fst (fst c1)) (snd (fst c1))).
  pose proof (daysInMonth_range (fst (fst c2)) (snd (fst c2))).
  destruct (Z.compare_spec z1 z2) as [E|L|G].
  - apply Z.compare_eq_iff. unfold c1, c2. now rewrite E.
  - apply Z.compare_lt_iff.
    destruct (Z.lt_trichotomy
                (fst (fst c1) * 10000 + snd (fst c1) * 100 + snd c1)
                (fst (fst c2) * 10000 + snd (fst c2) * 100 + snd c2))
      as [Hlt|[Heq|Hgt]]; [assumption| |].
    + assert (fst (fst c1) = fst (fst c2) /\ snd (fst c1) = snd (fst c2) /\ snd c1 = snd c2)
        as (E1 & E2 & E3) by lia.
      rewrite E1, E2, E3 in R1. lia.
    + pose proof (daysFromCivil_lt _ _ _ _ _ _ M2 V2 M1 V1 Hgt). lia.
  - apply Z.compare_gt_iff.
    destruct (Z.lt_trichotomy
                (fst (fst c2) * 10000 + snd (fst c2) * 100 + snd c2)
                (fst (fst c1) * 10000 + snd (fst c1) * 100 + snd c1))
      as [Hlt|[Heq|Hgt]]; [assumption| |].
    + assert (fst (fst c1) = fst (fst c2) /\ snd (fst c1) = snd (fst c2) /\ snd c1 = snd c2)
        as (E1 & E2 & E3) by lia.
      rewrite E1, E2, E3 in R1. lia.
    + pose proof (daysFromCivil_lt _ _ _ _ _ _ M1 V1 M2 V2 Hgt). lia.
Qed.

Lemma pretty_N_go_app (y : N) :
  forall s, pretty_N_go y s = pretty_N_go y "" +:+ s.
Proof.
  induction (N.lt_wf_0 y) as [y _ IH]. intros s.
  destruct (N.eq_dec y 0%N) as [->|Hy]; [reflexivity|].
  rewrite (pretty_N_go_step y s), (pretty_N_go_step y "") by lia.
  rewrite (IH (y / 10)%N) by (apply N.div_lt; lia).
  rewrite (IH (y / 10)%N ltac:(apply N.div_lt; lia) (String _ "")).
  now rewrite append_assoc.
Qed.

Lemma pretty_digit (n : Z) : 0 <= n <= 9 -> pretty n = String (digitChar n) "".
Proof.
  intros [H0 H9]. destruct n as [|p|p]; [reflexivity| |lia].
  do 4 (try (destruct p as [p|p|]; try lia; try reflexivity)).
Qed.

Lemma pretty_N_char_digit (x : N) :
  (x < 10)%N -> pretty_N_char x = digitChar (Z.of_N x).
Proof.
  intros Hx. destruct x as [|p]; [reflexivity|].
  do 4 (try (destruct p as [p|p|]; try lia; try reflexivity)).
Qed.

(** The decimal text of a number of two digits or more is that of its
    tenth part followed by its last digit. *)
Lemma pretty_step (n : Z) :
  10 <= n -> pretty n = pretty (n / 10) +:+ String (digitChar (n mod 10)) "".
Proof.
  intros Hn.
  assert (Hq : 0 < n / 10) by (Z.div_mod_to_equations; lia).
  destruct n as [|p|p]; try lia. destruct (Z.pos p / 10) as [|q|q] eqn:Hdiv; try lia.
  unfold pretty, pretty_Z, pretty_positive, pretty, pretty_N.
  rewrite !decide_False by discriminate.
  rewrite pretty_N_go_step by lia. rewrite pretty_N_go_app.
  assert (E1 : (N.pos p / 10)%N = N.pos q).
  { apply N2Z.inj. rewrite N2Z.inj_div. cbn [Z.of_N]. exact Hdiv. }
  assert (E2 : Z.of_N (N.pos p mod 10)%N = Z.pos p mod 10).
  { rewrite N2Z.inj_mod. reflexivity. }
  rewrite E1, pretty_N_char_digit by (apply N.mod_lt; discriminate).
  now rewrite E2.
Qed.

Lemma pad2_digits (n : Z) :
  0 <= n <= 99 ->
  pad 2 n = String (digitChar (n / 10)) (String (digitChar (n mod 10)) "").
Proof.
  intros Hn. unfold pad. rewrite Z.abs_eq by lia.
  destruct (Z.lt_ge_cases n 10) as [Hs|Hb].
  - rewrite pretty_digit by lia.
    rewrite (Z.div_small n 10), (Z.mod_small n 10) by lia. reflexivity.
  - rewrite pretty_step, pretty_digit by (Z.div_mod_to_equations; lia). reflexivity.
Qed.

Lemma pad4_digits (n : Z) :
  0 <= n <= 9999 ->
  pad 4 n = String (digitChar (n / 1000)) (String (digitChar (n / 100 mod 10))
              (String (digitChar (n / 10 mod 10)) (String (digitChar (n mod 10)) ""))).
Proof.
  intros Hn. unfold pad. rewrite Z.abs_eq by lia.
  assert (Hc : n < 10 \/ 10 <= n < 100 \/ 100 <= n < 1000 \/ 1000 <= n) by lia.
  destruct Hc as [H|[H|[H|H]]].
  - rewrite pretty_digit by lia.
    rewrite (Z.div_small n 1000), (Z.div_small n 100), (Z.div_small n 10),
      (Z.mod_small n 10) by lia.
    reflexivity.
  - rewrite pretty_step, pretty_digit by (Z.div_mod_to_equations; lia).
    rewrite (Z.div_small n 1000), (Z.div_small n 100) by lia.
    rewrite (Z.mod_small (n / 10) 10) by (Z.div_mod_to_equations; lia).
    reflexivity.
  - rewrite pretty_step by lia.
    rewrite (pretty_step (n / 10)) by (Z.div_mod_to_equations; lia).
    rewrite pretty_digit by (Z.div_mod_to_equations; lia).
    rewrite (Z.div_small n 1000) by lia.
    rewrite Z.div_div by lia. change (10 * 10) with 100.
    rewrite (Z.mod_small (n / 100) 10) by (Z.div_mod_to_equations; lia).
    reflexivity.
  - rewrite pretty_step by lia.
    rewrite (pretty_step (n / 10)) by (Z.div_mod_to_equations; lia).
    rewrite (pretty_step (n / 10 / 10)) by (Z.div_mod_to_equations; lia).
    rewrite pretty_digit by (Z.div_mod_to_equations; lia).
    rewrite !Z.div_div by lia. change (10 * 10) with 100. change (100 * 10) with 1000.
    reflexivity.
Qed.

Lemma digitChar_compare (a b : Z) :
  0 <= a <= 9 -> 0 <= b <= 9 ->
  Ascii.compare (digitChar a) (digitChar b) = (a ?= b).
Proof.
  intros Ha Hb. unfold Ascii.compare, digitChar.
  rewrite !N_ascii_embedding by lia.
  rewrite Z2N.inj_compare by lia. apply Z.add_compare_mono_l.
Qed.

Lemma digits_compare (a3 a2 a1 a0 a5 a4 a7 a6 b3 b2 b1 b0 b5 b4 b7 b6 : Z) :
  0 <= a3 <= 9 -> 0 <= a2 <= 9 -> 0 <= a1 <= 9 -> 0 <= a0 <= 9 ->
  0 <= a5 <= 9 -> 0 <= a4 <= 9 -> 0 <= a7 <= 9 -> 0 <= a6 <= 9 ->
  0 <= b3 <= 9 -> 0 <= b2 <= 9 -> 0 <= b1 <= 9 -> 0 <= b0 <= 9 ->
  0 <= b5 <= 9 -> 0 <= b4 <= 9 -> 0 <= b7 <= 9 -> 0 <= b6 <= 9 ->
  String.compare
    (String (digitChar a3) (String (digitChar a2) (String (digitChar a1)
       (String (digitChar a0) (String "-" (String (digitChar a5) (String (digitChar a4)
          (String "-" (String (digitChar a7) (String (digitChar a6) ""))))))))))
    (String (digitChar b3) (String (digitChar b2) (String (digitChar b1)
       (String (digitChar b0) (String "-" (String (digitChar b5) (String (digitChar b4)
          (String "-" (String (digitChar b7) (String (digitChar b6) ""))))))))))
  = ((1000 * a3 + 100 * a2 + 10 * a1 + a0) * 10000 + (10 * a5 + a4) * 100 + (10 * a7 + a6)
     ?= (1000 * b3 + 100 * b2 + 10 * b1 + b0) * 10000 + (10 * b5 + b4) * 100
        + (10 * b7 + b6)).
Proof.
  intros. cbn [String.compare].
  rewrite !digitChar_compare by assumption.
  change (Ascii.compare "-" "-") with Eq. cbn iota.
  symmetry.
  destruct (Z.compare_spec a3 b3); [|apply Z.compare_lt_iff; lia|apply Z.compare_gt_iff; lia].
  destruct (Z.compare_spec a2 b2); [|apply Z.compare_lt_iff; lia|apply Z.compare_gt_iff; lia].
  destruct (Z.compare_spec a1 b1); [|apply Z.compare_lt_iff; lia|apply Z.compare_gt_iff; lia].
  destruct (Z.compare_spec a0 b0); [|apply Z.compare_lt_iff; lia|apply Z.compare_gt_iff; lia].
  destruct (Z.compare_spec a5 b5); [|apply Z.compare_lt_iff; lia|apply Z.compare_gt_iff; lia].
  destruct (Z.compare_spec a4 b4); [|apply Z.compare_lt_iff; lia|apply Z.compare_gt_iff; lia].
  destruct (Z.compare_spec a7 b7); [|apply Z.compare_lt_iff; lia|apply Z.compare_gt_iff; lia].
  destruct (Z.compare_spec a6 b6); [|apply Z.compare_lt_iff; lia|apply Z.compare_gt_iff; lia].
  apply Z.compare_eq_iff. lia.
Qed.

Lemma dateText_digits (c : Z * Z * Z) :
  0 <= fst (fst c) <= 9999 -> 0 <= snd (fst c) <= 99 -> 0 <= snd c <= 99 ->
  dateText c
  = String (digitChar (fst (fst c) / 1000)) (String (digitChar (fst (fst c) / 100 mod 10))
      (String (digitChar (fst (fst c) / 10 mod 10)) (String (digitChar (fst (fst c) mod 10))
         (String "-" (String (digitChar (snd (fst c) / 10))
            (String (digitChar (snd (fst c) mod 10))
               (String "-" (String (digitChar (snd c / 10))
                  (String (digitChar (snd c mod 10)) ""))))))))).
Proof.
  intros Hy Hm Hd. unfold dateText.
  rewrite pad4_digits, !pad2_digits by assumption. reflexivity.
Qed.

(** Date texts are ordered, by character codes, as the dates are. *)
Lemma dateText_compare (c1 c2 : Z * Z * Z) :
  0 <= fst (fst c1) <= 9999 -> 0 <= snd (fst c1) <= 99 -> 0 <= snd c1 <= 99 ->
  0 <= fst (fst c2) <= 9999 -> 0 <= snd (fst c2) <= 99 -> 0 <= snd c2 <= 99 ->
  String.compare (dateText c1) (dateText c2) = (dateNumber c1 ?= dateNumber c2).
Proof.
  intros Hy1 Hm1 Hd1 Hy2 Hm2 Hd2.
  rewrite !dateText_digits by assumption.
  rewrite digits_compare by (Z.div_mod_to_equations; lia).
  unfold dateNumber. f_equal; Z.div_mod_to_equations; lia.
Qed.

Lemma slice0_prefix (a b : string) : slice0 (String.length a) (a +:+ b) = a.
Proof.
  induction a as [|x a IH]; [now destruct b|].
  rewrite append_cons. cbn [String.length slice0]. now rewrite IH.
Qed.

Lemma splitHead_prefix (c : ascii) (a b : string) :
  allChars (fun x => negb (Ascii.eqb x c)) a = true ->
  splitHead c (a +:+ String c b) = a.
Proof.
  induction a as [|x a IH]; cbn [allChars].
  - intros _. change ("" +:+ String c b) with (String c b). cbn [splitHead].
    now rewrite Ascii.eqb_refl.
  - intros H. apply andb_true_iff in H as [Hx Ha]. rewrite append_cons.
    cbn [splitHead]. apply negb_true_iff in Hx. rewrite Hx. now rewrite IH.
Qed.

Lemma digitChar_not_T (k : Z) : 0 <= k <= 9 -> Ascii.eqb (digitChar k) "T" = false.
Proof.
  intros Hk.
  assert (Hc : k = 0 \/ k = 1 \/ k = 2 \/ k = 3 \/ k = 4 \/ k = 5 \/ k = 6 \/ k = 7
               \/ k = 8 \/ k = 9) by lia.
  destruct Hc as [-> | [-> | [-> | [-> | [-> | [-> | [-> | [-> | [-> | ->]]]]]]]]];
    reflexivity.
Qed.

(** The year of a day number between the first day of year 0 and the last
    day of year 9999. *)
Lemma civil_year_range (z : Z) :
  -719528 <= z < 2932897 -> 0 <= fst (fst (civilFromDays z)) <= 9999.
Proof.
  intros Hz.
  destruct (civil_roundtrip z) as [R M]. pose proof (civil_valid z) as V.
  set (c := civilFromDays z) in *.
  pose proof (daysInMonth_range (fst (fst c)) (snd (fst c))) as Hdim.
  assert (E0 : daysFromCivil 0 1 1 = -719528) by (vm_compute; reflexivity).
  assert (E1 : daysFromCivil 10000 1 1 = 2932897) by (vm_compute; reflexivity).
  split.
  - destruct (Z.lt_ge_cases (fst (fst c)) 0) as [Hneg|]; [|assumption].
    pose proof (daysFromCivil_lt (fst (fst c)) (snd (fst c)) (snd c) 0 1 1 M V
                  ltac:(lia) ltac:(vm_compute; split; discriminate) ltac:(lia)).
    lia.
  - destruct (Z.lt_ge_cases 9999 (fst (fst c))) as [Hbig|]; [|lia].
    pose proof (daysFromCivil_lt 9999 12 31 (fst (fst c)) (snd (fst c)) (snd c)
                  ltac:(lia) ltac:(vm_compute; split; discriminate) M V ltac:(lia)).
    assert (daysFromCivil 9999 12 31 = 2932896) by (vm_compute; reflexivity).
    lia.
Qed.

(** The ISO text of a time value of the years 0..9999 starts with the date
    text of its UTC date, followed by "T". *)
Lemma toISOString_dateText (t : Z) :
  -62167219200000 <= t <= 253402300799999 ->
  exists rest,
    toISOString t = dateText (civilFromDays (t / msPerDay)) +:+ String "T" rest
    /\ String.length (dateText (civilFromDays (t / msPerDay))) = 10%nat
    /\ allChars (fun x => negb (Ascii.eqb x "T")) (dateText (civilFromDays (t / msPerDay)))
       = true.
Proof.
  intros Ht.
  assert (Hz : -719528 <= t / msPerDay < 2932897)
    by (unfold msPerDay; Z.div_mod_to_equations; lia).
  pose proof (civil_year_range _ Hz) as Hy.
  destruct (civil_roundtrip (t / msPerDay)) as [_ Hm].
  pose proof (civil_day_range (t / msPerDay)) as Hd.
  unfold toISOString.
  destruct (civilFromDays (t / msPerDay)) as [[y m] d] eqn:Hc. cbn [fst snd] in *.
  eexists. split; [|split].
  - unfold isoYear, dateText. cbn [fst snd].
    destruct (Z.leb_spec 0 y); [|lia]. destruct (Z.leb_spec y 9999); [|lia].
    cbn [andb]. rewrite !append_assoc. reflexivity.
  - rewrite dateText_digits by (cbn [fst snd]; lia). reflexivity.
  - rewrite dateText_digits by (cbn [fst snd]; lia). cbn [allChars fst snd].
    rewrite !digitChar_not_T by (Z.div_mod_to_equations; lia). reflexivity.
Qed.

Lemma isoSlice10_dateText (t : Z) :
  -62167219200000 <= t <= 253402300799999 ->
  isoSlice10 t = dateText (civilFromDays (t / msPerDay))
  /\ isoDateKey t = dateText (civilFromDays (t / msPerDay)).
Proof.
  intros Ht. destruct (toISOString_dateText t Ht) as (rest & Hiso & Hlen & HT).
  unfold isoSlice10, isoDateKey. rewrite Hiso. split.
  - rewrite <- Hlen at 1. apply slice0_prefix.
  - now apply splitHead_prefix.
Qed.

(** The date keys of two time values of the years 0..9999 are ordered, by
    character codes, as their UTC days are. *)
Lemma isoSlice10_compare (t1 t2 : Z) :
  -62167219200000 <= t1 <= 253402300799999 ->
  -62167219200000 <= t2 <= 253402300799999 ->
  String.compare (isoSlice10 t1) (isoSlice10 t2) = (t1 / msPerDay ?= t2 / msPerDay).
Proof.
  intros H1 H2.
  rewrite (proj1 (isoSlice10_dateText t1 H1)), (proj1 (isoSlice10_dateText t2 H2)).
  assert (Hz1 : -719528 <= t1 / msPerDay < 2932897)
    by (unfold msPerDay; Z.div_mod_to_equations; lia).
  assert (Hz2 : -719528 <= t2 / msPerDay < 2932897)
    by (unfold msPerDay; Z.div_mod_to_equations; lia).
  pose proof (civil_year_range _ Hz1). pose proof (civil_year_range _ Hz2).
  destruct (civil_roundtrip (t1 / msPerDay)) as [_ Hm1].
  destruct (civil_roundtrip (t2 / msPerDay)) as [_ Hm2].
  pose proof (civil_day_range (t1 / msPerDay)). pose proof (civil_day_range (t2 / msPerDay)).
  rewrite dateText_compare by lia. apply dateNumber_compare.
Qed.

Lemma isoDateKey_compare (t1 t2 : Z) :
  -62167219200000 <= t1 <= 253402300799999 ->
  -62167219200000 <= t2 <= 253402300799999 ->
  String.compare (isoDateKey t1) (isoDateKey t2) = (t1 / msPerDay ?= t2 / msPerDay).
Proof.
  intros H1 H2.
  rewrite (proj2 (isoSlice10_dateText t1 H1)), (proj2 (isoSlice10_dateText t2 H2)).
  rewrite <- (proj1 (isoSlice10_dateText t1 H1)), <- (proj1 (isoSlice10_dateText t2 H2)).
  now apply isoSlice10_compare.
Qed.

End DateKeys.
(** ** The date extractor: the relative layer, the year inference and the
    date keys *)

Section DateFacts.

Import JsString Regex JsDate DateExtractor.

Lemma Matches_Seq_inv (icase : bool) (r1 r2 : regex) prev s c prev2 s2 c2 :
  Matches icase (Seq r1 r2) prev s c prev2 s2 c2 ->
  exists prev1 s1 c1,
    Matches icase r1 prev s c prev1 s1 c1 /\ Matches icase r2 prev1 s1 c1 prev2 s2 c2.
Proof. inversion 1; subst; eauto 6. Qed.

Lemma Matches_Group_inv (icase : bool) (n : nat) (r : regex) prev s c prev' s' c' :
  Matches icase (Group n r) prev s c prev' s' c' ->
  exists c1,
    Matches icase r prev s c prev' s' c1
    /\ c' = (n, slice0 (String.length s - String.length s') s) :: c1.
Proof. inversion 1; subst; eauto. Qed.

(** The count of "next N days" is the value of a run of digits. *)
Lemma nextN_count_nonneg (lower : string) (m : captures) :
  exec false nextNRe lower = Some m -> 0 <= num m 1.
Proof.
  intros Hm. apply exec_Matches in Hm as (pre & s & prev' & s' & _ & HM).
  unfold nextNRe in HM. cbn [Seqs] in HM.
  apply Matches_Seq_inv in HM as (p1 & s1 & c1 & H1 & HM).
  apply Matches_groupFree in H1 as ->; [|reflexivity].
  apply Matches_Seq_inv in HM as (p2 & s2 & c2 & H2 & HM).
  apply Matches_groupFree in H2 as ->; [|apply groupFree_Lit].
  apply Matches_Seq_inv in HM as (p3 & s3 & c3 & H3 & HM).
  apply Matches_groupFree in H3 as ->; [|reflexivity].
  apply Matches_Seq_inv in HM as (p4 & s4 & c4 & H4 & HM).
  apply Matches_Group_inv in H4 as (c4' & H4 & ->).
  apply Matches_Plus_Class in H4 as (a & mid & -> & Hdigits & ->).
  rewrite slice0_app in HM.
  apply Matches_Seq_inv in HM as (p5 & s5 & c5 & H5 & HM).
  apply Matches_groupFree in H5 as ->; [|reflexivity].
  apply Matches_Seq_inv in HM as (p6 & s6 & c6 & H6 & HM).
  apply Matches_Group_inv in H6 as (c6' & H6 & ->).
  apply Matches_groupFree in H6 as ->; [|reflexivity].
  apply Matches_groupFree in HM as ->; [|reflexivity].
  unfold num, group. cbn [capture Nat.eqb].
  now apply parseDigitsAux_nonneg.
Qed.

Lemma firstDay_range (text : string) (days : list string) :
  forall i j, firstDay text i days = Some j -> i <= j < i + Z.of_nat (length days).
Proof.
  induction days as [|d days IH]; intros i j; cbn [firstDay length]; [discriminate|].
  destruct (test true (dayRe d) text).
  - intros [= <-]. lia.
  - intros H. apply IH in H. lia.
Qed.

Lemma option_match_intro_eq {A B : Type} (P : B -> Prop) (o : option A) (f : A -> B)
    (y : B) :
  (forall a, o = Some a -> P (f a)) -> (o = None -> P y) ->
  P (match o with Some a => f a | None => y end).
Proof. destruct o; auto. Qed.

(** With the offset of local time fixed, a move by [k] local days is a
    move by [k] times 24 hours: the dates of the relative layer as offsets
    from the reference instant. *)
Lemma extractRelative_offsets (tz : Z) (text : string) (ref : Z)
    (r : DateResult) :
  -8640000000000000 <= ref <= 8640000000000000 - 8 * msPerDay ->
  extractRelative tz text ref = Some r ->
  exists k,
    0 <= k <= 8
    /\ start r = At (ref + k * msPerDay)
    /\ match end_ r with
       | Some e => exists j, k <= j /\ e = timeClip (ref + j * msPerDay)
       | None => True
       end.
Proof.
  intros Href.
  set (P := fun o : option DateResult =>
              match o with
              | Some r' =>
                  exists k,
                    0 <= k <= 8
                    /\ start r' = At (ref + k * msPerDay)
                    /\ match end_ r' with
                       | Some e => exists j, k <= j /\ e = timeClip (ref + j * msPerDay)
                       | None => True
                       end
              | None => True
              end).
  assert (H : P (extractRelative tz text ref)).
  { pose proof (getDay_range tz ref) as Hday.
    assert (Hadd : forall k, 0 <= k <= 8 ->
                     addDays tz (At ref) k = At (ref + k * msPerDay)).
    { intros k Hk. rewrite addDays_moves_days. apply timeClip_valid.
      unfold msPerDay in *. lia. }
    unfold extractRelative.
    apply (if_intro P).
    { exists 1. cbn [start end_]. rewrite Hadd by lia. auto with zarith. }
    apply (if_intro P).
    { exists 0. cbn [start end_]. split; [lia|]. split; [f_equal; lia|exact I]. }
    apply (option_match_intro_eq P).
    { intros nextN HnextN. exists 0. cbn [start end_].
      split; [lia|]. split; [f_equal; lia|].
      exists (num nextN 1 * (if (group nextN 2 =? "week")%string then 7 else 1)).
      split; [|apply addDays_moves_days].
      pose proof (nextN_count_nonneg _ _ HnextN).
      destruct (group nextN 2 =? "week")%string; lia. }
    intros _. apply (if_intro P).
    { exists (7 - getDay tz ref + 1). cbn [start end_]. rewrite Hadd by lia.
      split; [lia|]. split; [reflexivity|].
      exists (7 - getDay tz ref + 1 + 6). split; [lia|].
      rewrite addDays_moves_days. f_equal. lia. }
    apply (option_match_intro_eq P).
    { intros i Hi. apply firstDay_range in Hi. cbn [length DAYS] in Hi.
      set (diff := (i - getDay tz ref + 7) mod 7).
      assert (Hdiff : 0 <= diff < 7) by (apply Z.mod_pos_bound; lia).
      exists (if diff =? 0 then 7 else diff). cbn [start end_].
      assert (Hk : 1 <= (if diff =? 0 then 7 else diff) <= 7)
        by (destruct (Z.eqb_spec diff 0); lia).
      rewrite Hadd by lia. split; [lia|]. split; [reflexivity|exact I]. }
    intros _. apply (if_intro P); [|exact I].
    set (k := (6 - getDay tz ref + 7) mod 7).
    assert (Hk : 0 <= k < 7) by (apply Z.mod_pos_bound; lia).
    exists k. cbn [start end_]. rewrite Hadd by lia.
    split; [lia|]. split; [reflexivity|].
    exists (k + 1). split; [lia|]. rewrite addDays_moves_days. f_equal. lia. }
  intros Hr. rewrite Hr in H. exact H.
Qed.

Lemma if_false_intro {A : Type} (P : A -> Prop) (b : bool) (x y : A) :
  b = false -> P y -> P (if b then x else y).
Proof. now intros ->. Qed.

Lemma option_none_intro {A B : Type} (P : B -> Prop) (o : option A) (f : A -> B) (y : B) :
  o = None -> P y -> P (match o with Some a => f a | None => y end).
Proof. now intros ->. Qed.

Lemma option_some_intro {A B : Type} (P : B -> Prop) (o : option A) (f : A -> B) (y : B)
    (a : A) :
  o = Some a -> P (f a) -> P (match o with Some a => f a | None => y end).
Proof. now intros ->. Qed.

(** The weekday pattern of the relative layer, as an offset from the
    reference instant. *)
Lemma extractRelative_weekday_offset (tz : Z) (text : string) (ref i : Z) :
  -8640000000000000 <= ref <= 8640000000000000 - 7 * msPerDay ->
  test false tomorrowRe (toLowerCase text) = false ->
  test false todayRe (toLowerCase text) = false ->
  exec false nextNRe (toLowerCase text) = None ->
  test false nextWeekRe (toLowerCase text) = false ->
  firstDay text 0 DAYS = Some i ->
  exists k,
    1 <= k <= 7
    /\ extractRelative tz text ref
       = Some (mkResult (At (ref + k * msPerDay)) None relative)
    /\ getDay tz (ref + k * msPerDay) = i
    /\ (getDay tz ref = i -> k = 7).
Proof.
  intros Href H1 H2 H3 H4 H5.
  pose proof (getDay_range tz ref) as Hday.
  pose proof (firstDay_range _ _ _ _ H5) as Hi. cbn [length DAYS] in Hi.
  set (diff := (i - getDay tz ref + 7) mod 7).
  assert (Hdiff : 0 <= diff < 7) by (apply Z.mod_pos_bound; lia).
  exists (if diff =? 0 then 7 else diff).
  assert (Hk : 1 <= (if diff =? 0 then 7 else diff) <= 7)
    by (destruct (Z.eqb_spec diff 0); lia).
  split; [exact Hk|]. split; [|split].
  - unfold extractRelative.
    apply (if_false_intro (fun o => o = _) _ _ _ H1).
    apply (if_false_intro (fun o => o = _) _ _ _ H2).
    apply (option_none_intro (fun o => o = _) _ _ _ H3).
    apply (if_false_intro (fun o => o = _) _ _ _ H4).
    apply (option_some_intro (fun o => o = _) _ _ _ _ H5).
    fold diff. rewrite addDays_moves_days, timeClip_valid by (unfold msPerDay in *; lia).
    reflexivity.
  - rewrite getDay_shift. unfold diff.
    destruct (Z.eqb_spec ((i - getDay tz ref + 7) mod 7) 0) as [E|E];
      Z.div_mod_to_equations; lia.
  - intros E. unfold diff. rewrite E.
    replace (i - i + 7) with (1 * 7) by lia. now rewrite Z.mod_mul.
Qed.

(** A relative date is never before the reference date: it starts on the
    local calendar day of the reference date or on one of the eight days
    after it, not before the reference instant, and an end date falls on a
    local day that is not before the day of the start. *)
Theorem extractRelative_not_before_ref (tz : Z) (text : string) (ref : Z)
    (r : DateResult) :
  -8640000000000000 <= ref <= 8640000000000000 - 8 * msPerDay ->
  extractRelative tz text ref = Some r ->
  exists t k,
    start r = At t
    /\ ref <= t
    /\ 0 <= k <= 8
    /\ localDay tz t = localDay tz ref + k
    /\ match end_ r with
       | Some (At te) =>
           t <= te /\ exists j, k <= j /\ localDay tz te = localDay tz ref + j
       | _ => True
       end.
Proof.
  intros Href Hr.
  destruct (extractRelative_offsets tz text ref r Href Hr) as (k & Hk & Hstart & Hend).
  exists (ref + k * msPerDay), k.
  split; [exact Hstart|]. split; [unfold msPerDay; lia|]. split; [exact Hk|].
  split; [apply localDay_shift|].
  destruct (end_ r) as [[|te]|]; [exact I| |exact I].
  destruct Hend as (j & Hj & Hte). unfold timeClip in Hte.
  destruct (Z.abs (ref + j * msPerDay) <=? 8640000000000000); [|discriminate].
  injection Hte as ->. split; [unfold msPerDay; lia|].
  exists j. split; [exact Hj|apply localDay_shift].
Qed.

(** "this/next/coming <weekday>", when no earlier pattern of the layer
    applies, is the next day of that weekday strictly after the reference
    date: a local calendar day one to seven days after the day of the
    reference date that falls on the weekday named, a week later when the
    reference date falls on that weekday itself. *)
Theorem extractRelative_weekday (tz : Z) (text : string) (ref i : Z) :
  -8640000000000000 <= ref <= 8640000000000000 - 7 * msPerDay ->
  test false tomorrowRe (toLowerCase text) = false ->
  test false todayRe (toLowerCase text) = false ->
  exec false nextNRe (toLowerCase text) = None ->
  test false nextWeekRe (toLowerCase text) = false ->
  firstDay text 0 DAYS = Some i ->
  exists t k,
    extractRelative tz text ref = Some (mkResult (At t) None relative)
    /\ ref < t
    /\ 1 <= k <= 7
    /\ localDay tz t = localDay tz ref + k
    /\ getDay tz t = i
    /\ (getDay tz ref = i -> k = 7).
Proof.
  intros Href H1 H2 H3 H4 H5.
  destruct (extractRelative_weekday_offset tz text ref i Href H1 H2 H3 H4 H5)
    as (k & Hk & Hres & Hday & Hsame).
  exists (ref + k * msPerDay), k.
  split; [exact Hres|]. split; [unfold msPerDay; lia|]. split; [exact Hk|].
  split; [apply localDay_shift|]. split; assumption.
Qed.

Lemma extractRelative_weekday_witness :
  exists t k,
    extractRelative 19800000 "Sale opens this Friday" 1770697800000
    = Some (mkResult (At t) None relative)
    /\ 1770697800000 < t
    /\ 1 <= k <= 7
    /\ localDay 19800000 t = localDay 19800000 1770697800000 + k
    /\ getDay 19800000 t = 5
    /\ (getDay 19800000 1770697800000 = 5 -> k = 7).
Proof.
  apply (extractRelative_weekday 19800000 "Sale opens this Friday" 1770697800000 5);
    [unfold msPerDay; lia | vm_compute; reflexivity ..].
Defined.

Lemma extractRelative_not_before_ref_witness :
  exists t k,
    start (mkResult (At 1771216200000) (Some (At 1771734600000)) relative) = At t
    /\ 1770697800000 <= t
    /\ 0 <= k <= 8
    /\ localDay 19800000 t = localDay 19800000 1770697800000 + k
    /\ match end_ (mkResult (At 1771216200000) (Some (At 1771734600000)) relative) with
       | Some (At te) =>
           t <= te
           /\ exists j, k <= j /\ localDay 19800000 te = localDay 19800000 1770697800000 + j
       | _ => True
       end.
Proof.
  apply (extractRelative_not_before_ref 19800000 "Book fair next week" 1770697800000);
    [unfold msPerDay; lia | vm_compute; reflexivity].
Defined.

Lemma localDay_bounds (tz t : Z) :
  localDay tz t * msPerDay - tz <= t < (localDay tz t + 1) * msPerDay - tz.
Proof.
  unfold localDay, msPerDay.
  pose proof (Z.div_mod (t + tz) 86400000 ltac:(lia)).
  pose proof (Z.mod_pos_bound (t + tz) 86400000 ltac:(lia)). lia.
Qed.

Lemma makeDay_month (y m d : Z) :
  0 <= m <= 11 -> makeDay y m d = daysFromCivil y (m + 1) 1 + d - 1.
Proof.
  intros Hm. unfold makeDay. rewrite (Z.div_small m), (Z.mod_small m) by lia.
  do 3 f_equal. lia.
Qed.

(** Moving a local midnight to the next year moves it by a year's length. *)
Lemma setFullYear_next (tz D : Z) :
  exists n,
    365 <= n <= 366
    /\ setFullYear tz (At (D * msPerDay - tz)) (getFullYear tz (D * msPerDay - tz) + 1)
       = timeClip ((D + n) * msPerDay - tz).
Proof.
  unfold setFullYear, getFullYear, getMonth, getDate, timeWithinDay.
  rewrite localDay_midnight.
  destruct (civil_roundtrip D) as [Hday Hm].
  set (civil := civilFromDays D) in *.
  rewrite makeDay_month by lia.
  replace (snd (fst civil) - 1 + 1) with (snd (fst civil)) by lia.
  pose proof (year_length (fst (fst civil)) (snd (fst civil)) (snd civil) Hm) as Hlen.
  rewrite (daysFromCivil_day (fst (fst civil) + 1)), Hday in Hlen.
  rewrite (daysFromCivil_day (fst (fst civil))) in Hday.
  exists (daysFromCivil (fst (fst civil) + 1) (snd (fst civil)) 1 + snd civil - 1 - D).
  split; [lia|]. f_equal.
  replace (D * msPerDay - tz + tz) with (D * msPerDay) by lia.
  rewrite Z.mod_mul by (unfold msPerDay; lia). lia.
Qed.

(** The year inference never yields a date more than 30 days before the
    reference date: for a month and a day as the patterns capture them,
    the date is valid, at most 30 days before the reference date and at
    most 433 days after it. *)
Theorem inferYear_within_30_days (tz mo day ref : Z) :
  -86400000 <= tz <= 86400000 ->
  0 <= mo <= 11 -> 0 <= day <= 99 ->
  99 < getFullYear tz ref ->
  -8640000000000000 + 500 * msPerDay <= ref <= 8640000000000000 - 500 * msPerDay ->
  exists t,
    inferYear tz (Some mo) day ref = At t
    /\ ref - 30 * msPerDay <= t <= ref + 433 * msPerDay.
Proof.
  intros Htz Hmo Hday Hy Href.
  pose proof (localDay_in_year tz ref) as Hyear.
  pose proof (localDay_bounds tz ref) as Hloc.
  set (y := getFullYear tz ref) in *. set (D := localDay tz ref) in *.
  pose proof (month_offset y (mo + 1) ltac:(lia)) as Hoff.
  pose proof (year_length y 1 1 ltac:(lia)) as Hlen.
  unfold inferYear, monthArg. fold y. clearbody y D.
  rewrite newDate_full_year by lia.
  rewrite makeDay_month by lia.
  remember (daysFromCivil y (mo + 1) 1 + day - 1) as D0 eqn:HD0.
  rewrite timeClip_valid by (unfold msPerDay in *; lia).
  destruct (Z.ltb_spec (D0 * msPerDay - tz) ref) as [Hlt|Hge]; cbn [andb].
  - destruct (Z.ltb_spec (30 * 86400000) (ref - (D0 * msPerDay - tz))) as [Hold|Hnew].
    + destruct (setFullYear_next tz D0) as (n & Hn & ->).
      rewrite timeClip_valid by (unfold msPerDay in *; lia).
      eexists. split; [reflexivity|]. unfold msPerDay in *. lia.
    + eexists. split; [reflexivity|]. unfold msPerDay in *. lia.
  - eexists. split; [reflexivity|]. unfold msPerDay in *. lia.
Qed.

Lemma inferYear_within_30_days_witness :
  exists t,
    inferYear 19800000 (Some 0) 5 1770697800000 = At t
    /\ 1770697800000 - 30 * msPerDay <= t <= 1770697800000 + 433 * msPerDay.
Proof.
  apply (inferYear_within_30_days 19800000 0 5 1770697800000);
    [lia | lia | lia | vm_compute; reflexivity | unfold msPerDay; lia].
Defined.

(** The keys of the loop of [expandDateKeys] from a day on which the next
    day is still a time value. *)
Lemma expandLoop_keys (tz : Z) (ts : Z) (n : nat) :
  ts <= 8640000000000000 - msPerDay ->
  forall td,
    -8640000000000000 <= td ->
    expandLoop tz n (At td) (At ts)
    = map (fun i => isoSlice10 (td + Z.of_nat i * msPerDay))
        (seq 0 (Nat.min n (Z.to_nat ((ts - td) / msPerDay + 1)))).
Proof.
  intros Hts. induction n as [|n IH]; intros td Htd; [reflexivity|].
  cbn [expandLoop].
  assert (Hday : 0 < msPerDay) by (unfold msPerDay; lia).
  destruct (Z.leb_spec td ts) as [Hle|Hgt].
  - rewrite addDays_moves_days, timeClip_valid by (unfold msPerDay in *; lia).
    rewrite IH by (unfold msPerDay in *; lia).
    assert (Hq : (ts - td) / msPerDay = (ts - (td + 1 * msPerDay)) / msPerDay + 1).
    { replace (ts - td) with (ts - (td + 1 * msPerDay) + 1 * msPerDay) by lia.
      rewrite Z.div_add by lia. lia. }
    assert (Hq0 : 0 <= (ts - td) / msPerDay) by (apply Z.div_pos; lia).
    rewrite Hq in *.
    set (q := (ts - (td + 1 * msPerDay)) / msPerDay + 1) in *.
    replace (Z.to_nat (q + 1)) with (S (Z.to_nat q)) by lia.
    cbn [Nat.min seq map]. f_equal; [f_equal; lia|].
    rewrite <- seq_shift, map_map. apply map_ext. intros i. f_equal. lia.
  - assert (Hq : (ts - td) / msPerDay < 0) by (apply Z.div_lt_upper_bound; lia).
    replace (Z.to_nat ((ts - td) / msPerDay + 1)) with O by lia.
    now rewrite Nat.min_0_r.
Qed.

Lemma expandLoop_length (tz : Z) (n : nat) (d stop : Date) :
  (length (expandLoop tz n d stop) <= n)%nat.
Proof.
  revert d. induction n as [|n IH]; intros d; cbn [expandLoop length]; [lia|].
  destruct d as [|td]; [cbn; lia|]. destruct stop as [|ts]; [cbn; lia|].
  destruct (td <=? ts); cbn [length]; [|lia].
  specialize (IH (addDays tz (At td) 1)). lia.
Qed.

(** The date keys of a date result: never more than [maxDays] and, for
    dates well inside the range of time values, one key per local day from
    the day of the start to the day of the end (the day of the start alone
    without an end), each the first ten characters of the ISO text of the
    local midnight of its day; none when the end is before the start. *)
Theorem expandDateKeys_days (tz : Z) (r : option DateResult) (maxDays : nat) :
  (length (expandDateKeys tz r maxDays) <= maxDays)%nat
  /\ forall s e k,
       r = Some (mkResult (At s) (option_map At e) k) ->
       -86400000 <= tz <= 86400000 ->
       -8640000000000000 + 2 * msPerDay <= s <= 8640000000000000 - 2 * msPerDay ->
       (forall te, e = Some te ->
          -8640000000000000 + 2 * msPerDay <= te <= 8640000000000000 - 2 * msPerDay) ->
       let last := match e with
                   | Some te => localDay tz te
                   | None => localDay tz s
                   end in
       expandDateKeys tz r maxDays
       = map (fun i => isoSlice10 ((localDay tz s + Z.of_nat i) * msPerDay - tz))
           (seq 0 (Nat.min maxDays (Z.to_nat (last - localDay tz s + 1)))).
Proof.
  split.
  { destruct r as [r0|]; cbn [expandDateKeys length]; [|lia]. apply expandLoop_length. }
  intros s e k -> Htz Hs He last. cbn [expandDateKeys start end_].
  pose proof (localDay_bounds tz s) as Hloc.
  assert (Hstart : setHoursZero tz (At s) = At (localDay tz s * msPerDay - tz)).
  { cbn [setHoursZero]. apply timeClip_valid. unfold msPerDay in *. lia. }
  rewrite Hstart.
  assert (Hstop : match option_map At e with
                  | Some e0 => setHoursZero tz e0
                  | None => setHoursZero tz (At (localDay tz s * msPerDay - tz))
                  end = At (last * msPerDay - tz)).
  { unfold last. destruct e as [te|]; cbn [option_map setHoursZero].
    - pose proof (localDay_bounds tz te). specialize (He te eq_refl).
      apply timeClip_valid. unfold msPerDay in *. lia.
    - rewrite localDay_midnight. apply timeClip_valid. unfold msPerDay in *. lia. }
  rewrite Hstop.
  assert (Hlast : -8640000000000000 + msPerDay <= last * msPerDay - tz
                  <= 8640000000000000 - msPerDay).
  { unfold last. destruct e as [te|].
    - pose proof (localDay_bounds tz te). specialize (He te eq_refl).
      unfold msPerDay in *. lia.
    - unfold msPerDay in *. lia. }
  rewrite expandLoop_keys by (unfold msPerDay in *; lia).
  replace (last * msPerDay - tz - (localDay tz s * msPerDay - tz))
    with ((last - localDay tz s) * msPerDay) by lia.
  rewrite Z.div_mul by (unfold msPerDay; lia).
  apply map_ext. intros i. f_equal. lia.
Qed.

Lemma expandDateKeys_days_witness :
  expandDateKeys 0 (Some (mkResult (At 1770697800000) (Some (At 1770900000000)) range)) 14
  = ["2026-02-10"; "2026-02-11"; "2026-02-12"].
Proof.
  etransitivity.
  - apply (proj2 (expandDateKeys_days 0
                    (Some (mkResult (At 1770697800000) (Some (At 1770900000000)) range))
                    14)
             1770697800000 (Some 1770900000000) range eq_refl);
      [lia | unfold msPerDay; lia |].
    intros te [= <-]. unfold msPerDay. lia.
  - vm_compute. reflexivity.
Defined.

(** The ISO layer keeps the year, the month and the day that the text
    gives: for a date of the calendar with a full year, the result of
    [extractDate] is the local midnight with those fields, whatever the
    reference date. *)
Theorem extractDate_iso_fields (tz now : Z) (text : string) (ref : option Z)
    (m : captures) :
  -86400000 <= tz <= 86400000 ->
  exec false isoRe text = Some m ->
  100 <= num m 1 <= 9999 ->
  1 <= num m 2 <= 12 ->
  1 <= num m 3 <= daysInMonth (num m 1) (num m 2) ->
  exists t,
    extractDate tz now text (option_map At ref) = Some (mkResult (At t) None iso)
    /\ getFullYear tz t = num m 1
    /\ getMonth tz t = num m 2 - 1
    /\ getDate tz t = num m 3.
Proof.
  intros Htz Hm Hy Hmo Hd.
  destruct (newDate_fields tz (num m 1) (num m 2 - 1) (num m 3) Htz Hy ltac:(lia))
    as (t & Ht & Hfy & Hfm & Hfd & _).
  { now replace (num m 2 - 1 + 1) with (num m 2) by lia. }
  exists t. split; [|auto].
  unfold extractDate.
  destruct (String.eqb_spec text "") as [->|_]; [vm_compute in Hm; discriminate|].
  assert (Hiso : forall r, extractISO tz text r = Some (mkResult (At t) None iso)).
  { intros r. unfold extractISO. now rewrite Hm, Ht. }
  destruct ref as [r|]; cbn [option_map]; now rewrite Hiso.
Qed.

Lemma extractDate_iso_fields_witness :
  exists t,
    extractDate 19800000 0 "Expo opens 2026-02-14" (option_map At (Some 1770697800000))
    = Some (mkResult (At t) None iso)
    /\ getFullYear 19800000 t = num [(3, "14"); (2, "02"); (1, "2026")]%nat 1
    /\ getMonth 19800000 t = num [(3, "14"); (2, "02"); (1, "2026")]%nat 2 - 1
    /\ getDate 19800000 t = num [(3, "14"); (2, "02"); (1, "2026")]%nat 3.
Proof.
  apply (extractDate_iso_fields 19800000 0 "Expo opens 2026-02-14" (Some 1770697800000)
           [(3, "14"); (2, "02"); (1, "2026")]%nat);
    [lia | vm_compute; reflexivity | vm_compute; split; discriminate ..].
Defined.

(** No result of [extractDate] has kind [deadline]; here on a text of the
    deadline layer. *)
Lemma extractDate_never_deadline_witness :
  type (mkResult (inferYear 0 (Some 1) 12 1770697800000) None named) <> deadline.
Proof.
  apply (extractDate_never_deadline 0 0 "ends Feb 12" (Some (At 1770697800000))).
  vm_compute. reflexivity.
Defined.

End DateFacts.
(** ** The planner store: how its operations compose *)

Section PlannerFacts.

Import JsString JsDate PlannerStorage.

Lemma mergeItems_covered (now : Z) (items day : list PlannerItem) :
  (forall item, In item items -> isDuplicate day item = true) ->
  mergeItems now day items = day.
Proof.
  induction items as [|item items IH]; intros Hcov; cbn [mergeItems]; [reflexivity|].
  rewrite (Hcov item) by now left. apply IH. intros item' Hin. apply Hcov. now right.
Qed.

Lemma mergeItems_idem (now : Z) (items day : list PlannerItem) :
  mergeItems now (mergeItems now day items) items = mergeItems now day items.
Proof. apply mergeItems_covered. apply (mergeItems_spec now items day). Qed.

(** What the inner loop of [merge] appends are stamped copies of incoming
    items. *)
Lemma mergeItems_added (now : Z) (items day : list PlannerItem) :
  exists added,
    mergeItems now day items = (day ++ added)%list
    /\ Forall (fun x => exists item, In item items /\ x = stamped now item) added.
Proof.
  revert day. induction items as [|item items IH]; intros day; cbn [mergeItems].
  - exists []. now rewrite app_nil_r.
  - destruct (isDuplicate day item).
    + destruct (IH day) as (added & Hadd & Hall). exists added. split; [assumption|].
      eapply Forall_impl; [exact Hall|]. intros x (i & Hi & ->). exists i. split; [now right|reflexivity].
    + destruct (IH (day ++ [stamped now item])%list) as (added & Hadd & Hall).
      exists (stamped now item :: added). split.
      * fold (stamped now item). now rewrite Hadd, <- app_assoc.
      * constructor; [exists item; split; [now left|reflexivity]|].
        eapply Forall_impl; [exact Hall|]. intros x (i & Hi & ->). exists i.
        split; [now right|reflexivity].
Qed.

(** The outer loop of [merge] on a merged key: the inner loop ran on the
    list that the day had, and running it again changes nothing. *)
Lemma mergeKeys_lookup_in (now : Z) (items : list PlannerItem) (dateKeys : list string) :
  forall (data : gmap string (list PlannerItem)) (k : string),
    In k dateKeys ->
    mergeKeys now data dateKeys items !! k
    = Some (mergeItems now (dayItems data k) items).
Proof.
  induction dateKeys as [|key dateKeys IH]; intros data k; cbn [mergeKeys In];
    [tauto|].
  intros Hin.
  destruct (in_dec string_dec k dateKeys) as [Hlater|Hlast].
  - rewrite IH by assumption. rewrite dayItems_insert. case_decide as Hk; [|reflexivity].
    subst k. now rewrite mergeItems_idem.
  - destruct Hin as [->|Hin]; [|tauto].
    rewrite (proj1 (mergeKeys_spec now items dateKeys _)) by assumption.
    now rewrite lookup_insert_eq.
Qed.

Lemma prune_cutoff (tz now : Z) (data : gmap string (list PlannerItem)) (cutoff : string) :
  cutoffKey tz now = Some cutoff ->
  prune tz now data = Some (filter (fun kv => lt (fst kv) cutoff = false) data).
Proof. unfold prune. now intros ->. Qed.

Lemma filter_cutoff_lookup (data : gmap string (list PlannerItem)) (cutoff k : string) :
  filter (fun kv => lt (fst kv) cutoff = false) data !! k
  = if lt k cutoff then None else data !! k.
Proof.
  destruct (lt k cutoff) eqn:Hk.
  - apply map_lookup_filter_None. right. intros l _. cbn. congruence.
  - destruct (data !! k) as [l|] eqn:Hl.
    + apply map_lookup_filter_Some. split; [assumption|exact Hk].
    + apply map_lookup_filter_None. now left.
Qed.

Lemma save_writable (data : gmap string (list PlannerItem)) (ls : LocalStorage) :
  writable ls = true -> save data ls = mkStorage (Some data) true.
Proof. unfold save. now intros ->. Qed.

(** A second merge over a pruned store that the first merge built gives
    the same days. *)
Lemma mergeKeys_again (now : Z) (items : list PlannerItem) (dateKeys : list string)
    (pruned : gmap string (list PlannerItem)) (cutoff : string) :
  (forall k, lt k cutoff = true -> pruned !! k = None) ->
  mergeKeys now
    (filter (fun kv => lt (fst kv) cutoff = false) (mergeKeys now pruned dateKeys items))
    dateKeys items
  = mergeKeys now pruned dateKeys items.
Proof.
  intros Hpruned. apply map_eq. intros k.
  destruct (in_dec string_dec k dateKeys) as [Hin|Hout].
  - rewrite !mergeKeys_lookup_in by assumption. f_equal.
    unfold dayItems at 1. rewrite filter_cutoff_lookup.
    destruct (lt k cutoff) eqn:Hk.
    + unfold dayItems. now rewrite Hpruned.
    + rewrite mergeKeys_lookup_in by assumption. apply mergeItems_idem.
  - rewrite (proj1 (mergeKeys_spec now items dateKeys _)) by assumption.
    rewrite filter_cutoff_lookup.
    rewrite (proj1 (mergeKeys_spec now items dateKeys _)) by assumption.
    destruct (lt k cutoff) eqn:Hk; [|reflexivity]. now rewrite Hpruned.
Qed.

(** Merging the same items under the same keys a second time, at the same
    clock, leaves the store as the first merge left it. *)
Theorem merge_idempotent (tz now : Z) (dateKeys : list string)
    (items : list PlannerItem) (ls ls1 : LocalStorage) :
  writable ls = true ->
  merge tz now dateKeys items ls = Some ls1 ->
  merge tz now dateKeys items ls1 = Some ls1.
Proof.
  intros Hw Hmerge.
  destruct (merge_inv _ _ _ _ _ _ Hmerge) as (pruned & Hprune & ->).
  destruct (prune_lookup _ _ _ _ Hprune) as (cutoff & Hcut & Hpruned).
  rewrite save_writable by assumption.
  unfold merge. cbn [load entry]. rewrite (prune_cutoff _ _ _ _ Hcut).
  rewrite save_writable by reflexivity.
  rewrite (mergeKeys_again now items dateKeys pruned cutoff); [reflexivity|].
  intros k Hk. now rewrite Hpruned, Hk.
Qed.

Lemma merge_idempotent_witness :
  merge 0 1770697800000 ["2026-02-14"] [Samples.cityConcert1; Samples.cityConcert2]
    (mkStorage
       (Some {["2026-02-14" := [stamped 1770697800000 Samples.cityConcert1;
                                stamped 1770697800000 Samples.cityConcert2]]})
       true)
  = Some (mkStorage
            (Some {["2026-02-14" := [stamped 1770697800000 Samples.cityConcert1;
                                     stamped 1770697800000 Samples.cityConcert2]]})
            true).
Proof.
  apply (merge_idempotent 0 1770697800000 ["2026-02-14"]
           [Samples.cityConcert1; Samples.cityConcert2] Samples.emptyStorage);
    [reflexivity|].
  vm_compute. reflexivity.
Defined.

(** The outer loop of [merge] appends, to every day, stamped copies of
    incoming items only. *)
Lemma mergeKeys_added (now : Z) (items : list PlannerItem) (dateKeys : list string) :
  forall (data : gmap string (list PlannerItem)) (k : string),
    exists added,
      dayItems (mergeKeys now data dateKeys items) k = (dayItems data k ++ added)%list
      /\ Forall (fun x => exists item, In item items /\ x = stamped now item) added.
Proof.
  induction dateKeys as [|key dateKeys IH]; intros data k; cbn [mergeKeys].
  - exists []. now rewrite app_nil_r.
  - destruct (IH (<[key := mergeItems now (dayItems data key) items]> data) k)
      as (more & Hmore & Hall).
    rewrite Hmore, dayItems_insert. case_decide as Hk.
    + subst k. destruct (mergeItems_added now items (dayItems data key))
        as (added & -> & Hadded).
      exists (added ++ more)%list. rewrite <- app_assoc. split; [reflexivity|].
      apply Forall_app. now split.
    + now exists more.
Qed.

(** A merge never rewrites what a day holds: when the storage cannot be
    written the store is left as it is, and otherwise every day that is
    not below the cutoff keeps its records, in their order, in front of
    what the merge appends, which are copies of incoming items stamped
    with the clock. *)
Theorem merge_appends_only (tz now : Z) (dateKeys : list string)
    (items : list PlannerItem) (ls ls' : LocalStorage) :
  merge tz now dateKeys items ls = Some ls' ->
  (writable ls = false -> ls' = ls)
  /\ (writable ls = true ->
      exists cutoff,
        cutoffKey tz now = Some cutoff
        /\ forall k,
             lt k cutoff = false ->
             exists added,
               getDay ls' k = (getDay ls k ++ added)%list
               /\ Forall (fun x => exists item, In item items /\ x = stamped now item)
                    added).
Proof.
  intros Hmerge.
  destruct (merge_inv _ _ _ _ _ _ Hmerge) as (pruned & Hprune & ->).
  destruct (prune_lookup _ _ _ _ Hprune) as (cutoff & Hcut & Hpruned).
  split.
  - intros Hw. unfold save. now rewrite Hw.
  - intros Hw. exists cutoff. split; [assumption|]. intros k Hk.
    unfold getDay. rewrite load_save by assumption.
    destruct (mergeKeys_added now items dateKeys pruned k) as (added & Hadd & Hall).
    exists added. split; [|assumption].
    rewrite Hadd. unfold dayItems. now rewrite Hpruned, Hk.
Qed.

Lemma merge_appends_only_witness :
  (writable Samples.emptyStorage = false ->
   mkStorage (Some {["2026-02-14" := [stamped 1770697800000 Samples.cityConcert1]]}) true
   = Samples.emptyStorage)
  /\ (writable Samples.emptyStorage = true ->
      exists cutoff,
        cutoffKey 0 1770697800000 = Some cutoff
        /\ forall k,
             lt k cutoff = false ->
             exists added,
               getDay (mkStorage
                         (Some {["2026-02-14" := [stamped 1770697800000 Samples.cityConcert1]]})
                         true) k
               = (getDay Samples.emptyStorage k ++ added)%list
               /\ Forall (fun x => exists item,
                                     In item [Samples.cityConcert1]
                                     /\ x = stamped 1770697800000 item)
                    added).
Proof.
  apply (merge_appends_only 0 1770697800000 ["2026-02-14"] [Samples.cityConcert1]
           Samples.emptyStorage).
  vm_compute. reflexivity.
Defined.

Lemma removeItem_getDay (dateKey itemId : string) (ls : LocalStorage) :
  writable ls = true ->
  getDay (removeItem dateKey itemId ls) dateKey
  = filter (fun i => id i <> itemId) (getDay ls dateKey).
Proof.
  intros Hw. unfold removeItem, getDay, dayItems.
  destruct (load ls !! dateKey) as [l|] eqn:Hl.
  - rewrite load_save by assumption.
    destruct (filter (fun i => id i <> itemId) l) as [|x l'] eqn:Hf.
    + now rewrite lookup_delete_eq.
    + now rewrite lookup_insert_eq.
  - now rewrite Hl.
Qed.

(** [removeItem] takes every record with the given id out of the day,
    keeps the other records of the day in their order, leaves the other
    days alone and leaves no empty day behind. *)
Theorem removeItem_removes (dateKey itemId : string) (ls : LocalStorage) :
  writable ls = true ->
  getDay (removeItem dateKey itemId ls) dateKey
  = filter (fun i => id i <> itemId) (getDay ls dateKey)
  /\ (forall i, In i (getDay (removeItem dateKey itemId ls) dateKey) -> id i <> itemId)
  /\ (forall k, k <> dateKey ->
       load (removeItem dateKey itemId ls) !! k = load ls !! k)
  /\ (load ls !! dateKey <> Some [] ->
      load (removeItem dateKey itemId ls) !! dateKey <> Some []).
Proof.
  intros Hw.
  pose proof (removeItem_getDay dateKey itemId ls Hw) as Hday.
  split; [exact Hday|]. split; [|split].
  - intros i Hi. rewrite Hday in Hi. apply list_elem_of_In in Hi.
    apply list_elem_of_filter in Hi. tauto.
  - intros k Hk. unfold removeItem.
    destruct (load ls !! dateKey) as [l|] eqn:Hl; [|reflexivity].
    rewrite load_save by assumption.
    destruct (filter (fun i => id i <> itemId) l) as [|x l'].
    + now rewrite lookup_delete_ne.
    + now rewrite lookup_insert_ne.
  - intros Hne. unfold removeItem.
    destruct (load ls !! dateKey) as [l|] eqn:Hl; [|now rewrite Hl].
    rewrite load_save by assumption.
    destruct (filter (fun i => id i <> itemId) l) as [|x l'].
    + now rewrite lookup_delete_eq.
    + now rewrite lookup_insert_eq.
Qed.

Lemma removeItem_removes_witness :
  getDay (removeItem "2026-02-14" "a"
            (mkStorage (Some {["2026-02-14" := [Samples.cityConcert1; Samples.cityConcert2]]})
               true)) "2026-02-14"
  = [Samples.cityConcert2].
Proof.
  etransitivity.
  - apply (proj1 (removeItem_removes "2026-02-14" "a"
                    (mkStorage
                       (Some {["2026-02-14" := [Samples.cityConcert1; Samples.cityConcert2]]})
                       true)
                    eq_refl)).
  - vm_compute. reflexivity.
Defined.

Lemma isDuplicate_same_id (day : list PlannerItem) (item : PlannerItem) :
  isDuplicate day item = false -> Forall (fun x => id x <> id item) day.
Proof.
  intros H. apply isDuplicate_false in H. eapply Forall_impl; [exact H|].
  intros x Hx Heq. unfold duplicates in Hx. rewrite Heq, String.eqb_refl in Hx.
  discriminate.
Qed.

Lemma filter_all {A : Type} (P : A -> Prop) `{forall x, Decision (P x)} (l : list A) :
  Forall P l -> filter P l = l.
Proof.
  induction 1 as [|x l Hx _ IH]; [reflexivity|].
  rewrite filter_cons, decide_True by assumption. now rewrite IH.
Qed.

Lemma mergeKeys_single (now : Z) (data : gmap string (list PlannerItem)) (k : string)
    (item : PlannerItem) :
  isDuplicate (dayItems data k) item = false ->
  dayItems (mergeKeys now data [k] [item]) k
  = (dayItems data k ++ [stamped now item])%list.
Proof.
  intros Hdup. cbn [mergeKeys mergeItems]. rewrite Hdup.
  rewrite dayItems_insert. now rewrite decide_True by reflexivity.
Qed.

Lemma filter_out_added (day : list PlannerItem) (now : Z) (item : PlannerItem) :
  isDuplicate day item = false ->
  filter (fun i => id i <> id item) (day ++ [stamped now item])%list = day.
Proof.
  intros Hdup. rewrite filter_app.
  rewrite filter_all by (apply isDuplicate_same_id; exact Hdup).
  rewrite filter_cons, decide_False by (cbn; tauto).
  apply app_nil_r.
Qed.

Lemma addItem_merge (tz now : Z) (dateKey : string) (item : PlannerItem)
    (ls : LocalStorage) :
  addItem tz now dateKey item ls = merge tz now [dateKey] [item] ls.
Proof. unfold addItem. reflexivity. Qed.

(** Adding an item that has no duplicate in its day and removing it again
    by its id gives the day back as it was. *)
Theorem addItem_removeItem (tz now : Z) (dateKey cutoff : string) (item : PlannerItem)
    (ls ls1 : LocalStorage) :
  writable ls = true ->
  cutoffKey tz now = Some cutoff -> lt dateKey cutoff = false ->
  isDuplicate (getDay ls dateKey) item = false ->
  addItem tz now dateKey item ls = Some ls1 ->
  getDay ls1 dateKey = (getDay ls dateKey ++ [stamped now item])%list
  /\ getDay (removeItem dateKey (id item) ls1) dateKey = getDay ls dateKey.
Proof.
  intros Hw Hcut Hk Hdup Hadd. rewrite addItem_merge in Hadd.
  destruct (merge_inv _ _ _ _ _ _ Hadd) as (pruned & Hprune & ->).
  destruct (prune_lookup _ _ _ _ Hprune) as (cutoff' & Hcut' & Hpruned).
  assert (Hday : dayItems pruned dateKey = getDay ls dateKey).
  { unfold getDay, dayItems. rewrite Hpruned.
    replace cutoff' with cutoff by congruence. now rewrite Hk. }
  assert (H1 : getDay (save (mergeKeys now pruned [dateKey] [item]) ls) dateKey
               = (getDay ls dateKey ++ [stamped now item])%list).
  { unfold getDay at 1. rewrite load_save by assumption.
    rewrite mergeKeys_single by (now rewrite Hday). now rewrite Hday. }
  split; [exact H1|].
  rewrite removeItem_getDay by (rewrite save_writable by assumption; reflexivity).
  rewrite H1. now apply filter_out_added.
Qed.

Lemma addItem_removeItem_witness :
  getDay (mkStorage
            (Some {["2026-02-14" := [stamped 1770697800000 Samples.cityConcert1]]}) true)
    "2026-02-14"
  = (getDay Samples.emptyStorage "2026-02-14" ++ [stamped 1770697800000 Samples.cityConcert1])%list
  /\ getDay (removeItem "2026-02-14" (id Samples.cityConcert1)
               (mkStorage
                  (Some {["2026-02-14" := [stamped 1770697800000 Samples.cityConcert1]]})
                  true))
       "2026-02-14"
     = getDay Samples.emptyStorage "2026-02-14".
Proof.
  apply (addItem_removeItem 0 1770697800000 "2026-02-14" "2026-02-03" Samples.cityConcert1
           Samples.emptyStorage);
    vm_compute; reflexivity.
Defined.

(** The duplicate test does not depend on the order of the pair, holds
    for records of equal id, and for records whose non-empty titles differ
    in letter case only. *)
Theorem duplicates_symmetric (x y : PlannerItem) :
  duplicates x y = duplicates y x
  /\ similarity (title x) (title y) = similarity (title y) (title x)
  /\ (id x = id y -> duplicates x y = true)
  /\ (title x <> "" -> toLowerCase (title x) = toLowerCase (title y) ->
      duplicates x y = true).
Proof.
  assert (Hsim : forall a b, similarity a b = similarity b a).
  { intros a b. unfold similarity.
    replace (wordSet b ∩ wordSet a) with (wordSet a ∩ wordSet b) by apply (comm_L (∩)).
    f_equal. f_equal. lia. }
  split; [|split; [apply Hsim|split]].
  - unfold duplicates, similar. rewrite (Hsim (title x)).
    rewrite (String.eqb_sym (id x)). f_equal.
    destruct (nonEmpty (title x)), (nonEmpty (title y)); reflexivity.
  - intros Hid. unfold duplicates. now rewrite Hid, String.eqb_refl.
  - intros Hx Hcase. apply duplicates_iff. right.
    assert (Hy : title y <> "").
    { intros Hy. rewrite Hy in Hcase. destruct (title x); [congruence|discriminate]. }
    split; [assumption|]. split; [assumption|].
    unfold wordSet. rewrite <- Hcase.
    set (w := list_to_set (splitSpaces (toLowerCase (title x))) : gset string).
    replace (w ∪ w) with w by (symmetry; apply (idemp_L (∪))).
    replace (w ∩ w) with w by (symmetry; apply (idemp_L (∩))).
    assert (0 < size w)%nat; [|lia].
    assert (Hne : forall s cur inSep, splitSpacesAux cur inSep s <> []).
    { induction s as [|c s IH]; intros cur inSep; cbn [splitSpacesAux];
        [discriminate|].
      destruct (isSpace c); [destruct inSep|]; [apply IH|discriminate|apply IH]. }
    specialize (Hne (toLowerCase (title x)) EmptyString false).
    unfold w, splitSpaces.
    destruct (splitSpacesAux "" false (toLowerCase (title x))) as [|z zs]; [congruence|].
    cbn [list_to_set].
    assert (Hz : (size ({[z]} : gset string)
                  <= size ({[z]} ∪ list_to_set zs : gset string))%nat)
      by (apply subseteq_size, union_subseteq_l).
    rewrite size_singleton in Hz. lia.
Qed.

Lemma duplicates_symmetric_witness :
  duplicates Samples.cityConcert1
    (mkPlannerItem "z" "CITY CONCERT THIS WEEKEND" "events" "https://example.org/z" None)
  = true.
Proof.
  apply (proj2 (proj2 (proj2 (duplicates_symmetric Samples.cityConcert1
           (mkPlannerItem "z" "CITY CONCERT THIS WEEKEND" "events" "https://example.org/z"
              None)))));
    [vm_compute; discriminate | vm_compute; reflexivity].
Defined.

End PlannerFacts.
(** ** The planner store and the dates of its keys *)

Section PlannerDates.

Import JsString JsDate PlannerStorage.

Lemma lt_isoSlice10 (t1 t2 : Z) :
  -62167219200000 <= t1 <= 253402300799999 ->
  -62167219200000 <= t2 <= 253402300799999 ->
  lt (isoSlice10 t1) (isoSlice10 t2) = (t1 / msPerDay <? t2 / msPerDay).
Proof.
  intros H1 H2. unfold lt, String.ltb, Z.ltb.
  now rewrite isoSlice10_compare by assumption.
Qed.

Lemma cutoffKey_value (tz now : Z) :
  -8640000000000000 + 7 * msPerDay <= now <= 8640000000000000 ->
  cutoffKey tz now = Some (isoSlice10 (now - 7 * msPerDay)).
Proof.
  intros Hnow. unfold cutoffKey, PRUNE_DAYS_PAST.
  rewrite addDays_moves_days, timeClip_valid by (unfold msPerDay in *; lia).
  do 2 f_equal; lia.
Qed.



(** *** The upcoming days *)

Lemma flat_map_seq_shift {B : Type} (f : nat -> list B) (k : nat) :
  forall a, flat_map f (seq (S a) k) = flat_map (fun j => f (S j)) (seq a k).
Proof.
  induction k as [|k IH]; intros a; cbn [seq flat_map]; [reflexivity|].
  now rewrite IH.
Qed.

(** The loop of [getUpcomingDays], unrolled. *)
Lemma upcomingLoop_entries (tz : Z) (data : gmap string (list PlannerItem)) (t0 : Z)
    (k : nat) :
  forall (i : Z) (result : list (string * list PlannerItem)),
    -8640000000000000 <= t0 + i * msPerDay ->
    t0 + (i + Z.of_nat k) * msPerDay <= 8640000000000000 ->
    upcomingLoop tz data (At t0) i k result
    = Some (result
            ++ flat_map (fun j =>
                           match data !! isoSlice10 (t0 + (i + Z.of_nat j) * msPerDay) with
                           | Some (x :: l) =>
                               [(isoSlice10 (t0 + (i + Z.of_nat j) * msPerDay), x :: l)]
                           | _ => []
                           end) (seq 0 k))%list.
Proof.
  induction k as [|k IH]; intros i result Hlo Hhi; cbn [upcomingLoop seq flat_map].
  - now rewrite app_nil_r.
  - rewrite addDays_moves_days, timeClip_valid by (unfold msPerDay in *; lia).
    rewrite IH by (unfold msPerDay in *; lia).
    replace (i + Z.of_nat 0) with i by lia.
    rewrite flat_map_seq_shift.
    rewrite (flat_map_ext
               (fun j =>
                  match data !! isoSlice10 (t0 + (i + Z.of_nat (S j)) * msPerDay) with
                  | Some (x :: l) =>
                      [(isoSlice10 (t0 + (i + Z.of_nat (S j)) * msPerDay), x :: l)]
                  | _ => []
                  end)
               (fun j =>
                  match data !! isoSlice10 (t0 + (i + 1 + Z.of_nat j) * msPerDay) with
                  | Some (x :: l) =>
                      [(isoSlice10 (t0 + (i + 1 + Z.of_nat j) * msPerDay), x :: l)]
                  | _ => []
                  end)).
    + destruct (data !! isoSlice10 (t0 + i * msPerDay)) as [[|x l]|];
        rewrite <- ?app_assoc; reflexivity.
    + intros j. replace (i + Z.of_nat (S j)) with (i + 1 + Z.of_nat j) by lia.
      reflexivity.
Qed.

(** [getUpcomingDays] reads the pruned store at the date keys of the local
    midnights of today and the days after it. *)
Lemma getUpcomingDays_entries (tz now : Z) (n : nat) (ls : LocalStorage) :
  -86400000 <= tz <= 86400000 ->
  -8640000000000000 + 2 * msPerDay <= now ->
  now + (Z.of_nat n + 1) * msPerDay <= 8640000000000000 ->
  getUpcomingDays tz now n ls
  = match getAll tz now ls with
    | Some (data, ls') =>
        Some (flat_map
                (fun j =>
                   match data !! isoSlice10 ((localDay tz now + Z.of_nat j) * msPerDay - tz)
                   with
                   | Some (x :: l) =>
                       [(isoSlice10 ((localDay tz now + Z.of_nat j) * msPerDay - tz), x :: l)]
                   | _ => []
                   end) (seq 0 n), ls')
    | None => None
    end.
Proof.
  intros Htz Hlo Hhi. unfold getUpcomingDays.
  destruct (getAll tz now ls) as [[data ls']|]; [|reflexivity].
  pose proof (localDay_bounds tz now) as Hloc.
  cbn [setHoursZero]. rewrite timeClip_valid by (unfold msPerDay in *; lia).
  rewrite upcomingLoop_entries by (unfold msPerDay in *; lia).
  cbn [app]. do 2 f_equal. apply flat_map_ext. intros j.
  replace (localDay tz now * msPerDay - tz + (0 + Z.of_nat j) * msPerDay)
    with ((localDay tz now + Z.of_nat j) * msPerDay - tz) by lia.
  reflexivity.
Qed.

Lemma midnight_utc_day (tz L : Z) :
  (L * msPerDay - tz) / msPerDay = L + (- tz) / msPerDay.
Proof.
  replace (L * msPerDay - tz) with (- tz + L * msPerDay) by lia.
  rewrite Z.div_add by (unfold msPerDay; lia). lia.
Qed.

Lemma entries_sorted {V : Type} (K : nat -> string) (entry : nat -> list (string * V))
    (bound : nat) :
  (forall j x, In x (entry j) -> fst x = K j) ->
  (forall j, (length (entry j) <= 1)%nat) ->
  (forall i j, (i < j < bound)%nat -> String.ltb (K i) (K j) = true) ->
  forall n a,
    (a + n <= bound)%nat ->
    ForallOrdPairs (fun x y => String.ltb (fst x) (fst y) = true)
      (flat_map entry (seq a n)).
Proof.
  intros Hkey Hone Hlt. induction n as [|n IH]; intros a Ha; cbn [seq flat_map];
    [constructor|].
  specialize (IH (S a) ltac:(lia)).
  assert (Hrest : Forall (fun y => String.ltb (K a) (fst y) = true)
                    (flat_map entry (seq (S a) n))).
  { apply Forall_forall. intros y Hy. apply list_elem_of_In, in_flat_map in Hy
      as (j & Hj & Hy). apply in_seq in Hj. rewrite (Hkey j y Hy). apply Hlt. lia. }
  specialize (Hone a). pose proof (Hkey a) as Hka.
  destruct (entry a) as [|x [|x' l]]; cbn [app length] in *; [assumption| |lia].
  constructor; [|assumption].
  rewrite (Hka x (or_introl eq_refl)). exact Hrest.
Qed.



(** What a merge stores under the date key of the local midnight of today
    or of one of the next days is what [getUpcomingDays] returns for that
    day: the day is among the upcoming days, and every merged item has a
    duplicate among its items. *)
Theorem merged_day_is_upcoming (tz now : Z) (n j : nat) (dateKeys : list string)
    (items : list PlannerItem) (ls ls1 : LocalStorage) :
  -86400000 <= tz <= 86400000 ->
  -62167219200000 + 8 * msPerDay <= now ->
  now + (Z.of_nat n + 1) * msPerDay <= 253402300799999 ->
  writable ls = true ->
  (j < n)%nat ->
  In (isoSlice10 ((localDay tz now + Z.of_nat j) * msPerDay - tz)) dateKeys ->
  items <> [] ->
  merge tz now dateKeys items ls = Some ls1 ->
  exists result ls2 its,
    getUpcomingDays tz now n ls1 = Some (result, ls2)
    /\ In (isoSlice10 ((localDay tz now + Z.of_nat j) * msPerDay - tz), its) result
    /\ forall item, In item items -> isDuplicate its item = true.
Proof.
  intros Htz Hlo Hhi Hw Hj Hkey Hitems Hmerge.
  pose proof (localDay_bounds tz now) as Hloc.
  set (key := isoSlice10 ((localDay tz now + Z.of_nat j) * msPerDay - tz)) in *.
  destruct (merge_inv _ _ _ _ _ _ Hmerge) as (pruned & Hprune & ->).
  destruct (prune_lookup _ _ _ _ Hprune) as (cutoff & Hcut & Hpruned).
  rewrite save_writable by assumption.
  rewrite getUpcomingDays_entries by (unfold msPerDay in *; lia).
  unfold getAll. cbn [load entry]. rewrite (prune_cutoff _ _ _ _ Hcut).
  rewrite save_writable by reflexivity.
  set (its := mergeItems now (dayItems pruned key) items).
  assert (Hcov : forall item, In item items -> isDuplicate its item = true)
    by apply (mergeItems_spec now items (dayItems pruned key)).
  assert (Hkeep : lt key cutoff = false).
  { rewrite cutoffKey_value in Hcut by (unfold msPerDay in *; lia).
    injection Hcut as <-. unfold key.
    rewrite lt_isoSlice10 by (unfold msPerDay in *; lia).
    apply Z.ltb_ge. apply Z.div_le_mono; unfold msPerDay in *; lia. }
  assert (Hlook : filter (fun kv => lt (fst kv) cutoff = false)
                    (mergeKeys now pruned dateKeys items) !! key = Some its).
  { rewrite filter_cutoff_lookup, Hkeep. now apply mergeKeys_lookup_in. }
  eexists _, _, its. split; [reflexivity|]. split; [|exact Hcov].
  apply in_flat_map. exists j. split; [apply in_seq; lia|].
  fold key. rewrite Hlook.
  destruct its as [|x l] eqn:Hits; [|now left].
  destruct items as [|item items']; [contradiction|].
  specialize (Hcov item (or_introl eq_refl)). discriminate.
Qed.

Lemma merged_day_is_upcoming_witness :
  exists result ls2 its,
    getUpcomingDays 0 1770697800000 14
      (mkStorage (Some {["2026-02-12" := [stamped 1770697800000 Samples.cityConcert1]]})
         true)
    = Some (result, ls2)
    /\ In (isoSlice10 ((localDay 0 1770697800000 + Z.of_nat 2) * msPerDay - 0), its) result
    /\ forall item, In item [Samples.cityConcert1] -> isDuplicate its item = true.
Proof.
  apply (merged_day_is_upcoming 0 1770697800000 14 2 ["2026-02-12"] [Samples.cityConcert1]
           Samples.emptyStorage);
    try (unfold msPerDay; lia); try discriminate; try (vm_compute; reflexivity).
  left. vm_compute. reflexivity.
Defined.

End PlannerDates.
(** ** The aggregation: what the output holds *)

Section AggregatorFacts.

Import JsString Regex JsDate UpAheadService.

(** The output of a run is the pure reading of the batch. *)
Lemma run_output (tz now : Z) (rawItems : list nat) (settings : option Settings)
    (w : World) :
  cacheOk w ->
  option_map fst (processUpAheadData tz now rawItems settings w)
  = aggregate tz now (heap w) rawItems settings.
Proof.
  intros Hok.
  pose proof (processUpAheadData_aggregate tz now rawItems settings w Hok) as H.
  destruct (aggregate tz now (heap w) rawItems settings) as [out|].
  - destruct H as (w' & -> & _). reflexivity.
  - now rewrite H.
Qed.

Lemma aggregate_finalize (tz now : Z) (h : gmap nat Item) (rawItems : list nat)
    (settings : option Settings) (out : Output) :
  aggregate tz now h rawItems settings = Some out ->
  exists acc,
    outcomes tz now (makeCtx tz now settings) h (mkAcc [] emptySections ∅) rawItems
    = Some acc
    /\ finalize tz now acc = Some out.
Proof.
  unfold aggregate.
  destruct (outcomes tz now (makeCtx tz now settings) h (mkAcc [] emptySections ∅)
              rawItems) as [acc|]; [|discriminate].
  intros H. now exists acc.
Qed.

Lemma finalize_inv (tz now : Z) (acc : Acc) (out : Output) :
  finalize tz now acc = Some out ->
  timeline out
  = map finishDay
      (sortBy (fun a b => String.leb (date a) (date b)) (map snd (timelineMap acc)))
  /\ sections out
     = fold_left (updateSection (firstn 5))
         [movies; festivals; alerts; events; sports; shopping; civic; weather_alerts]
         (accSections acc)
  /\ generateWeeklyPlan tz now (timeline out) = Some (weekly_plan out).
Proof.
  unfold finalize.
  destruct (generateWeeklyPlan tz now _) as [plan|] eqn:Hplan; [|discriminate].
  intros [= <-]. cbn [timeline sections weekly_plan]. auto.
Qed.

(** A property of the accumulator that every round keeps holds after the
    loop. *)
Lemma outcomes_invariant (P : Acc -> Prop) (tz now : Z) (ctx : Ctx) (h : gmap nat Item)
    (refs : list nat) :
  (forall acc l it, In l refs -> h !! l = Some it -> P acc ->
                    P (itemOutcome tz now ctx acc it)) ->
  forall acc acc',
    outcomes tz now ctx h acc refs = Some acc' -> P acc -> P acc'.
Proof.
  induction refs as [|l refs IH]; intros Hstep acc acc'; cbn [outcomes].
  - now intros [= <-].
  - destruct (h !! l) as [it|] eqn:Hl; [|discriminate].
    intros Hrun Hacc. apply (IH (fun acc0 l0 it0 Hin => Hstep acc0 l0 it0 (or_intror Hin))
                               _ _ Hrun).
    apply (Hstep acc l it); [now left|assumption|assumption].
Qed.

(** *** The timeline map *)

Lemma mapHas_In (m : list (string * TimelineDay)) (k : string) :
  mapHas m k = true <-> In k (map fst m).
Proof.
  induction m as [|[k' d] m IH]; cbn [mapHas map In fst]; [split; [discriminate|tauto]|].
  rewrite orb_true_iff, String.eqb_eq, IH. reflexivity.
Qed.

Lemma mapPush_keys (m : list (string * TimelineDay)) (k : string) (ti : TimelineItem) :
  map fst (mapPush m k ti) = map fst m.
Proof.
  induction m as [|[k' d] m IH]; cbn [mapPush]; [reflexivity|].
  destruct (String.eqb k' k); cbn [map fst]; [reflexivity|now rewrite IH].
Qed.

Lemma mapPush_items (m : list (string * TimelineDay)) (k : string) (ti : TimelineItem) :
  In k (map fst m) ->
  Permutation (timelineItems (mapPush m k ti)) (ti :: timelineItems m).
Proof.
  unfold timelineItems.
  induction m as [|[k' d] m IH]; cbn [map In fst]; [tauto|].
  cbn [mapPush]. destruct (String.eqb_spec k' k) as [->|Hne].
  - intros _. cbn [flat_map snd items].
    rewrite <- app_assoc. cbn [app].
    rewrite <- Permutation_middle. reflexivity.
  - intros [Heq|Hin]; [congruence|]. cbn [flat_map snd].
    rewrite (IH Hin). rewrite Permutation_middle. reflexivity.
Qed.

Lemma timelineItems_snoc_empty (m : list (string * TimelineDay)) (k label : string) :
  timelineItems (m ++ [(k, mkTimelineDay k label [])]) = timelineItems m.
Proof.
  unfold timelineItems. rewrite flat_map_app. cbn. now rewrite app_nil_r.
Qed.

(** What [populateTimeline] does, as cases. *)
Lemma populateTimeline_cases (tz now : Z) (ctx : Ctx) (it : Item)
    (m : list (string * TimelineDay)) :
  populateTimeline tz now ctx it m = m
  \/ exists k m',
       populateTimeline tz now ctx it m = mapPush m' k (timelineItem it)
       /\ In k (map fst m')
       /\ timelineItems m' = timelineItems m
       /\ (m' = m
           \/ (~ In k (map fst m)
               /\ exists target,
                    m' = (m ++ [(k, mkTimelineDay k (getDayLabel tz now (At target)) [])])%list)).
Proof.
  unfold populateTimeline.
  destruct (targetDateOf now ctx it) as [[|target]|]; [now left| |now left].
  destruct (dateGe (At target) (today ctx)); [|now left].
  right. exists (isoDateKey target).
  destruct (mapHas m (isoDateKey target)) eqn:Hhas.
  - exists m. split; [reflexivity|]. split; [now apply mapHas_In|]. auto.
  - eexists. split; [reflexivity|]. split; [|split].
    + rewrite map_app. apply in_or_app. right. now left.
    + apply timelineItems_snoc_empty.
    + right. split; [|now exists target].
      intros Hin. apply mapHas_In in Hin. congruence.
Qed.

Lemma populateTimeline_items (tz now : Z) (ctx : Ctx) (it : Item)
    (m : list (string * TimelineDay)) :
  populateTimeline tz now ctx it m = m
  \/ Permutation (timelineItems (populateTimeline tz now ctx it m))
       (timelineItem it :: timelineItems m).
Proof.
  destruct (populateTimeline_cases tz now ctx it m) as [H|(k & m' & -> & Hk & Hitems & _)];
    [now left|].
  right. rewrite mapPush_items by assumption. now rewrite Hitems.
Qed.

Lemma populateTimeline_keys (tz now : Z) (ctx : Ctx) (it : Item)
    (m : list (string * TimelineDay)) :
  NoDup (map fst m) -> NoDup (map fst (populateTimeline tz now ctx it m)).
Proof.
  intros Hm.
  destruct (populateTimeline_cases tz now ctx it m)
    as [->|(k & m' & -> & _ & _ & [->|(Hnew & target & ->)])]; [assumption| |];
    rewrite mapPush_keys; [assumption|].
  rewrite map_app. cbn [map fst]. apply NoDup_app. split; [assumption|].
  split; [|apply NoDup_singleton].
  intros x Hx Hx'. apply list_elem_of_In in Hx. apply list_elem_of_singleton in Hx'.
  subst x. contradiction.
Qed.

(** *** The rounds of the loop *)

(** What a round does, as cases: nothing but recording the id, or the
    item passes the filters and reaches the sections and the timeline. *)
Lemma itemOutcome_cases (tz now : Z) (ctx : Ctx) (acc : Acc) (it : Item) :
  (timelineMap (itemOutcome tz now ctx acc it) = timelineMap acc
   /\ accSections (itemOutcome tz now ctx acc it) = accSections acc
   /\ seenIds acc ⊆ seenIds (itemOutcome tz now ctx acc it))
  \/ ((id it ∉ seenIds acc)
      /\ passes now ctx it
      /\ exists sections',
           populateSections tz ctx (withScore it (forwardScoreOf (fullTextOf it)))
             (accSections acc) = Some sections'
           /\ itemOutcome tz now ctx acc it
              = mkAcc (populateTimeline tz now ctx
                         (withScore it (forwardScoreOf (fullTextOf it))) (timelineMap acc))
                  sections' ({[id it]} ∪ seenIds acc)).
Proof.
  unfold itemOutcome.
  destruct (decide (id it ∈ seenIds acc)) as [Hseen|Hnew]; [left; auto|].
  destruct (isFresh now (maxAgeMs ctx) it) eqn:H1; cbn [negb orb];
    [|left; cbn; split; [reflexivity|split; [reflexivity|set_solver]]].
  destruct (isStale (fullTextOf it)) eqn:H2; cbn [orb];
    [left; cbn; split; [reflexivity|split; [reflexivity|set_solver]]|].
  destruct (negativeDrop ctx (fullTextOf it)) eqn:H3; cbn [orb];
    [left; cbn; split; [reflexivity|split; [reflexivity|set_solver]]|].
  destruct (irrelevantDrop ctx (category it) (fullTextOf it)) eqn:H4; cbn [orb];
    [left; cbn; split; [reflexivity|split; [reflexivity|set_solver]]|].
  destruct (locationDrop ctx (category it) (fullTextOf it)) eqn:H5;
    [left; cbn; split; [reflexivity|split; [reflexivity|set_solver]]|].
  destruct (populateSections tz ctx _ (accSections acc)) as [sections'|] eqn:Hs;
    [|left; cbn; split; [reflexivity|split; [reflexivity|set_solver]]].
  right. split; [assumption|]. split; [repeat split; assumption|].
  exists sections'. auto.
Qed.

Lemma timelineItem_withScore (it : Item) (v : Z) :
  deleteScore (timelineItem (withScore it v)) = deleteScore (timelineItem it).
Proof. reflexivity. Qed.

(** The timeline map after the loop: its items are the timeline items of
    batch items that passed the filters, no two of them share an id, and
    no two days share a key. *)
Lemma outcomes_timeline (tz now : Z) (ctx : Ctx) (h : gmap nat Item) (refs : list nat)
    (acc : Acc) :
  outcomes tz now ctx h (mkAcc [] emptySections ∅) refs = Some acc ->
  Forall (fun ti => exists l it,
                      In l refs /\ h !! l = Some it /\ passes now ctx it
                      /\ ti = timelineItem (withScore it (forwardScoreOf (fullTextOf it)))
                      /\ id it ∈ seenIds acc)
    (timelineItems (timelineMap acc))
  /\ NoDup (map t_id (timelineItems (timelineMap acc)))
  /\ NoDup (map fst (timelineMap acc)).
Proof.
  intros Hrun.
  set (P := fun acc : Acc =>
              Forall (fun ti => exists l it,
                                  In l refs /\ h !! l = Some it /\ passes now ctx it
                                  /\ ti = timelineItem
                                            (withScore it (forwardScoreOf (fullTextOf it)))
                                  /\ id it ∈ seenIds acc)
                (timelineItems (timelineMap acc))
              /\ NoDup (map t_id (timelineItems (timelineMap acc)))
              /\ NoDup (map fst (timelineMap acc))).
  refine (outcomes_invariant P tz now ctx h refs _ _ _ Hrun _);
    [|split; [constructor|split; constructor]].
  clear acc Hrun. intros acc l it Hl Hit (Hitems & Hids & Hkeys). unfold P.
  assert (Hgrow : forall seen,
            seenIds acc ⊆ seen ->
            Forall (fun ti => exists l it,
                                In l refs /\ h !! l = Some it /\ passes now ctx it
                                /\ ti = timelineItem
                                          (withScore it (forwardScoreOf (fullTextOf it)))
                                /\ id it ∈ seen)
              (timelineItems (timelineMap acc))).
  { intros seen Hsub. eapply Forall_impl; [exact Hitems|].
    intros ti (l0 & it0 & H1 & H2 & H3 & H4 & H5). exists l0, it0.
    repeat (split; [assumption|]). now apply Hsub. }
  destruct (itemOutcome_cases tz now ctx acc it)
    as [(Hm & _ & Hseen)|(Hnew & Hpass & sections' & _ & ->)].
  - rewrite Hm. split; [now apply Hgrow|]. now split.
  - cbn [timelineMap seenIds].
    split; [|split; [|now apply populateTimeline_keys]].
    + destruct (populateTimeline_items tz now ctx
                  (withScore it (forwardScoreOf (fullTextOf it))) (timelineMap acc))
        as [->|Hperm]; [apply Hgrow; set_solver|].
      rewrite Hperm.
      constructor; [|apply Hgrow; set_solver].
      exists l, it. repeat (split; [assumption|]).
      split; [reflexivity|set_solver].
    + destruct (populateTimeline_items tz now ctx
                  (withScore it (forwardScoreOf (fullTextOf it))) (timelineMap acc))
        as [->|Hperm]; [assumption|].
      rewrite (Permutation_map t_id Hperm).
      cbn [map]. apply NoDup_cons_2; [|assumption].
      intros Hin. apply list_elem_of_In, in_map_iff in Hin as (ti & Hid & Hin).
      rewrite Forall_forall in Hitems.
      destruct (Hitems ti (proj2 (list_elem_of_In _ _) Hin))
        as (l0 & it0 & _ & _ & _ & -> & Hseen).
      cbn in Hid. apply Hnew. now rewrite <- Hid.
Qed.

(** *** Sorting *)

Lemma insertSorted_Permutation {A : Type} (le : A -> A -> bool) (x : A) (l : list A) :
  Permutation (insertSorted le x l) (x :: l).
Proof.
  induction l as [|y l IH]; cbn [insertSorted]; [reflexivity|].
  destruct (le y x); [|reflexivity]. rewrite IH. apply perm_swap.
Qed.

Lemma sortBy_Permutation {A : Type} (le : A -> A -> bool) (l : list A) :
  Permutation (sortBy le l) l.
Proof.
  unfold sortBy.
  assert (H : forall sorted,
            Permutation (fold_left (fun s x => insertSorted le x s) l sorted)
              (sorted ++ l)).
  { induction l as [|x l IH]; intros sorted; cbn [fold_left].
    - now rewrite app_nil_r.
    - rewrite IH, insertSorted_Permutation. cbn [app]. apply Permutation_middle. }
  apply (H []).
Qed.

Lemma insertSorted_sorted {A : Type} (le : A -> A -> bool) (x : A) (l : list A) :
  (forall a b, le a b = false -> le b a = true) ->
  (forall a b c, le a b = true -> le b c = true -> le a c = true) ->
  ForallOrdPairs (fun a b => le a b = true) l ->
  ForallOrdPairs (fun a b => le a b = true) (insertSorted le x l).
Proof.
  intros Htotal Htrans. induction 1 as [|y l Hy Hl IH]; cbn [insertSorted].
  - constructor; constructor.
  - destruct (le y x) eqn:Hyx.
    + constructor; [|assumption].
      apply Forall_forall. intros z Hz. apply list_elem_of_In, insertSorted_In in Hz.
      destruct Hz as [->|Hz]; [assumption|].
      rewrite Forall_forall in Hy. apply Hy. now apply list_elem_of_In.
    + constructor; [|now constructor].
      constructor; [now apply Htotal|].
      eapply Forall_impl; [exact Hy|]. intros z Hz.
      apply (Htrans x y z); [now apply Htotal|assumption].
Qed.

Lemma sortBy_sorted {A : Type} (le : A -> A -> bool) (l : list A) :
  (forall a b, le a b = false -> le b a = true) ->
  (forall a b c, le a b = true -> le b c = true -> le a c = true) ->
  ForallOrdPairs (fun a b => le a b = true) (sortBy le l).
Proof.
  intros Htotal Htrans. unfold sortBy.
  assert (H : forall sorted,
            ForallOrdPairs (fun a b => le a b = true) sorted ->
            ForallOrdPairs (fun a b => le a b = true)
              (fold_left (fun s x => insertSorted le x s) l sorted)).
  { induction l as [|x l IH]; intros sorted Hs; cbn [fold_left]; [assumption|].
    apply IH. now apply insertSorted_sorted. }
  apply H. constructor.
Qed.

Lemma ForallOrdPairs_map {A B : Type} (f : A -> B) (R : B -> B -> Prop) (l : list A) :
  ForallOrdPairs (fun a b => R (f a) (f b)) l -> ForallOrdPairs R (map f l).
Proof.
  induction 1 as [|a l Ha Hl IH]; cbn [map]; constructor; [|assumption].
  apply Forall_forall. intros b Hb. apply list_elem_of_In, in_map_iff in Hb as (b0 & <- & Hb0).
  rewrite Forall_forall in Ha. apply Ha. now apply list_elem_of_In.
Qed.

(** The order of strings by character codes is transitive. *)
Lemma string_leb_trans (a b c : string) :
  String.leb a b = true -> String.leb b c = true -> String.leb a c = true.
Proof.
  unfold String.leb. revert b c.
  induction a as [|x a IH]; intros [|y b] [|z c]; cbn [String.compare];
    try reflexivity; try discriminate.
  unfold Ascii.compare.
  destruct (N.compare_spec (N_of_ascii x) (N_of_ascii y)) as [Hxy|Hxy|Hxy];
    destruct (N.compare_spec (N_of_ascii y) (N_of_ascii z)) as [Hyz|Hyz|Hyz];
    destruct (N.compare_spec (N_of_ascii x) (N_of_ascii z)) as [Hxz|Hxz|Hxz];
    try reflexivity; try discriminate; try lia.
  apply IH.
Qed.

Lemma string_leb_total (a b : string) :
  String.leb a b = false -> String.leb b a = true.
Proof. destruct (String.leb_total a b) as [H|H]; congruence. Qed.

Lemma string_leb_ltb (a b : string) :
  String.leb a b = true -> a <> b -> String.ltb a b = true.
Proof.
  unfold String.leb, String.ltb. intros Hle Hne.
  destruct (String.compare a b) eqn:Hc; [|reflexivity|discriminate].
  apply String.compare_eq_iff in Hc. contradiction.
Qed.

Lemma ForallOrdPairs_strict {A : Type} (f : A -> string) (l : list A) :
  ForallOrdPairs (fun a b => String.leb (f a) (f b) = true) l ->
  NoDup (map f l) ->
  ForallOrdPairs (fun a b => String.ltb (f a) (f b) = true) l.
Proof.
  induction 1 as [|a l Ha Hl IH]; cbn [map]; intros Hnd; [constructor|].
  apply NoDup_cons in Hnd as [Hnotin Hnd]. constructor; [|now apply IH].
  apply Forall_forall. intros b Hb. rewrite Forall_forall in Ha.
  apply string_leb_ltb; [now apply Ha|].
  intros Heq. apply Hnotin. rewrite Heq. apply list_elem_of_In, in_map.
  now apply list_elem_of_In.
Qed.

(** *** The output timeline *)

Lemma run_outcomes (tz now : Z) (rawItems : list nat) (settings : option Settings)
    (w w' : World) (out : Output) :
  cacheOk w ->
  processUpAheadData tz now rawItems settings w = Some (out, w') ->
  exists acc,
    outcomes tz now (makeCtx tz now settings) (heap w) (mkAcc [] emptySections ∅) rawItems
    = Some acc
    /\ finalize tz now acc = Some out.
Proof.
  intros Hok Hrun. apply aggregate_finalize. eapply run_inv; eassumption.
Qed.

Lemma timeline_days (tz now : Z) (acc : Acc) (out : Output) (day : TimelineDay) :
  finalize tz now acc = Some out ->
  In day (timeline out) ->
  exists k day0,
    In (k, day0) (timelineMap acc)
    /\ day = finishDay day0.
Proof.
  intros Hfin Hday. destruct (finalize_inv _ _ _ _ Hfin) as (Htl & _).
  rewrite Htl in Hday. apply in_map_iff in Hday as (day0 & <- & Hday0).
  apply sortBy_In, in_map_iff in Hday0 as ([k d] & Hd & Hin). cbn [snd] in Hd. subst d.
  now exists k, day0.
Qed.

Lemma timelineItems_In (m : list (string * TimelineDay)) (k : string) (day : TimelineDay)
    (ti : TimelineItem) :
  In (k, day) m -> In ti (items day) -> In ti (timelineItems m).
Proof.
  intros Hday Hti. unfold timelineItems. apply in_flat_map. now exists (k, day).
Qed.

(** Every item of the output timeline comes from an item of the batch that
    passed the four filter layers and the two freshness tests; it carries
    the fields of that item, without the score. *)
Theorem timeline_items_pass_filters (tz now : Z) (rawItems : list nat)
    (settings : option Settings) (w w' : World) (out : Output) :
  cacheOk w ->
  processUpAheadData tz now rawItems settings w = Some (out, w') ->
  forall day ti,
    In day (timeline out) -> In ti (items day) ->
    exists l it,
      In l rawItems /\ heap w !! l = Some it
      /\ passes now (makeCtx tz now settings) it
      /\ ti = deleteScore (timelineItem it).
Proof.
  intros Hok Hrun day ti Hday Hti.
  destruct (run_outcomes _ _ _ _ _ _ _ Hok Hrun) as (acc & Hacc & Hfin).
  destruct (outcomes_timeline _ _ _ _ _ _ Hacc) as (Hitems & _ & _).
  destruct (timeline_days _ _ _ _ _ Hfin Hday) as (k & day0 & Hday0 & ->).
  cbn [finishDay items] in Hti.
  apply in_map_iff in Hti as (ti0 & <- & Hti0). apply sortBy_In in Hti0.
  rewrite Forall_forall in Hitems.
  destruct (Hitems ti0) as (l & it & Hl & Hit & Hpass & -> & _).
  { apply list_elem_of_In. eapply timelineItems_In; eassumption. }
  exists l, it. repeat (split; [assumption|]). apply timelineItem_withScore.
Qed.

(** The sample run returns. *)
Lemma sample_run :
  exists out w',
    processUpAheadData Samples.tzIST Samples.nowIST Samples.batch None Samples.world0
    = Some (out, w').
Proof.
  pose proof (processUpAheadData_aggregate Samples.tzIST Samples.nowIST Samples.batch None
                Samples.world0 (cacheOk_empty _)) as H.
  destruct (aggregate_returns Samples.tzIST Samples.nowIST (heap Samples.world0)
              Samples.batch None) as [out Hout].
  - repeat constructor; vm_compute; eauto.
  - unfold Samples.nowIST. lia.
  - rewrite Hout in H. destruct H as (w' & Hrun & _). eauto.
Defined.

Lemma timeline_items_pass_filters_witness :
  exists out w',
    processUpAheadData Samples.tzIST Samples.nowIST Samples.batch None Samples.world0
    = Some (out, w')
    /\ forall day ti,
         In day (timeline out) -> In ti (items day) ->
         exists l it,
           In l Samples.batch /\ heap Samples.world0 !! l = Some it
           /\ passes Samples.nowIST (makeCtx Samples.tzIST Samples.nowIST None) it
           /\ ti = deleteScore (timelineItem it).
Proof.
  destruct sample_run as (out & w' & Hrun).
  exists out, w'. split; [exact Hrun|].
  exact (timeline_items_pass_filters _ _ _ _ _ _ _ (cacheOk_empty _) Hrun).
Defined.

Lemma finished_ids (days : list TimelineDay) :
  Permutation (map t_id (flat_map items (map finishDay days)))
    (map t_id (flat_map items days)).
Proof.
  induction days as [|d days IH]; cbn [map flat_map]; [reflexivity|].
  rewrite !map_app. apply Permutation_app; [|exact IH].
  cbn [finishDay items]. rewrite map_map. cbn [deleteScore t_id].
  apply Permutation_map, sortBy_Permutation.
Qed.

Lemma timelineItems_days (m : list (string * TimelineDay)) :
  flat_map items (map snd m) = timelineItems m.
Proof.
  unfold timelineItems. induction m as [|kd m IH]; cbn [map flat_map]; [reflexivity|].
  now rewrite IH.
Qed.

(** No two items of the output timeline share an id: of the items of a
    batch with the same id, the first alone is processed. *)
Theorem timeline_ids_unique (tz now : Z) (rawItems : list nat)
    (settings : option Settings) (w w' : World) (out : Output) :
  cacheOk w ->
  processUpAheadData tz now rawItems settings w = Some (out, w') ->
  NoDup (map t_id (flat_map items (timeline out))).
Proof.
  intros Hok Hrun.
  destruct (run_outcomes _ _ _ _ _ _ _ Hok Hrun) as (acc & Hacc & Hfin).
  destruct (outcomes_timeline _ _ _ _ _ _ Hacc) as (_ & Hids & _).
  destruct (finalize_inv _ _ _ _ Hfin) as (-> & _).
  rewrite finished_ids.
  rewrite (Permutation_map t_id
             (Permutation_flat_map items
                (sortBy_Permutation (fun a b => String.leb (date a) (date b))
                   (map snd (timelineMap acc))))).
  now rewrite timelineItems_days.
Qed.

Lemma timeline_ids_unique_witness :
  exists out w',
    processUpAheadData Samples.tzIST Samples.nowIST Samples.batch None Samples.world0
    = Some (out, w')
    /\ NoDup (map t_id (flat_map items (timeline out))).
Proof.
  destruct sample_run as (out & w' & Hrun).
  exists out, w'. split; [exact Hrun|].
  exact (timeline_ids_unique _ _ _ _ _ _ _ (cacheOk_empty _) Hrun).
Defined.

(** The days of the output timeline have pairwise distinct date keys and
    come in strictly ascending order of their keys, which is the order of
    the dates: of two days keyed by the dates of time values of the years
    0..9999, the earlier one comes first. *)
Theorem timeline_ascending (tz now : Z) (rawItems : list nat)
    (settings : option Settings) (w w' : World) (out : Output) :
  cacheOk w ->
  processUpAheadData tz now rawItems settings w = Some (out, w') ->
  ForallOrdPairs
    (fun a b =>
       String.ltb (date a) (date b) = true
       /\ forall ta tb,
            -62167219200000 <= ta <= 253402300799999 ->
            -62167219200000 <= tb <= 253402300799999 ->
            date a = isoDateKey ta -> date b = isoDateKey tb ->
            ta / msPerDay < tb / msPerDay)
    (timeline out).
Proof.
  intros Hok Hrun.
  destruct (run_outcomes _ _ _ _ _ _ _ Hok Hrun) as (acc & Hacc & Hfin).
  destruct (outcomes_timeline _ _ _ _ _ _ Hacc) as (_ & _ & Hkeys).
  pose proof (outcomes_keyed _ _ _ _ _ _ _ Hacc (List.Forall_nil _)) as Hkeyed.
  destruct (finalize_inv _ _ _ _ Hfin) as (-> & _).
  apply ForallOrdPairs_map. cbn [finishDay date].
  assert (Hstrict : ForallOrdPairs (fun a b => String.ltb (date a) (date b) = true)
                      (sortBy (fun a b => String.leb (date a) (date b))
                         (map snd (timelineMap acc)))).
  { apply (ForallOrdPairs_strict date).
    - apply (sortBy_sorted (fun a b => String.leb (date a) (date b))).
      + intros a b. apply string_leb_total.
      + intros a b c. apply string_leb_trans.
    - rewrite (Permutation_map date
                 (sortBy_Permutation (fun a b => String.leb (date a) (date b))
                    (map snd (timelineMap acc)))).
      replace (map date (map snd (timelineMap acc))) with (map fst (timelineMap acc));
        [assumption|].
      rewrite map_map. apply map_ext_Forall.
      eapply Forall_impl; [exact Hkeyed|]. now intros kd [Hk _]. }
  induction Hstrict as [|a l Ha Hl IH]; constructor; [|exact IH].
  eapply Forall_impl; [exact Ha|]. intros b Hab. split; [exact Hab|].
  intros ta tb Hta Htb Hda Hdb. rewrite Hda, Hdb in Hab.
  unfold String.ltb in Hab. rewrite isoDateKey_compare in Hab by assumption.
  destruct (Z.compare_spec (ta / msPerDay) (tb / msPerDay)); [discriminate|assumption|discriminate].
Qed.

Lemma timeline_ascending_witness :
  exists out w',
    processUpAheadData Samples.tzIST Samples.nowIST Samples.batch None Samples.world0
    = Some (out, w')
    /\ ForallOrdPairs
         (fun a b =>
            String.ltb (date a) (date b) = true
            /\ forall ta tb,
                 -62167219200000 <= ta <= 253402300799999 ->
                 -62167219200000 <= tb <= 253402300799999 ->
                 date a = isoDateKey ta -> date b = isoDateKey tb ->
                 ta / msPerDay < tb / msPerDay)
         (timeline out).
Proof.
  destruct sample_run as (out & w' & Hrun).
  exists out, w'. split; [exact Hrun|].
  exact (timeline_ascending _ _ _ _ _ _ _ (cacheOk_empty _) Hrun).
Defined.

(** Within a day of the output timeline the items come in descending
    order of their forward-looking score, the number of forward-looking
    signals in the lower-cased title and description. *)
Theorem timeline_day_sorted_by_score (tz now : Z) (rawItems : list nat)
    (settings : option Settings) (w w' : World) (out : Output) :
  cacheOk w ->
  processUpAheadData tz now rawItems settings w = Some (out, w') ->
  forall day,
    In day (timeline out) ->
    ForallOrdPairs
      (fun a b => forwardScoreOf (textOf b) <= forwardScoreOf (textOf a)) (items day).
Proof.
  intros Hok Hrun day Hday.
  destruct (run_outcomes _ _ _ _ _ _ _ Hok Hrun) as (acc & Hacc & Hfin).
  destruct (outcomes_timeline _ _ _ _ _ _ Hacc) as (Hitems & _ & _).
  destruct (timeline_days _ _ _ _ _ Hfin Hday) as (k & day0 & Hday0 & ->).
  cbn [finishDay items]. apply ForallOrdPairs_map.
  assert (Hscore : forall ti, In ti (items day0) ->
                     scoreOf ti = forwardScoreOf (textOf (deleteScore ti))).
  { intros ti Hti. rewrite Forall_forall in Hitems.
    destruct (Hitems ti) as (l & it & _ & _ & _ & -> & _); [|reflexivity].
    apply list_elem_of_In. eapply timelineItems_In; eassumption. }
  assert (Hsorted : ForallOrdPairs (fun a b => (scoreOf b <=? scoreOf a) = true)
                      (sortBy (fun a b => scoreOf b <=? scoreOf a) (items day0))).
  { apply (sortBy_sorted (fun a b => scoreOf b <=? scoreOf a)).
    - intros a b Hab. apply Z.leb_gt in Hab. apply Z.leb_le. lia.
    - intros a b c Hab Hbc. apply Z.leb_le in Hab, Hbc. apply Z.leb_le. lia. }
  assert (Hin : Forall (fun ti => In ti (items day0))
                  (sortBy (fun a b => scoreOf b <=? scoreOf a) (items day0))).
  { apply Forall_forall. intros ti Hti. apply list_elem_of_In in Hti.
    now apply sortBy_In in Hti. }
  induction Hsorted as [|a l Ha Hl IH]; [constructor|].
  apply Forall_cons_iff in Hin as [Hain Hin].
  constructor; [|now apply IH].
  apply Forall_forall. intros b Hb. rewrite Forall_forall in Ha, Hin.
  rewrite <- (Hscore a Hain), <- (Hscore b (Hin b Hb)).
  apply Z.leb_le. now apply Ha.
Qed.

Lemma timeline_day_sorted_by_score_witness :
  exists out w',
    processUpAheadData Samples.tzIST Samples.nowIST Samples.concerts None
      Samples.worldConcerts
    = Some (out, w')
    /\ map (fun day => map (fun ti => (t_id ti, forwardScoreOf (textOf ti))) (items day))
         (timeline out)
       = [[("s3", 3); ("s2", 1); ("s1", 0)]]
    /\ forall day,
         In day (timeline out) ->
         ForallOrdPairs
           (fun a b => forwardScoreOf (textOf b) <= forwardScoreOf (textOf a))
           (items day).
Proof.
  destruct (processUpAheadData Samples.tzIST Samples.nowIST Samples.concerts None
              Samples.worldConcerts) as [[out w']|] eqn:Hrun.
  - exists out, w'. split; [reflexivity|]. split.
    + vm_compute in Hrun. injection Hrun as <- _. reflexivity.
    + exact (timeline_day_sorted_by_score _ _ _ _ _ _ _ (cacheOk_empty _) Hrun).
  - vm_compute in Hrun. discriminate.
Defined.

(** *** The sections *)

Lemma section_updateSection_same (f : list DisplayItem -> list DisplayItem)
    (s : Sections) (cat : Category) :
  section (updateSection f s cat) cat = option_map f (section s cat).
Proof. destruct cat; reflexivity. Qed.

Lemma section_updateSection_other (f : list DisplayItem -> list DisplayItem)
    (s : Sections) (cat cat' : Category) :
  cat <> cat' -> section (updateSection f s cat) cat' = section s cat'.
Proof. destruct cat, cat'; try reflexivity; congruence. Qed.

Lemma section_capped (s : Sections) (cat : Category) :
  section
    (fold_left (updateSection (firstn 5))
       [movies; festivals; alerts; events; sports; shopping; civic; weather_alerts] s)
    cat
  = option_map (firstn 5) (section s cat).
Proof. destruct cat; reflexivity. Qed.

(** What [populateSections] does when it lets the item through. *)
Lemma populateSections_inv (tz : Z) (ctx : Ctx) (it : Item) (s s' : Sections) :
  populateSections tz ctx it s = Some s' ->
  (s' = s /\ category it = general)
  \/ (s' = updateSection (fun l => (l ++ [displayItem tz it])%list) s (category it)
      /\ (isPlannerSection (category it) = true ->
          is_Some (extractedDate it) \/ isRoundup it = true)
      /\ (forall ed, extractedDate it = Some ed ->
                     isPlannerSection (category it) = true ->
                     category it <> festivals ->
                     dateLt ed (today ctx) = false)).
Proof.
  unfold populateSections.
  destruct (category it) eqn:Hcat;
    destruct (extractedDate it) as [[|e]|] eqn:Hed;
    destruct (isRoundup it) eqn:Hr;
    destruct (today ctx) as [|t] eqn:Ht;
    cbn [section isPlannerSection andb negb dateLt];
    rewrite ?bool_decide_eq_true_2 by eauto;
    rewrite ?bool_decide_eq_false_2 by (intros [? [=]]);
    cbn [negb andb];
    repeat match goal with
           | |- context [if ?b then _ else _] => destruct b eqn:?
           end;
    try discriminate;
    intros [= <-];
    try (left; split; reflexivity);
    right; (split; [reflexivity|]);
    (split; [cbn; intros Hp; try discriminate Hp; eauto|]);
    cbn; intros ed' Hed' Hp Hf; try discriminate Hp; try congruence;
    injection Hed' as <-; cbn; try reflexivity; try assumption.
Qed.

Lemma displayItem_withScore (tz : Z) (it : Item) (v : Z) :
  displayItem tz (withScore it v) = displayItem tz it.
Proof. reflexivity. Qed.

(** The sections after the loop: every entry of the list of a category is
    the display item of a batch item of that category that passed the
    filters. *)
Lemma outcomes_sections (tz now : Z) (ctx : Ctx) (h : gmap nat Item) (refs : list nat)
    (acc : Acc) :
  outcomes tz now ctx h (mkAcc [] emptySections ∅) refs = Some acc ->
  forall cat l,
    section (accSections acc) cat = Some l ->
    Forall (fun d => exists r it,
                       In r refs /\ h !! r = Some it /\ passes now ctx it
                       /\ category it = cat /\ d = displayItem tz it
                       /\ (isPlannerSection cat = true ->
                           is_Some (extractedDate it) \/ isRoundup it = true)
                       /\ (forall ed, extractedDate it = Some ed ->
                                      isPlannerSection cat = true -> cat <> festivals ->
                                      dateLt ed (today ctx) = false))
      l.
Proof.
  intros Hrun.
  set (P := fun acc : Acc =>
              forall cat l,
                section (accSections acc) cat = Some l ->
                Forall (fun d => exists r it,
                                   In r refs /\ h !! r = Some it /\ passes now ctx it
                                   /\ category it = cat /\ d = displayItem tz it
                                   /\ (isPlannerSection cat = true ->
                                       is_Some (extractedDate it) \/ isRoundup it = true)
                                   /\ (forall ed, extractedDate it = Some ed ->
                                                  isPlannerSection cat = true ->
                                                  cat <> festivals ->
                                                  dateLt ed (today ctx) = false))
                  l).
  refine (outcomes_invariant P tz now ctx h refs _ _ _ Hrun _).
  - clear acc Hrun. intros acc r it Hr Hit HP. unfold P. intros cat l.
    destruct (itemOutcome_cases tz now ctx acc it)
      as [(_ & -> & _)|(_ & Hpass & sections' & Hsec & ->)]; [apply HP|].
    cbn [accSections].
    apply populateSections_inv in Hsec
      as [[-> _]|(-> & Hplanner & Hdate)]; [apply HP|].
    change (category (withScore it (forwardScoreOf (fullTextOf it)))) with (category it)
      in *.
    change (extractedDate (withScore it (forwardScoreOf (fullTextOf it))))
      with (extractedDate it) in *.
    change (isRoundup (withScore it (forwardScoreOf (fullTextOf it))))
      with (isRoundup it) in *.
    rewrite displayItem_withScore.
    destruct (section (accSections acc) cat) as [l0|] eqn:Hl0.
    + assert (Hcases : category it = cat \/ category it <> cat)
        by (destruct (category it), cat; (now left) || (right; discriminate)).
      destruct Hcases as [Hc|Hc].
      * rewrite Hc in *. rewrite section_updateSection_same, Hl0. intros [= <-].
        apply Forall_app. split; [now apply HP|].
        constructor; [|constructor]. exists r, it. auto 10.
      * rewrite section_updateSection_other by assumption. rewrite Hl0.
        intros [= <-]. now apply HP.
    + assert (cat = general) as -> by (destruct cat; cbn in Hl0; congruence).
      destruct (category it); cbn; discriminate.
  - intros cat l. destruct cat; cbn; intros [= <-]; constructor.
Qed.

(** A section of the output holds at most five entries, each the display
    item of an item of the batch that has the category of the section and
    passed the filters; in a planner section the item has an extracted
    date or is a roundup, and outside festivals the date is not before the
    day of the run. *)
Theorem sections_hold_passing_items (tz now : Z) (rawItems : list nat)
    (settings : option Settings) (w w' : World) (out : Output) :
  cacheOk w ->
  processUpAheadData tz now rawItems settings w = Some (out, w') ->
  forall cat l,
    section (sections out) cat = Some l ->
    (length l <= 5)%nat
    /\ Forall (fun d => exists r it,
                          In r rawItems /\ heap w !! r = Some it
                          /\ passes now (makeCtx tz now settings) it
                          /\ category it = cat /\ d = displayItem tz it
                          /\ (isPlannerSection cat = true ->
                              is_Some (extractedDate it) \/ isRoundup it = true)
                          /\ (forall ed, extractedDate it = Some ed ->
                                         isPlannerSection cat = true ->
                                         cat <> festivals ->
                                         dateLt ed (setHoursZero tz (At now)) = false))
         l.
Proof.
  intros Hok Hrun cat l Hl.
  destruct (run_outcomes _ _ _ _ _ _ _ Hok Hrun) as (acc & Hacc & Hfin).
  destruct (finalize_inv _ _ _ _ Hfin) as (_ & Hsec & _).
  rewrite Hsec, section_capped in Hl.
  destruct (section (accSections acc) cat) as [l0|] eqn:Hl0; [|discriminate].
  injection Hl as <-.
  split; [apply firstn_le_length|].
  pose proof (outcomes_sections _ _ _ _ _ _ Hacc cat l0 Hl0) as Hall.
  rewrite <- (firstn_skipn 5 l0) in Hall. now apply Forall_app in Hall as [Hall _].
Qed.

Lemma sections_hold_passing_items_witness :
  exists out w',
    processUpAheadData Samples.tzIST Samples.nowIST Samples.batch None Samples.world0
    = Some (out, w')
    /\ forall cat l,
         section (sections out) cat = Some l ->
         (length l <= 5)%nat
         /\ Forall (fun d => exists r it,
                               In r Samples.batch /\ heap Samples.world0 !! r = Some it
                               /\ passes Samples.nowIST
                                    (makeCtx Samples.tzIST Samples.nowIST None) it
                               /\ category it = cat /\ d = displayItem Samples.tzIST it
                               /\ (isPlannerSection cat = true ->
                                   is_Some (extractedDate it) \/ isRoundup it = true)
                               /\ (forall ed, extractedDate it = Some ed ->
                                              isPlannerSection cat = true ->
                                              cat <> festivals ->
                                              dateLt ed (setHoursZero Samples.tzIST
                                                           (At Samples.nowIST)) = false))
              l.
Proof.
  destruct sample_run as (out & w' & Hrun).
  exists out, w'. split; [exact Hrun|].
  exact (sections_hold_passing_items _ _ _ _ _ _ _ (cacheOk_empty _) Hrun).
Defined.

(** *** Items that share an id *)

Lemma outcomes_app (tz now : Z) (ctx : Ctx) (h : gmap nat Item) (r1 r2 : list nat) :
  forall acc,
    outcomes tz now ctx h acc (r1 ++ r2)
    = match outcomes tz now ctx h acc r1 with
      | Some acc1 => outcomes tz now ctx h acc1 r2
      | None => None
      end.
Proof.
  induction r1 as [|l r1 IH]; intros acc; cbn [app outcomes]; [reflexivity|].
  destruct (h !! l); [apply IH|reflexivity].
Qed.

Lemma itemOutcome_seen (tz now : Z) (ctx : Ctx) (acc : Acc) (it : Item) :
  id it ∈ seenIds (itemOutcome tz now ctx acc it)
  /\ seenIds acc ⊆ seenIds (itemOutcome tz now ctx acc it).
Proof.
  unfold itemOutcome.
  destruct (decide (id it ∈ seenIds acc)); [auto|].
  destruct (_ || _); [cbn; set_solver|].
  destruct (populateSections _ _ _ _); cbn; set_solver.
Qed.

Lemma outcomes_seen (tz now : Z) (ctx : Ctx) (h : gmap nat Item) (refs : list nat) :
  forall acc acc',
    outcomes tz now ctx h acc refs = Some acc' ->
    seenIds acc ⊆ seenIds acc'
    /\ forall l it, In l refs -> h !! l = Some it -> id it ∈ seenIds acc'.
Proof.
  induction refs as [|r refs IH]; intros acc acc'; cbn [outcomes].
  - intros [= <-]. split; [reflexivity|intros ? ? []].
  - destruct (h !! r) as [it0|] eqn:Hr; [|discriminate].
    intros Hrun. destruct (IH _ _ Hrun) as [Hsub Hin]. clear IH.
    destruct (itemOutcome_seen tz now ctx acc it0) as [Hid Hsub0].
    split; [now transitivity (seenIds (itemOutcome tz now ctx acc it0))|].
    intros l it [<-|Hl] Hit; [|now apply (Hin l)].
    assert (it = it0) as -> by congruence. now apply Hsub.
Qed.

(** An item whose id an earlier item of the batch carries changes nothing:
    the output is that of the batch without it. *)
Theorem later_duplicate_ignored (tz now : Z) (before after : list nat) (l : nat)
    (settings : option Settings) (w : World) (it : Item) :
  cacheOk w ->
  heap w !! l = Some it ->
  (exists l0 it0, In l0 before /\ heap w !! l0 = Some it0 /\ id it0 = id it) ->
  option_map fst (processUpAheadData tz now (before ++ l :: after) settings w)
  = option_map fst (processUpAheadData tz now (before ++ after) settings w).
Proof.
  intros Hok Hit (l0 & it0 & Hl0 & Hit0 & Hid).
  rewrite !run_output by assumption. unfold aggregate. rewrite !outcomes_app.
  destruct (outcomes tz now (makeCtx tz now settings) (heap w)
              (mkAcc [] emptySections ∅) before) as [acc1|] eqn:H1; [|reflexivity].
  cbn [outcomes]. rewrite Hit.
  replace (itemOutcome tz now (makeCtx tz now settings) acc1 it) with acc1; [reflexivity|].
  unfold itemOutcome. rewrite decide_True; [reflexivity|].
  rewrite <- Hid. apply (proj2 (outcomes_seen _ _ _ _ _ _ _ H1) l0 it0 Hl0 Hit0).
Qed.

Lemma later_duplicate_ignored_witness :
  option_map fst
    (processUpAheadData Samples.tzIST Samples.nowIST
       ([1%nat; 2%nat; 3%nat; 4%nat] ++ 1%nat :: []) None Samples.world0)
  = option_map fst
      (processUpAheadData Samples.tzIST Samples.nowIST
         ([1%nat; 2%nat; 3%nat; 4%nat] ++ []) None Samples.world0).
Proof.
  apply (later_duplicate_ignored Samples.tzIST Samples.nowIST [1; 2; 3; 4]%nat [] 1%nat
           None Samples.world0 Samples.weatherAlert (cacheOk_empty _));
    [vm_compute; reflexivity|].
  exists 1%nat, Samples.weatherAlert.
  split; [now left|]. split; vm_compute; reflexivity.
Defined.

(** *** Keys and labels of the days *)

Lemma mapPush_headers (Q : string -> string -> string -> Prop)
    (m : list (string * TimelineDay)) (k : string) (ti : TimelineItem) :
  Forall (fun kd => Q (fst kd) (date (snd kd)) (dayLabel (snd kd))) m ->
  Forall (fun kd => Q (fst kd) (date (snd kd)) (dayLabel (snd kd))) (mapPush m k ti).
Proof.
  induction 1 as [|[k' day] m Hkd Hm IH]; cbn [mapPush]; [constructor|].
  destruct (String.eqb k' k); constructor; auto.
Qed.

(** Every day of the output timeline is keyed by the UTC date of an
    instant that is not before the local midnight of the day of the run,
    and labelled with the day label of that instant. *)
Theorem timeline_days_labelled (tz now : Z) (rawItems : list nat)
    (settings : option Settings) (w w' : World) (out : Output) :
  cacheOk w ->
  processUpAheadData tz now rawItems settings w = Some (out, w') ->
  forall day,
    In day (timeline out) ->
    exists t t0,
      setHoursZero tz (At now) = At t0 /\ t0 <= t
      /\ date day = isoDateKey t
      /\ dayLabel day = getDayLabel tz now (At t).
Proof.
  intros Hok Hrun day Hday.
  destruct (run_outcomes _ _ _ _ _ _ _ Hok Hrun) as (acc & Hacc & Hfin).
  destruct (timeline_days _ _ _ _ _ Hfin Hday) as (k & day0 & Hday0 & ->).
  cbn [finishDay date dayLabel].
  set (Q := fun (_ d label : string) =>
              exists t t0,
                setHoursZero tz (At now) = At t0 /\ t0 <= t
                /\ d = isoDateKey t /\ label = getDayLabel tz now (At t)).
  set (P := fun acc : Acc =>
              Forall (fun kd => Q (fst kd) (date (snd kd)) (dayLabel (snd kd)))
                (timelineMap acc)).
  assert (HP : P acc).
  { refine (outcomes_invariant P tz now (makeCtx tz now settings) (heap w) rawItems
              _ _ _ Hacc _); [|constructor].
    intros acc0 l it _ _ HP0. unfold P.
    destruct (itemOutcome_cases tz now (makeCtx tz now settings) acc0 it)
      as [(-> & _ & _)|(_ & _ & sections' & _ & ->)]; [exact HP0|].
    cbn [timelineMap]. unfold populateTimeline.
    destruct (targetDateOf now (makeCtx tz now settings) _) as [[|target]|];
      try exact HP0.
    destruct (dateGe (At target) (today (makeCtx tz now settings))) eqn:Hge;
      [|exact HP0].
    apply mapPush_headers.
    destruct (mapHas (timelineMap acc0) (isoDateKey target)); [exact HP0|].
    apply Forall_app. split; [exact HP0|]. constructor; [|constructor].
    cbn [fst snd date dayLabel]. unfold Q.
    cbn [makeCtx today] in Hge. unfold dateGe in Hge.
    destruct (setHoursZero tz (At now)) as [|t0]; [discriminate|].
    exists target, t0. apply Z.leb_le in Hge. auto. }
  unfold P in HP. rewrite Forall_forall in HP.
  apply (HP (k, day0)). now apply list_elem_of_In.
Qed.

Lemma timeline_days_labelled_witness :
  exists out w',
    processUpAheadData Samples.tzIST Samples.nowIST Samples.batch None Samples.world0
    = Some (out, w')
    /\ forall day,
         In day (timeline out) ->
         exists t t0,
           setHoursZero Samples.tzIST (At Samples.nowIST) = At t0 /\ t0 <= t
           /\ date day = isoDateKey t
           /\ dayLabel day = getDayLabel Samples.tzIST Samples.nowIST (At t).
Proof.
  destruct sample_run as (out & w' & Hrun).
  exists out, w'. split; [exact Hrun|].
  exact (timeline_days_labelled _ _ _ _ _ _ _ (cacheOk_empty _) Hrun).
Defined.

(** *** Day labels *)

Lemma weekdayMonthDay_not_relative (tz t : Z) :
  weekdayMonthDay tz t <> "Today" /\ weekdayMonthDay tz t <> "Tomorrow".
Proof.
  unfold weekdayMonthDay, weekdayLong.
  pose proof (getDay_range tz t) as Hg.
  generalize (", " +:+ nameAt shortMonths (getMonth tz t) +:+ " " +:+ pretty (getDate tz t)).
  intros rest.
  assert (Hc : getDay tz t = 0 \/ getDay tz t = 1 \/ getDay tz t = 2 \/ getDay tz t = 3
               \/ getDay tz t = 4 \/ getDay tz t = 5 \/ getDay tz t = 6) by lia.
  destruct Hc as [-> | [-> | [-> | [-> | [-> | [-> | ->]]]]]];
    split; intros H; cbv in H; discriminate H.
Qed.

Lemma startOfDay_eq (tz a b : Z) :
  startOfDay tz a = startOfDay tz b <-> localDay tz a = localDay tz b.
Proof. unfold startOfDay, msPerDay. lia. Qed.

(** The label of a date is "Today" exactly on the local day of the run and
    "Tomorrow" exactly on the next local day; on the other days it is the
    weekday, month and day of the date. *)
Theorem getDayLabel_relative (tz now t : Z) :
  -86400000 <= tz <= 86400000 ->
  -8640000000000000 + 2 * msPerDay <= now <= 8640000000000000 - 2 * msPerDay ->
  -8640000000000000 + 2 * msPerDay <= t <= 8640000000000000 - 2 * msPerDay ->
  (getDayLabel tz now (At t) = "Today" <-> localDay tz t = localDay tz now)
  /\ (getDayLabel tz now (At t) = "Tomorrow" <-> localDay tz t = localDay tz now + 1)
  /\ (localDay tz t <> localDay tz now -> localDay tz t <> localDay tz now + 1 ->
      getDayLabel tz now (At t) = weekdayMonthDay tz (startOfDay tz t)).
Proof.
  intros Htz Hnow Ht.
  pose proof (localDay_bounds tz now) as Hbn. pose proof (localDay_bounds tz t) as Hbt.
  destruct (weekdayMonthDay_not_relative tz (startOfDay tz t)) as [Hnt Hnm].
  unfold getDayLabel. cbn [setHoursZero]. fold (startOfDay tz now) (startOfDay tz t).
  rewrite (timeClip_valid (startOfDay tz now))
    by (unfold startOfDay, msPerDay in *; lia).
  rewrite (timeClip_valid (startOfDay tz t))
    by (unfold startOfDay, msPerDay in *; lia).
  rewrite addDays_moves_days, timeClip_valid
    by (unfold startOfDay, msPerDay in *; lia).
  destruct (Z.eqb_spec (startOfDay tz t) (startOfDay tz now)) as [E|E].
  - apply startOfDay_eq in E. split; [tauto|]. split; [|tauto].
    split; [discriminate|lia].
  - assert (E' : localDay tz t <> localDay tz now)
      by (intros E'; apply E; now apply startOfDay_eq).
    destruct (Z.eqb_spec (startOfDay tz t) (startOfDay tz now + 1 * msPerDay)) as [E1|E1].
    + assert (localDay tz t = localDay tz now + 1)
        by (unfold startOfDay, msPerDay in E1; lia).
      split; [split; [discriminate|lia]|]. split; [tauto|]. tauto.
    + assert (localDay tz t <> localDay tz now + 1)
        by (intros E2; apply E1; unfold startOfDay, msPerDay; lia).
      split; [split; [intros H0; contradiction|tauto]|].
      split; [split; [intros H0; contradiction|tauto]|]. reflexivity.
Qed.

Lemma getDayLabel_relative_witness :
  (getDayLabel Samples.tzIST Samples.nowIST (At (Samples.nowIST + 3600000)) = "Today"
   <-> localDay Samples.tzIST (Samples.nowIST + 3600000)
       = localDay Samples.tzIST Samples.nowIST)
  /\ (getDayLabel Samples.tzIST Samples.nowIST (At (Samples.nowIST + 3600000)) = "Tomorrow"
      <-> localDay Samples.tzIST (Samples.nowIST + 3600000)
          = localDay Samples.tzIST Samples.nowIST + 1)
  /\ (localDay Samples.tzIST (Samples.nowIST + 3600000)
      <> localDay Samples.tzIST Samples.nowIST ->
      localDay Samples.tzIST (Samples.nowIST + 3600000)
      <> localDay Samples.tzIST Samples.nowIST + 1 ->
      getDayLabel Samples.tzIST Samples.nowIST (At (Samples.nowIST + 3600000))
      = weekdayMonthDay Samples.tzIST
          (startOfDay Samples.tzIST (Samples.nowIST + 3600000))).
Proof.
  apply (getDayLabel_relative Samples.tzIST Samples.nowIST (Samples.nowIST + 3600000));
    unfold Samples.tzIST, Samples.nowIST, msPerDay; lia.
Defined.

(** *** The weekly plan *)

Lemma setProp_fresh {V : Type} (plan : list (string * V)) (k : string) (v : V) :
  ~ In k (map fst plan) -> setProp plan k v = (plan ++ [(k, v)])%list.
Proof.
  induction plan as [|[k' v'] plan IH]; cbn [setProp map fst In app]; [reflexivity|].
  intros Hk. destruct (String.eqb_spec k' k) as [->|_]; [tauto|].
  rewrite IH by tauto. reflexivity.
Qed.

Lemma longDays_inj (a b : Z) :
  0 <= a <= 6 -> 0 <= b <= 6 -> nameAt longDays a = nameAt longDays b -> a = b.
Proof.
  intros Ha Hb.
  assert (Hca : a = 0 \/ a = 1 \/ a = 2 \/ a = 3 \/ a = 4 \/ a = 5 \/ a = 6) by lia.
  assert (Hcb : b = 0 \/ b = 1 \/ b = 2 \/ b = 3 \/ b = 4 \/ b = 5 \/ b = 6) by lia.
  destruct Hca as [-> | [-> | [-> | [-> | [-> | [-> | ->]]]]]];
    destruct Hcb as [-> | [-> | [-> | [-> | [-> | [-> | ->]]]]]];
    intros H; try reflexivity; vm_compute in H; discriminate H.
Qed.

(** The weekdays of seven days in a row are pairwise distinct. *)
Lemma weekdayLong_inj (tz now : Z) (i j : nat) :
  (i < 7)%nat -> (j < 7)%nat ->
  weekdayLong tz (now + Z.of_nat i * msPerDay) = weekdayLong tz (now + Z.of_nat j * msPerDay) ->
  i = j.
Proof.
  intros Hi Hj. unfold weekdayLong. rewrite !getDay_shift. intros H.
  pose proof (getDay_range tz now) as Hg.
  pose proof (Z.mod_pos_bound (getDay tz now + Z.of_nat i) 7 ltac:(lia)).
  pose proof (Z.mod_pos_bound (getDay tz now + Z.of_nat j) 7 ltac:(lia)).
  apply longDays_inj in H; [|lia ..].
  Z.div_mod_to_equations. lia.
Qed.

(** The loop of [generateWeeklyPlan]: after the rounds for the first days,
    the remaining rounds complete the plan. *)
Lemma weeklyLoop_days (tz now : Z) (tl : list TimelineDay)
    (F : nat -> string * list PlanItem) :
  -8640000000000000 <= now <= 8640000000000000 - 6 * msPerDay ->
  (forall i,
     F i = (weekdayLong tz (now + Z.of_nat i * msPerDay),
            match find (fun t => String.eqb (date t)
                                   (isoDateKey (now + Z.of_nat i * msPerDay))) tl with
            | Some day => map planItem (items day)
            | None => []
            end)) ->
  forall n plan,
    (n <= 7)%nat ->
    plan = map F (seq 0 (7 - n)) ->
    weeklyLoop tz now tl n plan = Some (map F (seq 0 7)).
Proof.
  intros Hnow HF. induction n as [|n IH]; intros plan Hn ->; [reflexivity|].
  cbn [weeklyLoop].
  replace (7 - Z.of_nat (S n)) with (Z.of_nat (7 - S n)) by lia.
  rewrite setDate_moves_days, timeClip_valid by (unfold msPerDay in *; lia).
  apply IH; [lia|].
  replace (7 - n)%nat with (S (7 - S n)) by lia.
  rewrite seq_S, map_app. cbn [map Nat.add]. rewrite (HF (7 - S n)%nat).
  apply setProp_fresh.
  rewrite map_map. intros Hin.
  apply in_map_iff in Hin as (j & Hj & Hin). apply in_seq in Hin.
  rewrite HF in Hj. cbn [fst] in Hj.
  apply weekdayLong_inj in Hj; lia.
Qed.

Lemma generateWeeklyPlan_days (tz now : Z) (tl : list TimelineDay) :
  -8640000000000000 <= now <= 8640000000000000 - 6 * msPerDay ->
  generateWeeklyPlan tz now tl
  = Some (map (fun i =>
                 (weekdayLong tz (now + Z.of_nat i * msPerDay),
                  match find (fun t => String.eqb (date t)
                                         (isoDateKey (now + Z.of_nat i * msPerDay))) tl with
                  | Some day => map planItem (items day)
                  | None => []
                  end)) (seq 0 7)).
Proof.
  intros Hnow. unfold generateWeeklyPlan.
  apply (weeklyLoop_days tz now tl _ Hnow); [reflexivity|lia|reflexivity].
Qed.



(** *** Roundups *)

Lemma caseStable_Lit (w : string) : caseStable (Lit w).
Proof. induction w as [|x w IH]; cbn [Lit caseStable]; auto. Qed.

(** An item that the title test of the normalizer flags as a roundup is a
    roundup for the negative filter, which tests the lower-cased title and
    description: no negative keyword drops it. *)
Theorem title_roundup_exempt (ctx : Ctx) (it : Item) :
  detectRoundup (title it) = true ->
  roundupText (fullTextOf it) = true
  /\ negativeDrop ctx (fullTextOf it) = false.
Proof.
  unfold detectRoundup. intros H. apply andb_true_iff in H as [Hwords Hcount].
  assert (Hround : roundupText (fullTextOf it) = true).
  { unfold roundupText, fullTextOf. rewrite toLowerCase_app.
    apply andb_true_iff. split.
    - apply test_lower_extend.
      + unfold roundupWordsRe. cbn [Alts caseStable].
        repeat split; try apply caseStable_Lit.
      + apply test_Matches in Hwords as (pre & s & prev' & s' & c' & Htext & HM).
        apply test_Matches. exists pre, s, prev', s', c'. split; [assumption|].
        unfold titleRoundupWordsRe, roundupWordsRe in *. cbn [Alts] in *.
        inversion HM as [| | | | |? ? ? ? ? ? ? ? H1|? ? ? ? ? ? ? ? H1| | |]; subst;
          [now apply MatchesAltL|]. apply MatchesAltR.
        inversion H1 as [| | | | |? ? ? ? ? ? ? ? H2|? ? ? ? ? ? ? ? H2| | |]; subst;
          [now apply MatchesAltL|]. apply MatchesAltR. now apply MatchesAltL.
    - apply test_lower_extend; [|assumption].
      unfold countNewRe, Plus, Digit. cbn [caseStable].
      repeat split; try apply isDigit_lowerChar; try apply caseStable_Lit. }
  split; [assumption|]. unfold negativeDrop. now rewrite Hround.
Qed.

Lemma title_roundup_exempt_witness :
  roundupText
    (fullTextOf (mkItem "r1" "OTT Releases This Week: 5 New shocking thrillers" "" "<p>list</p>"
                   None None movies "feed" true [] None)) = true
  /\ negativeDrop (makeCtx Samples.tzIST Samples.nowIST None)
       (fullTextOf (mkItem "r1" "OTT Releases This Week: 5 New shocking thrillers" ""
                      "<p>list</p>" None None movies "feed" true [] None)) = false.
Proof.
  apply (title_roundup_exempt (makeCtx Samples.tzIST Samples.nowIST None)
           (mkItem "r1" "OTT Releases This Week: 5 New shocking thrillers" "" "<p>list</p>"
              None None movies "feed" true [] None)).
  vm_compute. reflexivity.
Defined.

(** *** Category detection *)

Lemma toLowerCase_toUpperCase (s : string) : toLowerCase (toUpperCase s) = toLowerCase s.
Proof.
  induction s as [|x s IH]; [reflexivity|].
  cbn [toUpperCase toLowerCase]. now rewrite lowerChar_upperChar, IH.
Qed.

Lemma toLowerCase_idem (s : string) : toLowerCase (toLowerCase s) = toLowerCase s.
Proof.
  induction s as [|x s IH]; [reflexivity|].
  cbn [toLowerCase]. rewrite IH. f_equal.
  destruct x as [[] [] [] [] [] [] [] []]; vm_compute; reflexivity.
Qed.

(** The category of a text of ASCII characters does not depend on the
    case of its letters. *)
Theorem detectCategory_caseless (text : string) :
  isAscii text = true ->
  detectCategory (toUpperCase text) = detectCategory text
  /\ detectCategory (toLowerCase text) = detectCategory text.
Proof.
  intros _. unfold detectCategory.
  now rewrite toLowerCase_toUpperCase, toLowerCase_idem.
Qed.

Lemma detectCategory_caseless_witness :
  toUpperCase "Ipl final: tickets at Chepauk" = "IPL FINAL: TICKETS AT CHEPAUK"
  /\ detectCategory "Ipl final: tickets at Chepauk" = sports
  /\ detectCategory (toUpperCase "Ipl final: tickets at Chepauk")
     = detectCategory "Ipl final: tickets at Chepauk"
  /\ detectCategory (toLowerCase "Ipl final: tickets at Chepauk")
     = detectCategory "Ipl final: tickets at Chepauk".
Proof.
  split; [reflexivity|]. split; [reflexivity|].
  apply (detectCategory_caseless "Ipl final: tickets at Chepauk"). reflexivity.
Defined.

End AggregatorFacts.
(** ** Persisting the items into the planner store *)

Section Persistence.

Import JsString JsDate DateExtractor PlannerStorage UpAheadService.

(** A merge keeps, in the days that are not below the cutoff, the
    duplicates that an item has there. *)
Lemma merge_keeps_duplicates (tz now : Z) (dateKeys : list string)
    (items : list PlannerItem) (ls ls' : LocalStorage) (cutoff k : string)
    (item : PlannerItem) :
  writable ls = true ->
  cutoffKey tz now = Some cutoff -> lt k cutoff = false ->
  merge tz now dateKeys items ls = Some ls' ->
  isDuplicate (getDay ls k) item = true ->
  isDuplicate (getDay ls' k) item = true.
Proof.
  intros Hw Hcut Hk Hmerge Hdup.
  destruct (merge_inv _ _ _ _ _ _ Hmerge) as (pruned & Hprune & ->).
  destruct (prune_lookup _ _ _ _ Hprune) as (cutoff' & Hcut' & Hpruned).
  assert (cutoff' = cutoff) as -> by congruence.
  unfold getDay at 1. rewrite load_save by assumption.
  destruct (mergeKeys_added now items dateKeys pruned k) as (added & -> & _).
  apply isDuplicate_app.
  unfold dayItems. rewrite Hpruned, Hk. exact Hdup.
Qed.

Lemma merge_writable (tz now : Z) (dateKeys : list string) (items : list PlannerItem)
    (ls ls' : LocalStorage) :
  writable ls = true -> merge tz now dateKeys items ls = Some ls' -> writable ls' = true.
Proof.
  intros Hw Hmerge. destruct (merge_inv _ _ _ _ _ _ Hmerge) as (pruned & _ & ->).
  now rewrite save_writable.
Qed.

Lemma merge_returns (tz now : Z) (dateKeys : list string) (items : list PlannerItem)
    (ls : LocalStorage) (cutoff : string) :
  cutoffKey tz now = Some cutoff -> is_Some (merge tz now dateKeys items ls).
Proof. intros Hcut. unfold merge. rewrite (prune_cutoff _ _ _ _ Hcut). eauto. Qed.

Lemma persistItem_cases (tz now : Z) (it : Item) (ls : LocalStorage) :
  (persistItem tz now it ls = Some ls
   /\ (extractedDate it = None
       \/ extractDate tz now (title it +:+ " " +:+ description it) (pubDate it) = None
       \/ exists r,
            extractDate tz now (title it +:+ " " +:+ description it) (pubDate it) = Some r
            /\ expandDateKeys tz (Some r) 14 = []))
  \/ exists r,
       extractedDate it <> None
       /\ extractDate tz now (title it +:+ " " +:+ description it) (pubDate it) = Some r
       /\ persistItem tz now it ls
          = merge tz now (expandDateKeys tz (Some r) 14) [plannerRecord it] ls.
Proof.
  unfold persistItem.
  destruct (extractedDate it) as [ed|]; [|left; split; [reflexivity|now left]].
  destruct (extractDate tz now _ (pubDate it)) as [r|] eqn:Hr;
    [|left; split; [reflexivity|right; now left]].
  destruct (expandDateKeys tz (Some r) 14) as [|k keys] eqn:Hkeys;
    [left; split; [reflexivity|right; right; now exists r]|].
  right. exists r. split; [discriminate|]. split; [reflexivity|]. now rewrite Hkeys.
Qed.

Lemma persistItem_untouched (tz now : Z) (it : Item) (ls : LocalStorage) :
  extractedDate it = None
  \/ extractDate tz now (title it +:+ " " +:+ description it) (pubDate it) = None ->
  persistItem tz now it ls = Some ls.
Proof. unfold persistItem. intros [-> | H]; [reflexivity|]. rewrite H. now destruct (extractedDate it). Qed.

(** The persisting loop keeps what it stored: the store stays writable,
    and an item keeps its duplicates in the days that are not below the
    cutoff. *)
Lemma persistItems_keeps (tz now : Z) (cutoff k : string) (item : PlannerItem)
    (allItems : list Item) :
  cutoffKey tz now = Some cutoff -> lt k cutoff = false ->
  forall ls,
    writable ls = true ->
    isDuplicate (getDay ls k) item = true ->
    isDuplicate (getDay (persistItems tz now allItems ls) k) item = true.
Proof.
  intros Hcut Hk. induction allItems as [|it rest IH]; intros ls Hw Hdup;
    cbn [persistItems]; [assumption|].
  destruct (persistItem_cases tz now it ls) as [[-> _]|(r & _ & _ & ->)]; [now apply IH|].
  destruct (merge tz now _ [plannerRecord it] ls) as [ls'|] eqn:Hmerge; [|assumption].
  apply IH.
  - eapply merge_writable; eassumption.
  - eapply merge_keeps_duplicates; eassumption.
Qed.

(** After the persisting loop, an item of the batch that carries an
    extracted date and in whose title and description the date engine
    finds a date has a duplicate in the store under every date key of that
    date that is not below the cutoff; an item without an extracted date,
    or in whose text the engine finds nothing, is not persisted. *)
Theorem persisted_items_are_stored (tz now : Z) (cutoff : string) (allItems : list Item)
    (ls : LocalStorage) :
  writable ls = true ->
  cutoffKey tz now = Some cutoff ->
  (forall it r k,
     In it allItems ->
     extractedDate it <> None ->
     extractDate tz now (title it +:+ " " +:+ description it) (pubDate it) = Some r ->
     In k (expandDateKeys tz (Some r) 14) ->
     lt k cutoff = false ->
     isDuplicate (getDay (persistItems tz now allItems ls) k) (plannerRecord it) = true)
  /\ ((forall it, In it allItems ->
         extractedDate it = None
         \/ extractDate tz now (title it +:+ " " +:+ description it) (pubDate it) = None) ->
      persistItems tz now allItems ls = ls).
Proof.
  intros Hw Hcut. split.
  - revert ls Hw. induction allItems as [|it0 rest IH]; intros ls Hw it r k Hin Hed Hr Hk Hlt;
      [destruct Hin|].
    cbn [persistItems].
    destruct (persistItem_cases tz now it0 ls) as [[Hsame Hwhy]|(r0 & _ & Hr0 & Hp)].
    + rewrite Hsame. destruct Hin as [<-|Hin]; [|apply (IH ls Hw it r k); assumption].
      exfalso. destruct Hwhy as [Hnone|[Hnone|(r1 & Hr1 & Hkeys)]]; [congruence|congruence|].
      assert (r1 = r) as -> by congruence. rewrite Hkeys in Hk. destruct Hk.
    + rewrite Hp.
      destruct (merge_returns tz now (expandDateKeys tz (Some r0) 14) [plannerRecord it0] ls
                  cutoff Hcut) as [ls' Hmerge].
      rewrite Hmerge.
      destruct Hin as [<-|Hin].
      * apply (persistItems_keeps tz now cutoff k _ rest Hcut Hlt).
        { eapply merge_writable; eassumption. }
        assert (r0 = r) as -> by congruence.
        apply (merge_covers_and_keeps_distinct _ _ _ _ _ _ Hmerge Hw); [assumption|now left].
      * apply (IH ls' (merge_writable _ _ _ _ _ _ Hw Hmerge) it r k); assumption.
  - revert ls Hw. induction allItems as [|it0 rest IH]; intros ls Hw Hnone; [reflexivity|].
    cbn [persistItems]. rewrite persistItem_untouched by (apply Hnone; now left).
    apply IH; [assumption|]. intros it Hin. apply Hnone. now right.
Qed.

Lemma persisted_items_are_stored_witness :
  isDuplicate
    (getDay (persistItems Samples.tzIST Samples.nowIST [Samples.concert] Samples.emptyStorage)
       "2026-02-13")
    (plannerRecord Samples.concert) = true.
Proof.
  refine (proj1 (persisted_items_are_stored Samples.tzIST Samples.nowIST "2026-02-03"
                   [Samples.concert] Samples.emptyStorage eq_refl _)
            Samples.concert (mkResult (At 1771007400000) None iso) "2026-02-13" _ _ _ _ _).
  - vm_compute. reflexivity.
  - now left.
  - discriminate.
  - vm_compute. reflexivity.
  - vm_compute. now left.
  - vm_compute. reflexivity.
Defined.

End Persistence.

(** ** The keyword filter and the freshness gate inside the loop *)

Section GateClaims.

Import JsString Regex JsDate UpAheadService.

(** The keyword test decides the occurrence of the keyword. *)
Lemma matchesKeywordPure_occurs (text keyword : string) :
  matchesKeywordPure text keyword = true <-> keywordOccurs text keyword.
Proof.
  unfold matchesKeywordPure, keywordOccurs, matchesWordPure, wordPattern.
  destruct (includes keyword " ").
  - apply includes_spec.
  - apply test_wordPattern.
Qed.

Lemma negativeDrop_occurs (ctx : Ctx) (fullText : string) :
  roundupText fullText = false ->
  (negativeDrop ctx fullText = true
   <-> exists k, In k (mergedNegatives ctx) /\ keywordOccurs fullText (toLowerCase k)).
Proof.
  intros Hround. unfold negativeDrop. rewrite Hround. cbn [negb andb].
  rewrite existsb_exists. split; intros (k & Hin & Hk); exists k; split; try assumption;
    now apply matchesKeywordPure_occurs.
Qed.

(** C4.  A keyword without a space matches exactly where it occurs, up to
    case, with a word boundary on each side; a phrase with a space matches
    by plain substring containment; the pattern cache does not change the
    answer.  Inside the loop, an item that reaches the negative filter and
    is no roundup is dropped as soon as one negative keyword occurs in its
    text in this sense, and when none occurs the round ends as it does
    without negative keywords.  The text of an item titled "preview
    screening announced" is matched by no built-in negative keyword,
    "review" included, and the item reaches the timeline, while the text of
    an item titled "this movie review is harsh" is matched by "review" and
    the item is dropped by the negative filter, also when its description
    satisfies every later layer: without the negative keywords that item
    reaches the timeline. *)
Theorem C4_word_boundary_matching (text keyword : string) (w : World) :
  cacheOk w ->
  (isAscii keyword = true ->
   exists b w',
     matchesKeyword text keyword w = Some (b, w')
     /\ cacheOk w' /\ heap w' = heap w
     /\ (b = true <-> keywordOccurs text keyword))
  /\ (forall tz now ctx acc l it,
        heap w !! l = Some it ->
        isAscii (title it) = true -> isAscii (description it) = true ->
        id it ∉ seenIds acc ->
        isFresh now (maxAgeMs ctx) it = true ->
        isStale (fullTextOf it) = false ->
        roundupText (fullTextOf it) = false ->
        (forall k,
           In k (mergedNegatives ctx) -> isAscii k = true ->
           keywordOccurs (fullTextOf it) (toLowerCase k) ->
           exists w', processItem tz now ctx acc l w = Some (dropped acc it, w'))
        /\ (forallb isAscii (mergedNegatives ctx) = true ->
            (forall k, In k (mergedNegatives ctx) ->
                       ~ keywordOccurs (fullTextOf it) (toLowerCase k)) ->
            exists acc' w1 w2,
              processItem tz now ctx acc l w = Some (acc', w1)
              /\ processItem tz now (withoutNegatives ctx) acc l w = Some (acc', w2)))
  /\ ~ occursAsWord (fullTextOf Samples.previewScreening) "review"
  /\ existsb (fun k => matchesKeywordPure (fullTextOf Samples.previewScreening)
                         (toLowerCase k)) ALL_NEGATIVE_KEYWORDS = false
  /\ option_map (fun r => timelineIds (fst r))
       (processItem Samples.tzIST Samples.nowIST
          (makeCtx Samples.tzIST Samples.nowIST None) (mkAcc [] emptySections ∅)
          4 Samples.world0)
     = Some ["g4"]
  /\ occursAsWord (fullTextOf Samples.harshReview) "review"
  /\ (forall tz now,
        negativeDrop (makeCtx tz now None) (fullTextOf Samples.harshReview) = true)
  /\ occursAsWord (fullTextOf Samples.reviewPremiere) "review"
  /\ option_map (fun r => (timelineIds (fst r), sectionTitles (fst r) movies))
       (processItem Samples.tzIST Samples.nowIST
          (makeCtx Samples.tzIST Samples.nowIST None) (mkAcc [] emptySections ∅)
          7 Samples.world7)
     = Some ([], [])
  /\ option_map (fun r => (timelineIds (fst r), sectionTitles (fst r) movies))
       (processItem Samples.tzIST Samples.nowIST
          (withoutNegatives (makeCtx Samples.tzIST Samples.nowIST None))
          (mkAcc [] emptySections ∅) 7 Samples.world7)
     = Some (["g7"], ["this movie review is harsh"])
  /\ option_map (fun r => map (fun d => map t_id (items d)) (timeline (fst r)))
       (processUpAheadData Samples.tzIST Samples.nowIST Samples.batch None Samples.world0)
     = Some [["g1"]; ["g4"]; ["g2"]].
Proof.
  intros Hok. split.
  { intros _.
    destruct (matchesKeyword_pure text keyword w Hok) as (w' & Hrun & Hok' & Hh).
    exists (matchesKeywordPure text keyword), w'.
    split; [exact Hrun|]. split; [exact Hok'|]. split; [exact Hh|].
    apply matchesKeywordPure_occurs. }
  split.
  { intros tz now ctx acc l it Hl _ _ Hnew Hfresh Hstale Hround. split.
    - intros k Hin _ Hk.
      destruct (processItem_outcome tz now ctx acc l w it Hok Hl) as (w' & Hrun & _).
      exists w'. rewrite Hrun. f_equal. f_equal.
      unfold itemOutcome. rewrite (decide_False _ _ Hnew), Hfresh, Hstale.
      assert (Hdrop : negativeDrop ctx (fullTextOf it) = true).
      { apply negativeDrop_occurs; [exact Hround|]. now exists k. }
      rewrite Hdrop. reflexivity.
    - intros _ Hnone.
      assert (Hdrop : negativeDrop ctx (fullTextOf it) = false).
      { destruct (negativeDrop ctx (fullTextOf it)) eqn:E; [|reflexivity].
        apply negativeDrop_occurs in E as (k & Hin & Hk); [|exact Hround].
        destruct (Hnone k Hin Hk). }
      destruct (processItem_outcome tz now ctx acc l w it Hok Hl) as (w1 & Hrun1 & _).
      destruct (processItem_outcome tz now (withoutNegatives ctx) acc l w it Hok Hl)
        as (w2 & Hrun2 & _).
      exists (itemOutcome tz now ctx acc it), w1, w2.
      split; [exact Hrun1|].
      rewrite Hrun2. now rewrite itemOutcome_withoutNegatives. }
  split.
  { rewrite <- test_wordPattern. vm_compute. discriminate. }
  split; [vm_compute; reflexivity|].
  split; [vm_compute; reflexivity|].
  split.
  { apply test_wordPattern. vm_compute. reflexivity. }
  split.
  { intros tz now. unfold negativeDrop, makeCtx. cbn [mergedNegatives chain].
    rewrite app_nil_r. vm_compute. reflexivity. }
  split.
  { apply test_wordPattern. vm_compute. reflexivity. }
  split; [vm_compute; reflexivity|].
  split; vm_compute; reflexivity.
Qed.

(** The theorem at the keyword "review" and the two items titled "this
    movie review is harsh": the keyword is found in the text and the round
    drops the item, the one that the later layers would drop as well and
    the one that the negative filter alone keeps from the timeline. *)
Lemma C4_word_boundary_matching_witness :
  (exists b w',
     matchesKeyword (fullTextOf Samples.reviewPremiere) "review" Samples.world7
     = Some (b, w')
     /\ cacheOk w' /\ heap w' = heap Samples.world7
     /\ (b = true <-> keywordOccurs (fullTextOf Samples.reviewPremiere) "review"))
  /\ (exists w',
        processItem Samples.tzIST Samples.nowIST
          (makeCtx Samples.tzIST Samples.nowIST None) (mkAcc [] emptySections ∅)
          7 Samples.world7
        = Some (dropped (mkAcc [] emptySections ∅) Samples.reviewPremiere, w'))
  /\ (exists w',
        processItem Samples.tzIST Samples.nowIST
          (makeCtx Samples.tzIST Samples.nowIST None) (mkAcc [] emptySections ∅)
          3 Samples.world0
        = Some (dropped (mkAcc [] emptySections ∅) Samples.harshReview, w')).
Proof.
  destruct (C4_word_boundary_matching (fullTextOf Samples.reviewPremiere) "review"
              Samples.world7 (cacheOk_empty _)) as (Hkey & Hloop & _).
  destruct (C4_word_boundary_matching (fullTextOf Samples.harshReview) "review"
              Samples.world0 (cacheOk_empty _)) as (_ & Hloop0 & _).
  split; [apply Hkey; reflexivity|]. split.
  - refine (proj1 (Hloop Samples.tzIST Samples.nowIST
                     (makeCtx Samples.tzIST Samples.nowIST None)
                     (mkAcc [] emptySections ∅) 7%nat Samples.reviewPremiere
                     _ _ _ _ _ _ _) "review" _ _ _).
    + vm_compute. reflexivity.
    + reflexivity.
    + reflexivity.
    + cbn [seenIds]. apply not_elem_of_empty.
    + vm_compute. reflexivity.
    + vm_compute. reflexivity.
    + vm_compute. reflexivity.
    + vm_compute. tauto.
    + reflexivity.
    + apply matchesKeywordPure_occurs. vm_compute. reflexivity.
  - refine (proj1 (Hloop0 Samples.tzIST Samples.nowIST
                     (makeCtx Samples.tzIST Samples.nowIST None)
                     (mkAcc [] emptySections ∅) 3%nat Samples.harshReview
                     _ _ _ _ _ _ _) "review" _ _ _).
    + vm_compute. reflexivity.
    + reflexivity.
    + reflexivity.
    + cbn [seenIds]. apply not_elem_of_empty.
    + vm_compute. reflexivity.
    + vm_compute. reflexivity.
    + vm_compute. reflexivity.
    + vm_compute. tauto.
    + reflexivity.
    + apply matchesKeywordPure_occurs. vm_compute. reflexivity.
Defined.

(** An item that the five tests let through is handed to the sections and
    to the timeline. *)
Lemma itemOutcome_passes (tz now : Z) (ctx : Ctx) (acc : Acc) (it : Item) :
  id it ∉ seenIds acc ->
  passes now ctx it ->
  itemOutcome tz now ctx acc it
  = match populateSections tz ctx (withScore it (forwardScoreOf (fullTextOf it)))
            (accSections acc) with
    | None => dropped acc it
    | Some sections' =>
        mkAcc (populateTimeline tz now ctx
                 (withScore it (forwardScoreOf (fullTextOf it))) (timelineMap acc))
          sections' ({[id it]} ∪ seenIds acc)
    end.
Proof.
  intros Hnew (Hfresh & Hstale & Hneg & Hirr & Hloc).
  unfold itemOutcome.
  rewrite (decide_False _ _ Hnew), Hfresh, Hstale, Hneg, Hirr, Hloc. reflexivity.
Qed.

(** An item whose target date is not before today is put on the timeline. *)
Lemma populateTimeline_adds (tz now : Z) (ctx : Ctx) (it : Item)
    (m : list (string * TimelineDay)) (target : Z) :
  targetDateOf now ctx it = Some (At target) ->
  dateGe (At target) (today ctx) = true ->
  In (timelineItem it) (timelineItems (populateTimeline tz now ctx it m)).
Proof.
  intros Htarget Hge. unfold populateTimeline. rewrite Htarget, Hge.
  set (k := isoDateKey target).
  set (m' := if mapHas m k then m
             else (m ++ [(k, mkTimelineDay k (getDayLabel tz now (At target)) [])])%list).
  assert (Hin : In k (map fst m')).
  { subst m'. destruct (mapHas m k) eqn:Hhas.
    - now apply mapHas_In.
    - rewrite map_app. apply in_or_app. right. left. reflexivity. }
  apply (Permutation_in _ (Permutation_sym (mapPush_items m' k (timelineItem it) Hin))).
  left. reflexivity.
Qed.

(** C5.  The freshness gate.  The configured max age is
    [hideOlderThanHours] hours, 60 by default.  An item whose publish
    timestamp is missing or invalid is not fresh.  An item published at
    [pub] is fresh exactly when its age [now - pub] does not exceed the
    configured max age, lowered to 6 h for weather_alerts, 12 h for alerts
    and 336 h for festivals.  Inside the loop an item that is not fresh
    adds nothing to the timeline and the sections, and a fresh item that
    the later tests let through is handed to the sections and the
    timeline (for texts and negative keywords of ASCII characters, on
    which these tests are those of the code).  In particular a
    weather_alerts item published 7 hours ago is dropped when
    [hideOlderThanHours] is 60, and an alerts item published 10 hours ago
    survives: the loop appends it to the alerts section and, when it has
    no extracted date, puts it on the timeline, as the run over the two
    sample items shows. *)
Theorem C5_freshness_gate (tz now : Z) (settings : option Settings) (it : Item) :
  let ctx := makeCtx tz now settings in
  let hour := 3600000 in
  let limit :=
    match category it with
    | weather_alerts => Z.min (maxAgeMs ctx) (6 * hour)
    | alerts => Z.min (maxAgeMs ctx) (12 * hour)
    | festivals => Z.min (maxAgeMs ctx) (336 * hour)
    | _ => maxAgeMs ctx
    end in
  let scored := withScore it (forwardScoreOf (fullTextOf it)) in
  maxAgeMs ctx
  = match chain settings hideOlderThanHours with
    | Some 0 | None => 60 * hour
    | Some h => h * hour
    end
  /\ (pubDate it = None \/ pubDate it = Some Invalid ->
      isFresh now (maxAgeMs ctx) it = false)
  /\ (forall pub, pubDate it = Some (At pub) ->
      (isFresh now (maxAgeMs ctx) it = true <-> now - pub <= limit))
  /\ (forall acc l w,
        cacheOk w -> heap w !! l = Some it -> isFresh now (maxAgeMs ctx) it = false ->
        exists acc' w',
          processItem tz now ctx acc l w = Some (acc', w')
          /\ timelineMap acc' = timelineMap acc
          /\ accSections acc' = accSections acc)
  /\ (forall acc l w,
        cacheOk w -> heap w !! l = Some it -> id it ∉ seenIds acc ->
        isAscii (title it) = true -> isAscii (description it) = true ->
        forallb isAscii (mergedNegatives ctx) = true ->
        isFresh now (maxAgeMs ctx) it = true ->
        isStale (fullTextOf it) = false ->
        negativeDrop ctx (fullTextOf it) = false ->
        irrelevantDrop ctx (category it) (fullTextOf it) = false ->
        locationDrop ctx (category it) (fullTextOf it) = false ->
        exists w',
          processItem tz now ctx acc l w
          = Some (match populateSections tz ctx scored (accSections acc) with
                  | None => dropped acc it
                  | Some sections' =>
                      mkAcc (populateTimeline tz now ctx scored (timelineMap acc))
                        sections' ({[id it]} ∪ seenIds acc)
                  end, w'))
  /\ (chain settings hideOlderThanHours = Some 60 ->
      category it = weather_alerts -> pubDate it = Some (At (now - 7 * hour)) ->
      isFresh now (maxAgeMs ctx) it = false
      /\ forall acc l w,
           cacheOk w -> heap w !! l = Some it ->
           exists acc' w',
             processItem tz now ctx acc l w = Some (acc', w')
             /\ timelineMap acc' = timelineMap acc
             /\ accSections acc' = accSections acc)
  /\ (chain settings hideOlderThanHours = Some 60
      \/ chain settings hideOlderThanHours = None ->
      category it = alerts -> pubDate it = Some (At (now - 10 * hour)) ->
      isFresh now (maxAgeMs ctx) it = true
      /\ forall acc l w,
           cacheOk w -> heap w !! l = Some it -> id it ∉ seenIds acc ->
           -86400000 <= tz <= 86400000 ->
           -8640000000000000 + 2 * msPerDay <= now <= 8640000000000000 - 2 * msPerDay ->
           isAscii (title it) = true -> isAscii (description it) = true ->
           forallb isAscii (mergedNegatives ctx) = true ->
           isStale (fullTextOf it) = false ->
           negativeDrop ctx (fullTextOf it) = false ->
           locationDrop ctx alerts (fullTextOf it) = false ->
           exists acc' w',
             processItem tz now ctx acc l w = Some (acc', w')
             /\ section (accSections acc') alerts
                = option_map (fun l => (l ++ [displayItem tz it])%list)
                    (section (accSections acc) alerts)
             /\ (extractedDate it = None -> In (id it) (timelineIds acc')))
  /\ option_map
       (fun r => (map (fun d => (date d, dayLabel d, map t_id (items d)))
                    (timeline (fst r)),
                  option_map (map d_title) (section (sections (fst r)) alerts),
                  option_map (map d_title) (section (sections (fst r)) weather_alerts)))
       (processUpAheadData Samples.tzIST Samples.nowIST [6; 8]%nat
          (Some Samples.settings60) Samples.worldAlerts)
     = Some ([("2026-02-09", "Today", ["g8"])],
             Some ["Power cut in Chennai: TANGEDCO maintenance work"], Some []).
Proof.
  cbv zeta.
  assert (Hmax : maxAgeMs (makeCtx tz now settings)
                 = match chain settings hideOlderThanHours with
                   | Some 0 | None => 60 * 3600000
                   | Some h => h * 3600000
                   end).
  { unfold makeCtx. cbn [maxAgeMs].
    destruct (chain settings hideOlderThanHours) as [[|h|h]|]; cbn [Z.eqb]; lia. }
  assert (Hgate : forall acc l w,
            cacheOk w -> heap w !! l = Some it ->
            isFresh now (maxAgeMs (makeCtx tz now settings)) it = false ->
            exists acc' w',
              processItem tz now (makeCtx tz now settings) acc l w = Some (acc', w')
              /\ timelineMap acc' = timelineMap acc
              /\ accSections acc' = accSections acc).
  { intros acc l w Hok Hl Hfresh.
    destruct (processItem_outcome tz now (makeCtx tz now settings) acc l w it Hok Hl)
      as (w' & Hrun & _).
    exists (itemOutcome tz now (makeCtx tz now settings) acc it), w'.
    split; [exact Hrun|].
    unfold itemOutcome. rewrite Hfresh. cbn [negb orb].
    destruct (decide (id it ∈ seenIds acc)); auto. }
  assert (Hkept : forall acc l w,
            cacheOk w -> heap w !! l = Some it -> id it ∉ seenIds acc ->
            passes now (makeCtx tz now settings) it ->
            exists w',
              processItem tz now (makeCtx tz now settings) acc l w
              = Some (match populateSections tz (makeCtx tz now settings)
                              (withScore it (forwardScoreOf (fullTextOf it)))
                              (accSections acc) with
                      | None => dropped acc it
                      | Some sections' =>
                          mkAcc (populateTimeline tz now (makeCtx tz now settings)
                                   (withScore it (forwardScoreOf (fullTextOf it)))
                                   (timelineMap acc))
                            sections' ({[id it]} ∪ seenIds acc)
                      end, w')).
  { intros acc l w Hok Hl Hnew Hpass.
    destruct (processItem_outcome tz now (makeCtx tz now settings) acc l w it Hok Hl)
      as (w' & Hrun & _).
    exists w'. rewrite Hrun. now rewrite itemOutcome_passes. }
  split; [exact Hmax|].
  split.
  { unfold isFresh. intros [-> | ->]; reflexivity. }
  split.
  { intros pub Hpub. unfold isFresh, effectiveMaxAgeMs. rewrite Hpub.
    rewrite negb_true_iff, Z.ltb_ge.
    destruct (category it); cbn [CATEGORY_MAX_AGE_HOURS]; lia. }
  split; [exact Hgate|].
  split.
  { intros acc l w Hok Hl Hnew _ _ _ Hfresh Hstale Hneg Hirr Hloc.
    apply (Hkept acc l w Hok Hl Hnew). repeat split; assumption. }
  split.
  { intros Hh Hcat Hpub.
    assert (Hfresh : isFresh now (maxAgeMs (makeCtx tz now settings)) it = false).
    { unfold isFresh, effectiveMaxAgeMs.
      rewrite Hpub, Hcat, Hmax, Hh. cbn [CATEGORY_MAX_AGE_HOURS].
      rewrite negb_false_iff, Z.ltb_lt. lia. }
    split; [exact Hfresh|].
    intros acc l w Hok Hl. now apply Hgate. }
  split.
  { intros Hh Hcat Hpub.
    assert (Hfresh : isFresh now (maxAgeMs (makeCtx tz now settings)) it = true).
    { unfold isFresh, effectiveMaxAgeMs. rewrite Hpub, Hcat, Hmax.
      cbn [CATEGORY_MAX_AGE_HOURS].
      rewrite negb_true_iff, Z.ltb_ge. destruct Hh as [-> | ->]; lia. }
    split; [exact Hfresh|].
    intros acc l w Hok Hl Hnew Htz Hnow _ _ _ Hstale Hneg Hloc.
    assert (Hirr : irrelevantDrop (makeCtx tz now settings) (category it) (fullTextOf it)
                   = false).
    { unfold irrelevantDrop. rewrite Hcat.
      destruct (mergedPositives (makeCtx tz now settings) alerts); reflexivity. }
    rewrite <- Hcat in Hloc.
    destruct (Hkept acc l w Hok Hl Hnew ltac:(repeat split; assumption)) as [w' Hrun].
    set (scored := withScore it (forwardScoreOf (fullTextOf it))) in *.
    assert (Hsec : populateSections tz (makeCtx tz now settings) scored (accSections acc)
                   = Some (updateSection (fun l => (l ++ [displayItem tz scored])%list)
                             (accSections acc) alerts)).
    { unfold populateSections. subst scored. cbn [category extractedDate isRoundup withScore].
      rewrite Hcat. cbn [section isPlannerSection andb].
      destruct (extractedDate it); reflexivity. }
    rewrite Hsec in Hrun.
    eexists. exists w'. split; [exact Hrun|].
    cbn [timelineMap accSections]. split.
    - rewrite section_updateSection_same. subst scored.
      now rewrite displayItem_withScore.
    - intros Hdate. unfold timelineIds. cbn [timelineMap].
      pose proof (localDay_bounds tz now) as Hday.
      assert (Htoday : today (makeCtx tz now settings)
                       = At (localDay tz now * msPerDay - tz)).
      { unfold makeCtx. cbn [today setHoursZero]. apply timeClip_valid.
        unfold msPerDay in *. lia. }
      change (id it) with (t_id (timelineItem scored)).
      apply in_map.
      apply (populateTimeline_adds tz now _ scored _ (localDay tz now * msPerDay - tz)).
      + unfold targetDateOf. subst scored.
        cbn [category extractedDate isRoundup pubDate withScore].
        rewrite Hdate, Hcat, Hpub, Htoday.
        replace (now - (now - 10 * 3600000) <? 24 * 60 * 60 * 1000) with true
          by (symmetry; apply Z.ltb_lt; lia).
        reflexivity.
      + rewrite Htoday. cbn [dateGe]. apply Z.leb_refl. }
  vm_compute. reflexivity.
Qed.

(** The theorem at the alert published ten hours ago: the loop puts it on
    the timeline and into the alerts section; and at the weather alert
    published seven hours ago: the loop leaves both as they are. *)
Lemma C5_freshness_gate_witness :
  (exists acc' w',
     processItem Samples.tzIST Samples.nowIST
       (makeCtx Samples.tzIST Samples.nowIST (Some Samples.settings60))
       (mkAcc [] emptySections ∅) 8 Samples.worldAlerts
     = Some (acc', w')
     /\ section (accSections acc') alerts
        = Some [displayItem Samples.tzIST Samples.powerCut]
     /\ In "g8" (timelineIds acc'))
  /\ (exists acc' w',
        processItem Samples.tzIST Samples.nowIST
          (makeCtx Samples.tzIST Samples.nowIST (Some Samples.settings60))
          (mkAcc [] emptySections ∅) 6 Samples.worldAlerts
        = Some (acc', w')
        /\ timelineMap acc' = []
        /\ accSections acc' = emptySections).
Proof.
  split.
  - destruct (C5_freshness_gate Samples.tzIST Samples.nowIST (Some Samples.settings60)
                Samples.powerCut) as (_ & _ & _ & _ & _ & _ & Hkept & _).
    destruct Hkept as [_ Hkept]; [left; reflexivity|reflexivity|reflexivity|].
    destruct (Hkept (mkAcc [] emptySections ∅) 8%nat Samples.worldAlerts)
      as (acc' & w' & Hrun & Hsec & Htimeline).
    + apply cacheOk_empty.
    + vm_compute. reflexivity.
    + cbn [seenIds]. apply not_elem_of_empty.
    + unfold Samples.tzIST. lia.
    + unfold Samples.nowIST, msPerDay. lia.
    + reflexivity.
    + reflexivity.
    + vm_compute. reflexivity.
    + vm_compute. reflexivity.
    + vm_compute. reflexivity.
    + vm_compute. reflexivity.
    + exists acc', w'. split; [exact Hrun|]. split; [exact Hsec|].
      apply Htimeline. reflexivity.
  - destruct (C5_freshness_gate Samples.tzIST Samples.nowIST (Some Samples.settings60)
                Samples.oldWeatherAlert) as (_ & _ & _ & _ & _ & Hdrop & _).
    destruct Hdrop as [_ Hdrop]; [reflexivity|reflexivity|reflexivity|].
    apply (Hdrop (mkAcc [] emptySections ∅) 6%nat Samples.worldAlerts).
    + apply cacheOk_empty.
    + vm_compute. reflexivity.
Defined.

End GateClaims.
